(** * Feedback Loop: cross-tab state store, message bus and level triggers

    A shallow embedding of [engine/state.js], [engine/channel.js] and the
    trigger code of [levels/level1.js], [levels/level3.js] and
    [levels/level4.js], together with the properties of the synchronisation
    layer that are stated about them.

    Layout:
    - [Section 1] JSON values and the host codec ([JSON.stringify] / [JSON.parse]);
    - [Section 2] the host: [localStorage], [BroadcastChannel], effect log,
      and the monad in which the JavaScript code is written;
    - [Section 3] [engine/state.js];
    - [Section 4] [engine/channel.js] and delivery between contexts;
    - [Section 5] the level automata;
    - [Section 6] the observations that the statements are written in;
    - [Section 7] theorems. *)

From Stdlib Require Import ZArith NArith Ascii String DecimalString DecimalZ DecimalN DecimalPos
  DecimalFacts Lia.
From stdpp Require Import gmap strings list fin_maps.

Set Warnings "-register-all".
Local Open Scope string_scope.

(* ===================================================================== *)
(** * 1. JSON values and the host codec                                   *)
(* ===================================================================== *)

(** In-memory JavaScript data is modelled by its JSON image.  Objects are
    finite maps from property names to values, so two objects with the same
    own properties are equal whatever the insertion order.  Strings are
    sequences of bytes, the UTF-8 image of the JavaScript string.

    Numbers are finite decimals, taken exactly: [JNum] holds the integers
    and [JFrac] the others.  A number that is not an integer has exactly one
    spelling [±(10 q + d) / 10 ^ e] with a last digit [d] other than zero
    and [e >= 1], and that spelling is the value.  JavaScript rounds a
    number to binary64; the exact value is the JavaScript value for the
    integers up to [2 ^ 53] and for the decimals of at most 15 significant
    digits within the range of a double, where the counters, tab numbers
    and time stamps of the program lie. *)
Inductive nzdigit := N1 | N2 | N3 | N4 | N5 | N6 | N7 | N8 | N9.

Record fraction := mkFrac {
  f_neg : bool;
  f_quot : N;
  f_last : nzdigit;
  f_exp : positive
}.

Inductive json :=
| JNull
| JBool (b : bool)
| JNum (n : Z)
| JFrac (x : fraction)
| JStr (s : string)
| JArr (l : list json)
| JObj (m : gmap string json).

(** A JavaScript number: what [Date.now() + Math.random()] returns. *)
Inductive number :=
| Int (n : Z)
| Frac (x : fraction).

Definition JNumber (x : number) : json :=
  match x with Int n => JNum n | Frac f => JFrac f end.

Global Instance nzdigit_eq_dec : EqDecision nzdigit.
Proof. solve_decision. Defined.

Global Instance fraction_eq_dec : EqDecision fraction.
Proof. solve_decision. Defined.

Global Instance number_eq_dec : EqDecision number.
Proof. solve_decision. Defined.

(** The concrete syntax tree of a JSON text: members keep their textual
    order and may repeat a key. *)
Inductive jtree :=
| TNull
| TBool (b : bool)
| TNum (n : Z)
| TFrac (x : fraction)
| TStr (s : string)
| TArr (l : list jtree)
| TObj (m : list (string * jtree)).

Fixpoint to_tree (v : json) : jtree :=
  match v with
  | JNull => TNull
  | JBool b => TBool b
  | JNum n => TNum n
  | JFrac x => TFrac x
  | JStr s => TStr s
  | JArr l => TArr (map to_tree l)
  | JObj m => TObj (map_to_list (to_tree <$> m))
  end.

(** A repeated key keeps its last value, as [JSON.parse] does. *)
Fixpoint of_tree (t : jtree) : json :=
  match t with
  | TNull => JNull
  | TBool b => JBool b
  | TNum n => JNum n
  | TFrac x => JFrac x
  | TStr s => JStr s
  | TArr l => JArr (map of_tree l)
  | TObj m => JObj (list_to_map (reverse (map (fun kv => (fst kv, of_tree (snd kv))) m)))
  end.

Fixpoint jsize (v : json) : nat :=
  match v with
  | JArr l => S (list_sum (map jsize l))
  | JObj m => S (map_fold (fun _ x acc => jsize x + acc) 0 m)
  | _ => 1
  end.

(** ** Characters *)

Definition chr (n : N) : ascii := ascii_of_N n.
Definition code (c : ascii) : N := N_of_ascii c.

Definition DQ : ascii := chr 34.
Definition BS : ascii := chr 92.

Definition is_ws (c : ascii) : bool :=
  let n := code c in
  ((n =? 32) || (n =? 9) || (n =? 10) || (n =? 13))%N.

Fixpoint skip_ws (s : string) : string :=
  match s with
  | EmptyString => EmptyString
  | String c s' => if is_ws c then skip_ws s' else s
  end.

(** ** Numbers *)

Definition is_digit (c : ascii) : bool :=
  let n := code c in ((48 <=? n) && (n <=? 57))%N.

(** The characters that can continue a number. *)
Definition is_num_char (c : ascii) : bool :=
  let n := code c in
  (is_digit c || (n =? 45) || (n =? 43) || (n =? 46) || (n =? 101) || (n =? 69))%N.

Fixpoint span_digits (s : string) : string * string :=
  match s with
  | EmptyString => (EmptyString, EmptyString)
  | String c s' =>
      if is_digit c
      then let '(a, b) := span_digits s' in (String c a, b)
      else (EmptyString, s)
  end.

Definition print_N (n : N) : string := NilZero.string_of_uint (N.to_uint n).

Fixpoint stake (n : nat) (s : string) : string :=
  match n, s with
  | S n', String c s' => String c (stake n' s')
  | _, _ => EmptyString
  end.

Fixpoint sdrop (n : nat) (s : string) : string :=
  match n, s with
  | S n', String _ s' => sdrop n' s'
  | _, _ => s
  end.

(** An integer in full. *)
Definition print_small (n : Z) : string := NilZero.string_of_int (Z.to_int n).

(** [n] as [m * 10 ^ z]: trailing zeros are split off, at most [fuel] of
    them. *)
Fixpoint strip_zeros (fuel : nat) (n : N) : N * nat :=
  match fuel with
  | O => (n, O)
  | S f =>
      if (n =? 0)%N || negb (n mod 10 =? 0)%N then (n, O)
      else let '(m, z) := strip_zeros f (n / 10) in (m, S z)
  end.

(** An integer in exponent notation: the digits before its trailing zeros,
    a point after the first, and the power of ten. *)
Definition print_large (n : Z) : string :=
  let a := Z.abs_N n in
  let '(m, z) := strip_zeros (String.length (print_N a)) a in
  let ds := print_N m in
  (if (n <? 0)%Z then "-" else EmptyString) +:+
  stake 1 ds +:+
  (match sdrop 1 ds with
   | EmptyString => EmptyString
   | String c r => String "." (String c r)
   end) +:+
  "e+" +:+ print_N (N.of_nat (String.length ds - 1 + z)).

(** [Number::toString] for an integer: in full below [10 ^ 21], in
    exponent notation from there on. *)
Definition print_Z (n : Z) : string :=
  if (Z.abs n <? 10 ^ 21)%Z then print_small n else print_large n.

(** The value of a run of digits, leading zeros allowed. *)
Definition N_of_digits (s : string) : N :=
  match NilEmpty.uint_of_string s with
  | Some u => N.of_uint u
  | None => 0%N
  end.

(** The integer that a string spells canonically (and [-0]): no leading
    zero, no lone sign. *)
Definition parse_Z (s : string) : option Z :=
  match NilZero.int_of_string s with
  | Some d =>
      let n := Z.of_int d in
      if String.eqb (print_Z n) s || String.eqb s "-0" then Some n else None
  | None => None
  end.

Definition nz_val (d : nzdigit) : N :=
  match d with
  | N1 => 1 | N2 => 2 | N3 => 3 | N4 => 4 | N5 => 5
  | N6 => 6 | N7 => 7 | N8 => 8 | N9 => 9
  end%N.

Definition nz_of (n : N) : option nzdigit :=
  match n with
  | 1 => Some N1 | 2 => Some N2 | 3 => Some N3 | 4 => Some N4 | 5 => Some N5
  | 6 => Some N6 | 7 => Some N7 | 8 => Some N8 | 9 => Some N9
  | _ => None
  end%N.

(** The digits of a fraction: [10 q + d]. *)
Definition f_digits (x : fraction) : N := (10 * f_quot x + nz_val (f_last x))%N.

Definition signed (neg : bool) (n : N) : Z :=
  if neg then (- Z.of_N n)%Z else Z.of_N n.

Fixpoint zeros (n : nat) : string :=
  match n with
  | O => EmptyString
  | S n' => String "0" (zeros n')
  end.

(** [Number::toString] for a number that is not an integer: with [k]
    digits and the decimal point after the [n]-th, plain notation for
    [-6 < n <= 21] and exponent notation otherwise. *)
Definition print_frac (x : fraction) : string :=
  let ds := print_N (f_digits x) in
  let k := Z.of_nat (String.length ds) in
  let n := (k - Z.pos (f_exp x))%Z in
  (if f_neg x then "-" else EmptyString) +:+
  (if (0 <? n)%Z && (n <=? 21)%Z then
     stake (Z.to_nat n) ds +:+ "." +:+ sdrop (Z.to_nat n) ds
   else if (-6 <? n)%Z && (n <=? 0)%Z then
     "0." +:+ zeros (Z.to_nat (- n)) +:+ ds
   else
     stake 1 ds +:+
     (match sdrop 1 ds with
      | EmptyString => EmptyString
      | String c r => String "." (String c r)
      end) +:+
     "e" +:+ (if (0 <=? n - 1)%Z then "+" else "-") +:+ print_N (Z.abs_N (n - 1))).

(** The number [± D / 10 ^ e] for [D] not zero: common factors of ten are
    removed, at most as many as [D] has digits. *)
Fixpoint scale (fuel : nat) (neg : bool) (D : N) (e : positive) : jtree :=
  match nz_of (D mod 10) with
  | Some d => TFrac (mkFrac neg (D / 10) d e)
  | None =>
      if (e =? 1)%positive then TNum (signed neg (D / 10))
      else match fuel with
           | O => TNum 0
           | S f => scale f neg (D / 10) (Pos.pred e)
           end
  end.

(** The number [± D * 10 ^ t] of a literal with [len] digits. *)
Definition number_of (len : nat) (neg : bool) (D : N) (t : Z) : jtree :=
  if (D =? 0)%N then TNum 0
  else if (0 <=? t)%Z then TNum (signed neg D * 10 ^ t)
  else scale len neg D (Z.to_pos (- t)).

(** The fraction part of a number literal: a point and at least one digit. *)
Definition parse_fraction (s : string) : option (string * string) :=
  match s with
  | String c s' =>
      if (code c =? 46)%N then
        let '(fr, rest) := span_digits s' in
        match fr with
        | EmptyString => None
        | String _ _ => Some (fr, rest)
        end
      else Some (EmptyString, s)
  | EmptyString => Some (EmptyString, s)
  end.

(** The exponent part: [e] or [E], an optional sign, at least one digit. *)
Definition parse_exponent (s : string) : option (Z * string) :=
  match s with
  | String c s' =>
      if ((code c =? 101) || (code c =? 69))%N then
        let '(neg, s1) :=
          match s' with
          | String g s'' =>
              if (code g =? 45)%N then (true, s'')
              else if (code g =? 43)%N then (false, s'')
              else (false, s')
          | EmptyString => (false, s')
          end in
        let '(x, rest) := span_digits s1 in
        match x with
        | EmptyString => None
        | String _ _ => Some (signed neg (N_of_digits x), rest)
        end
      else Some (0%Z, s)
  | EmptyString => Some (0%Z, s)
  end.

(** A number literal at the head of [s]: an optional minus, an integer
    part without a leading zero, an optional fraction, an optional
    exponent. *)
Definition parse_number (s : string) : option (jtree * string) :=
  let '(neg, s1) :=
    match s with
    | String c s' => if (code c =? 45)%N then (true, s') else (false, s)
    | EmptyString => (false, s)
    end in
  let '(i, s2) := span_digits s1 in
  match i with
  | EmptyString => None
  | String c0 i' =>
      if (code c0 =? 48)%N && negb (String.eqb i' EmptyString) then None
      else
        '(fr, s3) ← parse_fraction s2;
        '(x, s4) ← parse_exponent s3;
        Some (number_of (String.length (i +:+ fr)) neg (N_of_digits (i +:+ fr))
                        (x - Z.of_nat (String.length fr)), s4)
  end.

(** ** Strings *)

Definition hex_digit (n : N) : ascii :=
  if (n <? 10)%N then chr (48 + n) else chr (87 + n).

Definition hex_val (c : ascii) : option N :=
  let n := code c in
  if ((48 <=? n) && (n <=? 57))%N then Some (n - 48)%N
  else if ((97 <=? n) && (n <=? 102))%N then Some (n - 87)%N
  else if ((65 <=? n) && (n <=? 70))%N then Some (n - 55)%N
  else None.

Definition esc (c : ascii) : string := String BS (String c EmptyString).

Definition escape_char (c : ascii) : string :=
  let n := code c in
  if (n =? 34)%N then esc c
  else if (n =? 92)%N then esc c
  else if (n =? 8)%N then esc "b"
  else if (n =? 9)%N then esc "t"
  else if (n =? 10)%N then esc "n"
  else if (n =? 12)%N then esc "f"
  else if (n =? 13)%N then esc "r"
  else if (n <? 32)%N then
    String BS ("u00" +:+ String (hex_digit (n / 16)) (String (hex_digit (n mod 16)) EmptyString))
  else String c EmptyString.

Fixpoint escape (s : string) : string :=
  match s with
  | EmptyString => EmptyString
  | String c s' => escape_char c +:+ escape s'
  end.

Definition quote (s : string) : string :=
  String DQ (escape s +:+ String DQ EmptyString).

Definition unescape_simple (e : ascii) : option ascii :=
  let n := code e in
  if (n =? 34)%N then Some DQ
  else if (n =? 92)%N then Some BS
  else if (n =? 47)%N then Some (chr 47)
  else if (n =? 98)%N then Some (chr 8)
  else if (n =? 102)%N then Some (chr 12)
  else if (n =? 110)%N then Some (chr 10)
  else if (n =? 114)%N then Some (chr 13)
  else if (n =? 116)%N then Some (chr 9)
  else None.

Definition hex4 (a b c d : ascii) : option N :=
  x ← hex_val a; y ← hex_val b; z ← hex_val c; w ← hex_val d;
  Some (4096 * x + 256 * y + 16 * z + w)%N.

Definition cons_char (c : ascii) (r : string * string) : string * string :=
  (String c (fst r), snd r).

Definition cons_str (p : string) (r : string * string) : string * string :=
  (p +:+ fst r, snd r).

(** The UTF-8 bytes of a code point; a lone surrogate is written like any
    other code point of its size. *)
Definition utf8 (v : N) : string :=
  if (v <? 128)%N then String (chr v) EmptyString
  else if (v <? 2048)%N then
    String (chr (192 + v / 64)) (String (chr (128 + v mod 64)) EmptyString)
  else if (v <? 65536)%N then
    String (chr (224 + v / 4096))
      (String (chr (128 + (v / 64) mod 64)) (String (chr (128 + v mod 64)) EmptyString))
  else
    String (chr (240 + v / 262144))
      (String (chr (128 + (v / 4096) mod 64))
         (String (chr (128 + (v / 64) mod 64)) (String (chr (128 + v mod 64)) EmptyString))).

Definition is_high_surrogate (v : N) : bool := ((55296 <=? v) && (v <? 56320))%N.
Definition is_low_surrogate (v : N) : bool := ((56320 <=? v) && (v <? 57344))%N.

(** The low surrogate escape at the head of [s], if there is one. *)
Definition low_surrogate (s : string) : option N :=
  match s with
  | String b (String u (String l1 (String l2 (String l3 (String l4 _))))) =>
      if ((code b =? 92) && (code u =? 117))%N then
        match hex4 l1 l2 l3 l4 with
        | Some w => if is_low_surrogate w then Some w else None
        | None => None
        end
      else None
  | _ => None
  end.

(** The characters of a string literal after its opening quote, up to and
    including the closing quote.  A [\u] escape names a UTF-16 code unit;
    a high surrogate followed by the escape of a low one is one code
    point. *)
Fixpoint parse_chars (s : string) : option (string * string) :=
  match s with
  | EmptyString => None
  | String c s1 =>
      let n := code c in
      if (n =? 34)%N then Some (EmptyString, s1)
      else if (n =? 92)%N then
        match s1 with
        | EmptyString => None
        | String e s2 =>
            match unescape_simple e with
            | Some c' => cons_char c' <$> parse_chars s2
            | None =>
                if (code e =? 117)%N then
                  match s2 with
                  | String h1 (String h2 (String h3 (String h4 s6))) =>
                      match hex4 h1 h2 h3 h4 with
                      | Some v =>
                          match (if is_high_surrogate v then low_surrogate s6 else None), s6 with
                          | Some w, String _ (String _ (String _ (String _ (String _ (String _ s12))))) =>
                              cons_str (utf8 (65536 + (v - 55296) * 1024 + (w - 56320)))
                                <$> parse_chars s12
                          | _, _ => cons_str (utf8 v) <$> parse_chars s6
                          end
                      | None => None
                      end
                  | _ => None
                  end
                else None
            end
        end
      else if (n <? 32)%N then None
      else cons_char c <$> parse_chars s1
  end.

(** ** Printer *)

Section print_tails.
Variable pr : jtree -> string.

Fixpoint print_arr_tail (l : list jtree) : string :=
  match l with
  | [] => "]"
  | y :: l' => "," +:+ pr y +:+ print_arr_tail l'
  end.

Fixpoint print_obj_tail (m : list (string * jtree)) : string :=
  match m with
  | [] => "}"
  | kv :: m' => "," +:+ quote (fst kv) +:+ ":" +:+ pr (snd kv) +:+ print_obj_tail m'
  end.
End print_tails.

Fixpoint print_tree (t : jtree) : string :=
  match t with
  | TNull => "null"
  | TBool true => "true"
  | TBool false => "false"
  | TNum n => print_Z n
  | TFrac x => print_frac x
  | TStr s => quote s
  | TArr [] => "[]"
  | TArr (x :: l) => "[" +:+ print_tree x +:+ print_arr_tail print_tree l
  | TObj [] => "{}"
  | TObj (kv :: m) =>
      "{" +:+ quote (fst kv) +:+ ":" +:+ print_tree (snd kv) +:+ print_obj_tail print_tree m
  end.

(** ** Parser *)

Fixpoint expect (lit : string) (s : string) : option string :=
  match lit with
  | EmptyString => Some s
  | String a lit' =>
      match s with
      | EmptyString => None
      | String b s' => if Ascii.eqb a b then expect lit' s' else None
      end
  end.

Definition parse_key (s : string) : option (string * string) :=
  match skip_ws s with
  | String c s1 =>
      if (code c =? 34)%N then
        '(k, s2) ← parse_chars s1;
        match skip_ws s2 with
        | String c2 s3 => if (code c2 =? 58)%N then Some (k, s3) else None
        | EmptyString => None
        end
      else None
  | EmptyString => None
  end.

Fixpoint parse_value (fuel : nat) (s : string) : option (jtree * string) :=
  match fuel with
  | O => None
  | S f =>
      match skip_ws s with
      | EmptyString => None
      | String c s1 =>
          let n := code c in
          if (n =? 110)%N then s2 ← expect "ull" s1; Some (TNull, s2)
          else if (n =? 116)%N then s2 ← expect "rue" s1; Some (TBool true, s2)
          else if (n =? 102)%N then s2 ← expect "alse" s1; Some (TBool false, s2)
          else if (n =? 34)%N then '(x, s2) ← parse_chars s1; Some (TStr x, s2)
          else if (n =? 91)%N then
            match skip_ws s1 with
            | EmptyString => None
            | String c2 s2 =>
                if (code c2 =? 93)%N then Some (TArr [], s2)
                else
                  '(v, s3) ← parse_value f s1;
                  '(vs, s4) ← parse_arr_tail f s3;
                  Some (TArr (v :: vs), s4)
            end
          else if (n =? 123)%N then
            match skip_ws s1 with
            | EmptyString => None
            | String c2 s2 =>
                if (code c2 =? 125)%N then Some (TObj [], s2)
                else
                  '(k, s3) ← parse_key s1;
                  '(v, s4) ← parse_value f s3;
                  '(kvs, s5) ← parse_obj_tail f s4;
                  Some (TObj ((k, v) :: kvs), s5)
            end
          else if (n =? 45)%N || is_digit c then parse_number (String c s1)
          else None
      end
  end
with parse_arr_tail (fuel : nat) (s : string) : option (list jtree * string) :=
  match fuel with
  | O => None
  | S f =>
      match skip_ws s with
      | EmptyString => None
      | String c s1 =>
          if (code c =? 93)%N then Some ([], s1)
          else if (code c =? 44)%N then
            '(v, s2) ← parse_value f s1;
            '(vs, s3) ← parse_arr_tail f s2;
            Some (v :: vs, s3)
          else None
      end
  end
with parse_obj_tail (fuel : nat) (s : string) : option (list (string * jtree) * string) :=
  match fuel with
  | O => None
  | S f =>
      match skip_ws s with
      | EmptyString => None
      | String c s1 =>
          if (code c =? 125)%N then Some ([], s1)
          else if (code c =? 44)%N then
            '(k, s2) ← parse_key s1;
            '(v, s3) ← parse_value f s2;
            '(kvs, s4) ← parse_obj_tail f s3;
            Some ((k, v) :: kvs, s4)
          else None
      end
  end.

(** [JSON.stringify] on JSON data: the compact text, no whitespace. *)
Definition JSON_stringify (v : json) : string := print_tree (to_tree v).

(** [JSON.parse]: [None] stands for the [SyntaxError] it throws.  The
    fuel is never used up: every call consumes a character. *)
Definition JSON_parse (s : string) : option json :=
  match parse_value (S (String.length s)) s with
  | Some (t, rest) =>
      match skip_ws rest with
      | EmptyString => Some (of_tree t)
      | String _ _ => None
      end
  | None => None
  end.

(** ** Measures and side conditions for the codec proofs *)

(** Fuel that the parser needs for a tree. *)
Section tail_sizes.
Variable sz : jtree -> nat.
Fixpoint arr_tail_size (l : list jtree) : nat :=
  match l with
  | [] => 1
  | y :: l' => S (sz y + arr_tail_size l')
  end.
Fixpoint obj_tail_size (m : list (string * jtree)) : nat :=
  match m with
  | [] => 1
  | kv :: m' => S (sz (snd kv) + obj_tail_size m')
  end.
End tail_sizes.

Fixpoint tsize (t : jtree) : nat :=
  match t with
  | TArr [] => 1
  | TArr (x :: l) => S (tsize x + arr_tail_size tsize l)
  | TObj [] => 1
  | TObj (kv :: m) => S (tsize (snd kv) + obj_tail_size tsize m)
  | _ => 1
  end.

Definition follow_ok (rest : string) : Prop :=
  match rest with
  | EmptyString => True
  | String c _ => is_num_char c = false
  end.

Definition starts_value (s : string) : Prop :=
  match s with
  | EmptyString => False
  | String c _ => is_ws c = false /\ (code c =? 93)%N = false /\ (code c =? 125)%N = false
  end.

Fixpoint all_digits (s : string) : Prop :=
  match s with
  | EmptyString => True
  | String c s' => is_digit c = true /\ all_digits s'
  end.

Definition no_digit_head (rest : string) : Prop :=
  match rest with
  | EmptyString => True
  | String c _ => is_digit c = false
  end.

(** The digits of a positive number. *)
Definition print_pos (p : positive) : string := NilEmpty.string_of_uint (Pos.to_uint p).

Definition parses (t : jtree) : Prop :=
  forall f rest, tsize t <= f -> follow_ok rest ->
    parse_value f (print_tree t +:+ rest) = Some (t, rest).

(* ===================================================================== *)
(** * 2. The host                                                         *)
(* ===================================================================== *)

(** Exceptions that reach JavaScript code.  [Unmodelled] is not one of
    them: it ends a run at the point where the code reads or replaces a
    built-in (a property inherited from a prototype, the conversion of a
    text that is not a plain integer), which the JSON image of the data
    does not show.  Nothing is stated about such a run. *)
Inductive js_error :=
| TypeError (msg : string)
| QuotaExceededError
| DataCloneError
| Unmodelled.

(** Every context holds two [BroadcastChannel] objects named
    ['feedbackloop']: [_channel] of engine/state.js and [channel] of
    engine/channel.js. *)
Inductive bc_object := StateChannel | BusChannel.

(** What a context makes observable outside itself. *)
Inductive event :=
| EvPost (src : bc_object) (data : json)
| EvStorage (key : string) (newValue : string)
| EvWarn (msg : string)
| EvCall (target : string) (args : list json).

Record Host := mkHost {
  localStorage : gmap string string;
  quota : nat;
  hasBroadcastChannel : bool;
  hasTHREE : bool;
  entropy : list number;
  trace : list event
}.

Inductive outcome (A : Type) :=
| Ok (a : A) (h : Host)
| Throw (e : js_error) (h : Host).
Arguments Ok {A} a h.
Arguments Throw {A} e h.

Definition M (A : Type) : Type := Host -> outcome A.

Definition ret {A} (a : A) : M A := fun h => Ok a h.

Definition bind {A B} (m : M A) (k : A -> M B) : M B :=
  fun h => match m h with
           | Ok a h' => k a h'
           | Throw e h' => Throw e h'
           end.

Definition throw {A} (e : js_error) : M A := fun h => Throw e h.

(** [try { body } catch (_) { handler }] *)
Definition try_catch {A} (body : M A) (handler : M A) : M A :=
  fun h => match body h with
           | Ok a h' => Ok a h'
           | Throw Unmodelled h' => Throw Unmodelled h'
           | Throw _ h' => handler h'
           end.

Declare Scope js_scope.
Delimit Scope js_scope with js.
Notation "x <- m ;; k" := (bind m (fun x => k))
  (at level 20, m at level 99, k at level 200, only parsing) : js_scope.
Notation "m ;; k" := (bind m (fun _ => k))
  (at level 100, k at level 200, right associativity, only parsing) : js_scope.
Local Open Scope js_scope.

Definition host : M Host := fun h => Ok h h.

Definition emit (e : event) : M unit :=
  fun h => Ok tt (mkHost (localStorage h) (quota h) (hasBroadcastChannel h)
                         (hasTHREE h) (entropy h) (trace h ++ [e])).

Definition call (target : string) (args : list json) : M unit :=
  emit (EvCall target args).

(** ** localStorage *)

Definition storage_used (m : gmap string string) : nat :=
  map_fold (fun k v n => String.length k + String.length v + n) 0 m.

Definition getItem (k : string) : M (option string) :=
  fun h => Ok (localStorage h !! k) h.

(** [setItem] throws when the origin's quota would be exceeded; a change of
    value raises a storage event in the other documents of the origin. *)
Definition setItem (k v : string) : M unit :=
  fun h =>
    let m' := <[k := v]> (localStorage h) in
    if (storage_used m' <=? quota h)%nat
    then Ok tt (mkHost m' (quota h) (hasBroadcastChannel h) (hasTHREE h) (entropy h)
                       (trace h ++ (if decide (localStorage h !! k = Some v)
                                    then [] else [EvStorage k v])))
    else Throw QuotaExceededError h.

Definition postMessage (src : bc_object) (data : json) : M unit :=
  emit (EvPost src data).

(** [Date.now() + Math.random()]: the next number that the host's clock
    and random source give. *)
Definition fresh_number : M number :=
  fun h => match entropy h with
           | [] => Ok (Int 0) h
           | z :: zs => Ok z (mkHost (localStorage h) (quota h) (hasBroadcastChannel h)
                                     (hasTHREE h) zs (trace h))
           end.

(** ** JavaScript values and property access *)

(** [None] is [undefined]. *)
Definition jsval : Type := option json.

Definition obj (l : list (string * json)) : json := JObj (list_to_map l).

Definition array_index (k : string) : option nat :=
  match parse_Z k with
  | Some n => if (0 <=? n)%Z && String.eqb (print_Z n) k then Some (Z.to_nat n) else None
  | None => None
  end.

Definition string_at (s : string) (i : nat) : jsval :=
  match String.get i s with
  | Some c => Some (JStr (String c EmptyString))
  | None => None
  end.

(** The properties that every object inherits from [Object.prototype],
    and those that arrays, strings and numbers inherit in addition.  The
    lists name every property that an engine with modules has shipped
    there. *)
Definition OBJECT_PROTOTYPE : list string :=
  ["constructor"; "__defineGetter__"; "__defineSetter__"; "hasOwnProperty";
   "__lookupGetter__"; "__lookupSetter__"; "isPrototypeOf"; "propertyIsEnumerable";
   "toString"; "valueOf"; "__proto__"; "toLocaleString"; "toSource"].

Definition ARRAY_PROTOTYPE : list string :=
  ["at"; "concat"; "copyWithin"; "entries"; "every"; "fill"; "filter"; "find";
   "findIndex"; "findLast"; "findLastIndex"; "flat"; "flatMap"; "forEach";
   "group"; "groupBy"; "groupToMap"; "includes"; "indexOf"; "join"; "keys";
   "lastIndexOf"; "map"; "pop"; "push"; "reduce"; "reduceRight"; "reverse";
   "shift"; "slice"; "some"; "sort"; "splice"; "toReversed"; "toSorted";
   "toSpliced"; "unshift"; "values"; "with"].

Definition STRING_PROTOTYPE : list string :=
  ["anchor"; "at"; "big"; "blink"; "bold"; "charAt"; "charCodeAt"; "codePointAt";
   "concat"; "endsWith"; "fixed"; "fontcolor"; "fontsize"; "includes"; "indexOf";
   "isWellFormed"; "italics"; "lastIndexOf"; "link"; "localeCompare"; "match";
   "matchAll"; "normalize"; "padEnd"; "padStart"; "repeat"; "replace";
   "replaceAll"; "search"; "slice"; "small"; "split"; "startsWith"; "strike";
   "sub"; "substr"; "substring"; "sup"; "toLocaleLowerCase"; "toLocaleUpperCase";
   "toLowerCase"; "toUpperCase"; "toWellFormed"; "trim"; "trimEnd"; "trimLeft";
   "trimRight"; "trimStart"].

Definition NUMBER_PROTOTYPE : list string :=
  ["toExponential"; "toFixed"; "toPrecision"].

Definition inherited (k : string) : bool := bool_decide (k ∈ OBJECT_PROTOTYPE).

Definition inherited_from (proto : list string) (k : string) : bool :=
  bool_decide (k ∈ proto) || inherited k.

Fixpoint is_ascii (s : string) : bool :=
  match s with
  | EmptyString => true
  | String c s' => (code c <? 128)%N && is_ascii s'
  end.

(** What a read gives when the value has no own property of that name. *)
Definition not_own (o : option json) (builtin : bool) : M jsval :=
  match o with
  | Some x => ret (Some x)
  | None => if builtin then throw Unmodelled else ret None
  end.

(** [v[k]]: the own property, else the one of the prototype.  The
    properties of the prototypes are functions and accessors: reading one
    leaves JSON data.  A string is indexed by UTF-16 code units, which are
    its bytes when it is ASCII.  Reading a property of [undefined] or
    [null] is a [TypeError]. *)
Definition get (v : jsval) (k : string) : M jsval :=
  match v with
  | None => throw (TypeError "Cannot read properties of undefined")
  | Some JNull => throw (TypeError "Cannot read properties of null")
  | Some (JObj m) => not_own (m !! k) (inherited k)
  | Some (JArr l) =>
      if String.eqb k "length" then ret (Some (JNum (Z.of_nat (length l))))
      else match array_index k with
           | Some i => ret (l !! i)
           | None => not_own None (inherited_from ARRAY_PROTOTYPE k)
           end
  | Some (JStr s) =>
      if negb (is_ascii s) then throw Unmodelled
      else if String.eqb k "length" then ret (Some (JNum (Z.of_nat (String.length s))))
      else match array_index k with
           | Some i => ret (string_at s i)
           | None => not_own None (inherited_from STRING_PROTOTYPE k)
           end
  | Some (JNum _) | Some (JFrac _) => not_own None (inherited_from NUMBER_PROTOTYPE k)
  | Some (JBool _) => not_own None (inherited k)
  end.

(** [v?.[k]] for a key [k] that no built-in prototype defines: the
    property names that the program writes out. *)
Definition get_opt (v : jsval) (k : string) : jsval :=
  match v with
  | Some (JObj m) => m !! k
  | Some (JArr l) =>
      if String.eqb k "length" then Some (JNum (Z.of_nat (length l)))
      else i ← array_index k; l !! i
  | Some (JStr s) =>
      if String.eqb k "length" then Some (JNum (Z.of_nat (String.length s)))
      else i ← array_index k; string_at s i
  | _ => None
  end.

(** [o.__proto__ = x] where [o] has no own property of that name: the
    setter of [Object.prototype] replaces the prototype by an object or
    [null] and ignores any other value. *)
Definition set_prototype (o x : json) : M json :=
  match x with
  | JObj _ | JArr _ | JNull => throw Unmodelled
  | _ => ret o
  end.

(** [o[k] = x] in strict mode.  Every other property of
    [Object.prototype] is a writable data property, which the assignment
    shadows by an own one.  An array that is given a named property, a new
    length or a hole is no longer the image of JSON text. *)
Definition put (o : jsval) (k : string) (x : json) : M json :=
  match o with
  | None => throw (TypeError "Cannot set properties of undefined")
  | Some JNull => throw (TypeError "Cannot set properties of null")
  | Some (JObj m) =>
      if String.eqb k "__proto__" && negb (bool_decide (is_Some (m !! k)))
      then set_prototype (JObj m) x
      else ret (JObj (<[k := x]> m))
  | Some (JArr l) =>
      match array_index k with
      | Some i =>
          if (i <? length l)%nat then ret (JArr (<[i := x]> l))
          else if (i =? length l)%nat then ret (JArr (l ++ [x]))
          else throw Unmodelled
      | None => throw Unmodelled
      end
  | Some _ => throw (TypeError "Cannot create property")
  end.

(** The own enumerable properties that [{ ...v }] copies; those of a
    string are its code units, its bytes when it is ASCII. *)
Definition spread (v : jsval) : gmap string json :=
  match v with
  | Some (JObj m) => m
  | Some (JArr l) => list_to_map (imap (fun i x => (print_Z (Z.of_nat i), x)) l)
  | Some (JStr s) =>
      list_to_map (imap (fun i c => (print_Z (Z.of_nat i), JStr (String c EmptyString)))
                        (list_ascii_of_string s))
  | _ => ∅
  end.

(** [a ?? b] *)
Definition nullish (a : jsval) (b : json) : json :=
  match a with
  | None | Some JNull => b
  | Some v => v
  end.

(** Truthiness of a value in a condition. *)
Definition truthy (v : jsval) : bool :=
  match v with
  | None | Some JNull => false
  | Some (JBool b) => b
  | Some (JNum n) => negb (n =? 0)%Z
  | Some (JStr s) => negb (String.eqb s EmptyString)
  | Some _ => true
  end.

(** [v === JStr s], [v === true] *)
Definition is_str (v : jsval) (s : string) : bool :=
  match v with Some (JStr t) => String.eqb t s | _ => false end.

Definition is_true (v : jsval) : bool :=
  match v with Some (JBool true) => true | _ => false end.

Definition is_num (v : jsval) (n : Z) : bool :=
  match v with Some (JNum m) => (m =? n)%Z | _ => false end.

(* ===================================================================== *)
(** * 3. engine/state.js                                                  *)
(* ===================================================================== *)

Definition STORAGE_KEY : string := "feedbackloop_state".

Definition defaultState : json :=
  obj [
    ("tabs", obj [
      ("1", obj [("visitCount", JNum 0); ("state", JStr "unvisited");
                 ("puzzleSolved", JBool false); ("symbolsFound", JArr []);
                 ("floorRevealed", JBool false)]);
      ("2", obj [("visitCount", JNum 0); ("state", JStr "unvisited");
                 ("puzzleSolved", JBool false); ("symbolsFound", JArr [])]);
      ("3", obj [("visitCount", JNum 0); ("state", JStr "unvisited");
                 ("puzzleSolved", JBool false); ("backtrackedTo1", JBool false)]);
      ("4", obj [("visitCount", JNum 0); ("state", JStr "unvisited");
                 ("fragmentsCollected", JArr [])])]);
    ("player", obj [("hasFlashlight", JBool false); ("codeFragments", JArr []);
                    ("mindFragments", JArr [])]);
    ("narrative", obj [("shown", JArr [])]);
    ("meta", obj [("currentTab", JNull); ("highestTabUnlocked", JNum 1);
                  ("gameComplete", JBool false); ("actTwoComplete", JBool false)])
  ].

(** [_channel] is non-null exactly when [new BroadcastChannel] did not throw. *)
Definition _broadcast (fromTab payload : jsval) : M unit :=
  h <- host ;;
  if hasBroadcastChannel h
  then postMessage StateChannel
         (obj [("type", JStr "STATE_CHANGE");
               ("fromTab", nullish fromTab JNull);
               ("payload", nullish payload (obj []))])
  else ret tt.

Definition getState : M json :=
  raw <- getItem STORAGE_KEY ;;
  let reinit : M json :=
    (let initial := defaultState in
     setItem STORAGE_KEY (JSON_stringify initial) ;;
     ret initial) in
  match raw with
  | Some (String c r) =>
      match JSON_parse (String c r) with
      | Some v => ret v
      | None => reinit
      end
  | _ => reinit
  end.

Definition setState (updater : json -> M json) (fromTab : jsval) : M json :=
  current <- getState ;;
  next <- updater current ;;
  setItem STORAGE_KEY (JSON_stringify next) ;;
  _broadcast (Some (nullish fromTab JNull)) (Some next) ;;
  ret next.

(** A tab identifier, [{string|number}]. *)
Inductive tab_id :=
| TabNum (n : Z)
| TabStr (s : string).

Definition String_of (t : tab_id) : string :=
  match t with TabNum n => print_Z n | TabStr s => s end.

Definition tab_json (t : tab_id) : json :=
  match t with TabNum n => JNum n | TabStr s => JStr s end.

Definition getTabState (tabId : tab_id) : M json :=
  state <- getState ;;
  tabs <- get (Some state) "tabs" ;;
  r <- get tabs (String_of tabId) ;;
  ret (nullish r JNull).

Definition updateTabState (tabId : tab_id) (updates : json) : M json :=
  let id := String_of tabId in
  setState (fun state =>
              tabs <- get (Some state) "tabs" ;;
              old <- get tabs id ;;
              tabs' <- put tabs id (JObj (spread (Some updates) ∪ spread old)) ;;
              put (Some state) "tabs" tabs')
           (Some (tab_json tabId)).

Definition resetState : M json :=
  let initial := defaultState in
  setItem STORAGE_KEY (JSON_stringify initial) ;;
  _broadcast (Some JNull) (Some initial) ;;
  ret initial.

(* ===================================================================== *)
(** * 4. engine/channel.js                                                *)
(* ===================================================================== *)

Definition CHANNEL_NAME : string := "feedbackloop".

Definition VALID_TYPES : list string :=
  ["STATE_CHANGE"; "TAB_COMPLETED"; "BACKTRACK_TRIGGER"; "PUZZLE_SOLVED";
   "NARRATOR_TRIGGER"; "NEW_SYMBOL_FOUND"; "MIND_FRAGMENTS_COLLECTED";
   "GAME_COMPLETE_FINAL"].

Definition LS_KEY : string := "__feedbackloop_channel__".

(** The identity of a function object. *)
Definition fn_id : Type := nat.

(** An argument as [typeof] sees it. *)
Inductive js_arg :=
| AFun (f : fn_id)
| AData (v : jsval).

(** A payload as a caller can pass it: JSON data, or a value that JSON
    text cannot hold. *)
Inductive js_payload :=
| PData (v : jsval)
| PFunction
| PBigInt
| PCircular.

Inductive transport := Primary | Fallback.

(** The wrapper closure that [onMessage] attaches for a callback. *)
Record handler := mkHandler { via : transport; h_cb : fn_id }.

Global Instance transport_eq_dec : EqDecision transport.
Proof. solve_decision. Defined.

Global Instance handler_eq_dec : EqDecision handler.
Proof. solve_decision. Defined.

(** Module state of engine/channel.js in one context: [listenerMap], the
    ['message'] listeners of [channel], the ['storage'] listeners of
    [window]. *)
Record Bus := mkBus {
  listenerMap : gmap nat handler;
  message_listeners : list handler;
  storage_listeners : list handler
}.

Definition empty_bus : Bus := mkBus ∅ [] [].

Definition lsFallbackPost (envelope : json) : M unit :=
  nonce <- fresh_number ;;
  let wrapped :=
    JSON_stringify (JObj (<["_nonce" := JNumber nonce]> (spread (Some envelope)))) in
  try_catch (setItem LS_KEY wrapped) (ret tt).

(** The handler of [lsFallbackListen] on a storage event: the message it
    passes to the callback, if any. *)
Definition lsFallbackListen_message (key newValue : string) : option json :=
  if negb (String.eqb key LS_KEY) || String.eqb newValue EmptyString then None
  else match JSON_parse newValue with
       | None => None
       | Some JNull => None
       | Some parsed => Some (JObj (delete "_nonce" (spread (Some parsed))))
       end.

Definition lsFallbackListen (callback : fn_id) : handler := mkHandler Fallback callback.

(** The text of [console.warn] for a type outside [VALID_TYPES]: the type
    between double quotes. *)
Definition unknown_type_warning (type : string) : string :=
  "[channel] Unknown message type: " +:+ String DQ (type +:+ String DQ EmptyString).

(** [send] with a payload of JSON data, as every caller in the levels
    passes. *)
Definition send (type : string) (payload fromTab : jsval) : M unit :=
  (if bool_decide (type ∈ VALID_TYPES) then ret tt
   else emit (EvWarn (unknown_type_warning type))) ;;
  let envelope :=
    obj [("type", JStr type);
         ("fromTab", default JNull fromTab);
         ("payload", default (obj []) payload)] in
  h <- host ;;
  if hasBroadcastChannel h
  then postMessage BusChannel envelope
  else lsFallbackPost envelope.

(** [send] with any payload.  [postMessage] clones its argument and throws
    a [DataCloneError] on a function; [JSON.stringify], which
    [lsFallbackPost] calls outside its [try], leaves a function property
    out and throws a [TypeError] on a BigInt and on a circular structure.
    A BigInt or a circular structure that is posted reaches the listeners
    as it is, outside JSON data. *)
Definition send_any (type : string) (payload : js_payload) (fromTab : jsval) : M unit :=
  match payload with
  | PData v => send type v fromTab
  | _ =>
      (if bool_decide (type ∈ VALID_TYPES) then ret tt
       else emit (EvWarn (unknown_type_warning type))) ;;
      h <- host ;;
      if hasBroadcastChannel h
      then match payload with
           | PFunction => throw DataCloneError
           | _ => throw Unmodelled
           end
      else match payload with
           | PFunction =>
               lsFallbackPost (obj [("type", JStr type); ("fromTab", default JNull fromTab)])
           | PBigInt => throw (TypeError "Do not know how to serialize a BigInt")
           | _ => throw (TypeError "Converting circular structure to JSON")
           end
  end.

Definition onMessage (callback : js_arg) (b : Bus) : M Bus :=
  match callback with
  | AData _ => throw (TypeError "[channel] onMessage expects a function")
  | AFun f =>
      if bool_decide (is_Some (listenerMap b !! f)) then ret b
      else
        h <- host ;;
        if hasBroadcastChannel h
        then let hd := mkHandler Primary f in
             ret (mkBus (<[f := hd]> (listenerMap b))
                        (message_listeners b ++ [hd]) (storage_listeners b))
        else let hd := lsFallbackListen f in
             ret (mkBus (<[f := hd]> (listenerMap b))
                        (message_listeners b) (storage_listeners b ++ [hd]))
  end.

Definition removeListener (callback : js_arg) (b : Bus) : M Bus :=
  match callback with
  | AData _ => ret b
  | AFun f =>
      match listenerMap b !! f with
      | None => ret b
      | Some hd =>
          h <- host ;;
          if hasBroadcastChannel h
          then ret (mkBus (delete f (listenerMap b))
                          (filter (fun x => x <> hd) (message_listeners b))
                          (storage_listeners b))
          else ret (mkBus (delete f (listenerMap b))
                          (message_listeners b)
                          (filter (fun x => x <> hd) (storage_listeners b)))
      end
  end.

(** ** Contexts and delivery *)

Record Context := mkContext { cid : nat; bus : Bus }.

(** A callback invocation: the context, the callback, its argument. *)
Definition Delivery : Type := nat * fn_id * json.

(** What an event emitted in context [sender] makes the listeners of
    context [c] do.  A posted message reaches every other
    [BroadcastChannel] object of that name, so a post on [_channel] of
    engine/state.js reaches [channel] of engine/channel.js in every
    context, the sender's own included; a storage event reaches only the
    other documents. *)
Definition deliver_event (sender : nat) (e : event) (c : Context) : list Delivery :=
  match e with
  | EvPost src data =>
      let excluded :=
        match src with
        | BusChannel => (cid c =? sender)%nat
        | StateChannel => false
        end in
      if excluded then []
      else map (fun hd => (cid c, h_cb hd, data)) (message_listeners (bus c))
  | EvStorage key newValue =>
      if (cid c =? sender)%nat then []
      else match lsFallbackListen_message key newValue with
           | Some msg => map (fun hd => (cid c, h_cb hd, msg)) (storage_listeners (bus c))
           | None => []
           end
  | _ => []
  end.

Definition deliveries (sender : nat) (evs : list event) (cs : list Context) : list Delivery :=
  e ← evs; c ← cs; deliver_event sender e c.

Definition new_events (h h' : Host) : list event :=
  drop (length (trace h)) (trace h').

(* ===================================================================== *)
(** * 5. The level automata                                               *)
(* ===================================================================== *)

(** Calls into the renderer, audio, narrator and DOM collaborators are
    recorded in the trace with [call]; the collaborators are taken to
    return normally. *)

(** ** Array methods and comparisons used by the levels *)

Definition is_substring (x s : string) : bool :=
  match String.index 0 x s with Some _ => true | None => false end.

(** [recv.includes(x)] for a string [x]. *)
Definition includes (recv : jsval) (x : string) : M bool :=
  match recv with
  | None => throw (TypeError "Cannot read properties of undefined")
  | Some JNull => throw (TypeError "Cannot read properties of null")
  | Some (JArr l) => ret (existsb (fun y => is_str (Some y) x) l)
  | Some (JStr s) => ret (is_substring x s)
  | Some _ => throw (TypeError "includes is not a function")
  end.

(** [recv.push(x)] *)
Definition push (recv : jsval) (x : json) : M json :=
  match recv with
  | None => throw (TypeError "Cannot read properties of undefined")
  | Some JNull => throw (TypeError "Cannot read properties of null")
  | Some (JArr l) => ret (JArr (l ++ [x]))
  | Some _ => throw (TypeError "push is not a function")
  end.

Fixpoint all_chars (p : ascii -> bool) (s : string) : bool :=
  match s with
  | EmptyString => true
  | String c s' => p c && all_chars p s'
  end.

(** White space and line terminators below U+0080. *)
Definition is_space (c : ascii) : bool :=
  let n := code c in ((n =? 32) || ((9 <=? n) && (n <=? 13)))%N.

(** A character that no numeric text contains: an ASCII character other
    than white space, the digits, the signs, the point, the hexadecimal
    letters, the radix and exponent letters and the letters of
    [Infinity]. *)
Definition never_numeric (c : ascii) : bool :=
  let n := code c in
  (n <? 128)%N && negb (is_space c) && negb (is_digit c) &&
  negb (bool_decide (c ∈ list_ascii_of_string "+-.abcdefABCDEFxXoOInity")).

(** [Number(s)] for a string; [None] is [NaN].  The empty string and white
    space are zero, the canonical spelling of an integer is that integer,
    a text with a character that no numeric text has is not a number.
    The other spellings (fractions, exponents, radix prefixes, padding)
    are not told apart here. *)
Definition string_to_number (s : string) : M (option number) :=
  if all_chars is_space s then ret (Some (Int 0))
  else match parse_Z s with
       | Some n => ret (Some (Int n))
       | None =>
           if negb (all_chars (fun c => negb (never_numeric c)) s)
           then ret None
           else throw Unmodelled
       end.

(** [Number(v)] on the JSON image; [None] is [NaN].  An object converts
    through the [toString] and [valueOf] that it inherits, to
    ["[object Object]"]; an array through [join]. *)
Definition to_number (v : jsval) : M (option number) :=
  match v with
  | None => ret None
  | Some JNull => ret (Some (Int 0))
  | Some (JBool b) => ret (Some (Int (if b then 1 else 0)))
  | Some (JNum m) => ret (Some (Int m))
  | Some (JFrac x) => ret (Some (Frac x))
  | Some (JStr s) => string_to_number s
  | Some (JArr []) => ret (Some (Int 0))
  | Some (JArr [_]) => throw Unmodelled
  | Some (JArr _) => ret None
  | Some (JObj m) =>
      if bool_decide (is_Some (m !! "toString")) || bool_decide (is_Some (m !! "valueOf"))
      then throw Unmodelled
      else ret None
  end.

(** The integer [n] times [10 ^ e]. *)
Definition shifted (n : Z) (e : positive) : Z := (n * 10 ^ Z.pos e)%Z.

(** [x < n] and [x >= n] on numbers; every comparison with [NaN] is false. *)
Definition number_lt (x : option number) (n : Z) : bool :=
  match x with
  | Some (Int m) => (m <? n)%Z
  | Some (Frac f) => (signed (f_neg f) (f_digits f) <? shifted n (f_exp f))%Z
  | None => false
  end.

Definition number_ge (x : option number) (n : Z) : bool :=
  match x with
  | Some (Int m) => (n <=? m)%Z
  | Some (Frac f) => (shifted n (f_exp f) <=? signed (f_neg f) (f_digits f))%Z
  | None => false
  end.

(** [v < n] and [v >= n] *)
Definition js_lt (v : jsval) (n : Z) : M bool :=
  x <- to_number v ;; ret (number_lt x n).

Definition js_ge (v : jsval) (n : Z) : M bool :=
  x <- to_number v ;; ret (number_ge x n).

(** [v.length >= n] *)
Definition length_ge (v : jsval) (n : Z) : M bool :=
  len <- get v "length" ;;
  js_ge len n.

(** [a || b] *)
Definition or_else (a : jsval) (b : json) : jsval :=
  if truthy a then a else Some b.

Fixpoint filterM {A} (p : A -> M bool) (l : list A) : M (list A) :=
  match l with
  | [] => ret []
  | x :: l' =>
      keep <- p x ;;
      rest <- filterM p l' ;;
      ret (if keep then x :: rest else rest)
  end.

Fixpoint forM_ {A} (f : A -> M unit) (l : list A) : M unit :=
  match l with
  | [] => ret tt
  | x :: l' => f x ;; forM_ f l'
  end.

(** ** The state updaters that the levels pass to [setState] *)

(** level1.js, [setupReturnVisit], the floor-symbol interaction. *)
Definition add_codeFragment (symbol : string) (s : json) : M json :=
  player <- get (Some s) "player" ;;
  frags <- get player "codeFragments" ;;
  present <- includes frags symbol ;;
  if present then ret s
  else
    frags' <- push frags (JStr symbol) ;;
    player' <- put player "codeFragments" frags' ;;
    put (Some s) "player" player'.

(** level1.js, [_enter3D], the mind-fragment proximity check. *)
Definition add_mindFragment (id : string) (s : json) : M json :=
  player <- get (Some s) "player" ;;
  frags0 <- get player "mindFragments" ;;
  player1 <- (if truthy frags0 then ret (default JNull player)
              else put player "mindFragments" (JArr [])) ;;
  frags <- get (Some player1) "mindFragments" ;;
  present <- includes frags id ;;
  if present then put (Some s) "player" player1
  else
    frags' <- push frags (JStr id) ;;
    player2 <- put (Some player1) "mindFragments" frags' ;;
    put (Some s) "player" player2.

(** level4.js, the memory-fragment proximity check. *)
Definition add_tab4_fragment (id : string) (s : json) : M json :=
  tabs <- get (Some s) "tabs" ;;
  t4 <- get tabs "4" ;;
  tabs1 <- (if truthy t4 then ret (default JNull tabs)
            else put tabs "4" (obj [("visitCount", JNum 0); ("state", JStr "visited");
                                    ("fragmentsCollected", JArr [])])) ;;
  rec0 <- get (Some tabs1) "4" ;;
  fc0 <- get rec0 "fragmentsCollected" ;;
  rec1 <- (if truthy fc0 then ret (default JNull rec0)
           else put rec0 "fragmentsCollected" (JArr [])) ;;
  frags <- get (Some rec1) "fragmentsCollected" ;;
  present <- includes frags id ;;
  rec2 <- (if present then ret rec1
           else frags' <- push frags (JStr id) ;;
                put (Some rec1) "fragmentsCollected" frags') ;;
  tabs2 <- put (Some tabs1) "4" rec2 ;;
  put (Some s) "tabs" tabs2.

(** [s.player.hasFlashlight = true] *)
Definition set_hasFlashlight (s : json) : M json :=
  player <- get (Some s) "player" ;;
  player' <- put player "hasFlashlight" (JBool true) ;;
  put (Some s) "player" player'.

(** [if (s.meta.highestTabUnlocked < n) s.meta.highestTabUnlocked = n] *)
Definition unlock_tab (n : Z) (s : json) : M json :=
  meta <- get (Some s) "meta" ;;
  cur <- get meta "highestTabUnlocked" ;;
  below <- js_lt cur n ;;
  if below
  then meta' <- put meta "highestTabUnlocked" (JNum n) ;;
       put (Some s) "meta" meta'
  else ret s.

(** [s.meta.<flag> = true] *)
Definition set_meta_flag (flag : string) (s : json) : M json :=
  meta <- get (Some s) "meta" ;;
  meta' <- put meta flag (JBool true) ;;
  put (Some s) "meta" meta'.

(** ** Level 1 *)

Record floor_symbol := mkFloor {
  fs_col : Z; fs_row : Z; fs_symbol : string; fs_id : string
}.

Definition FLOOR_SYMBOLS : list floor_symbol :=
  [ mkFloor 3 3 "◆" "floor_diamond";
    mkFloor 8 6 "▲" "floor_triangle";
    mkFloor 12 10 "●" "floor_circle";
    mkFloor 6 12 "■" "floor_square";
    mkFloor 16 4 "★" "floor_star" ].

Definition floor_interactable (s : floor_symbol) : json :=
  obj [("col", JNum (fs_col s)); ("row", JNum (fs_row s)); ("type", JStr "floor_symbol");
       ("id", JStr (fs_id s)); ("symbol", JStr (fs_symbol s)); ("color", JStr "#00E5FF")].

Definition bonus_interactable : json :=
  obj [("col", JNum 3); ("row", JNum 3); ("type", JStr "bonus_symbol");
       ("id", JStr "bonus_key"); ("color", JStr "#00FFAA"); ("glow", JBool true);
       ("glowRadius", JNum 60)].

(** The callback currently installed with [renderer.setOnMove] and
    [renderer.setOnInteract]. *)
Inductive l1_move := L1MoveNone | L1MovePickup | L1MoveBonus.
Inductive l1_interact := L1InteractExit | L1InteractSymbols.

(** The variables that the closures of [init] share.  A first-visit
    resource is [true] while its handle is not [null]. *)
Record L1 := mkL1 {
  entered3D : bool;
  bonusSymbolPlaced : bool;
  bonusSymbolCollected : bool;
  firstVisitExitInterval : bool;
  firstVisitKeydownHandler : bool;
  firstVisitPromptOverlay : bool;
  l1_onMove : l1_move;
  l1_onInteract : l1_interact;
  symbolInteractables : list floor_symbol;
  returnVisibleListeners : nat
}.

Definition tab1 : tab_id := TabNum 1.

(** The part of [_enter3D] that touches the store; building the scene
    follows it. *)
Definition _enter3D : M unit :=
  h <- host ;;
  if negb (hasTHREE h)
  then call "console.error" [JStr "[Level 1 3D] Three.js not loaded. Check CDN script tag."]
  else
    call "document.title" [JStr "Origin"] ;;
    updateTabState tab1 (obj [("state", JStr "3d")]) ;;
    call "audio.playLofiMusic" [].

Definition tryEnter3D (st : L1) : M L1 :=
  if entered3D st then ret st
  else
    s <- getState ;;
    meta <- get (Some s) "meta" ;;
    gc <- get meta "gameComplete" ;;
    if is_true gc
    then _enter3D ;;
         ret (mkL1 true (bonusSymbolPlaced st) (bonusSymbolCollected st)
                   (firstVisitExitInterval st) (firstVisitKeydownHandler st)
                   (firstVisitPromptOverlay st) (l1_onMove st) (l1_onInteract st)
                   (symbolInteractables st) (returnVisibleListeners st))
    else ret st.

Definition placeBonusSymbol (st : L1) : M L1 :=
  if bonusSymbolCollected st then ret st
  else
    updateTabState tab1 (obj [("bonusSymbolAvailable", JBool true)]) ;;
    call "renderer.setInteractables" [JArr [bonus_interactable]] ;;
    call "renderer.setOnMove" [JStr "collectBonus"] ;;
    ret (mkL1 (entered3D st) true (bonusSymbolCollected st)
              (firstVisitExitInterval st) (firstVisitKeydownHandler st)
              (firstVisitPromptOverlay st) L1MoveBonus (l1_onInteract st)
              (symbolInteractables st) (returnVisibleListeners st)).

(** The [onMove] callback that [placeBonusSymbol] installs. *)
Definition bonus_onMove (col row : Z) (st : L1) : M L1 :=
  if (col =? 3)%Z && (row =? 3)%Z && negb (bonusSymbolCollected st)
  then
    call "renderer.setInteractables" [JArr []] ;;
    call "renderer.triggerPulse" [JNum 3; JNum 3; JNum 500] ;;
    updateTabState tab1 (obj [("bonusSymbol", JBool true)]) ;;
    send "NEW_SYMBOL_FOUND" (Some (obj [("fromTab", JNum 1)])) (Some (JNum 1)) ;;
    call "audio.playChime" [JNum 1] ;;
    ret (mkL1 (entered3D st) (bonusSymbolPlaced st) true
              (firstVisitExitInterval st) (firstVisitKeydownHandler st)
              (firstVisitPromptOverlay st) (l1_onMove st) (l1_onInteract st)
              (symbolInteractables st) (returnVisibleListeners st))
  else ret st.

Definition setupReturnVisit (st : L1) : M L1 :=
  call "document.title" [JStr "Origin ←"] ;;
  call "renderer.setFullIllumination" [JBool false] ;;
  call "renderer.setFlashlight" [JBool true] ;;
  s <- getState ;;
  player <- get (Some s) "player" ;;
  cf <- get player "codeFragments" ;;
  let collected := or_else cf (JArr []) in
  syms <- filterM (fun fs => present <- includes collected (fs_symbol fs) ;;
                             ret (negb present)) FLOOR_SYMBOLS ;;
  call "renderer.setInteractables" [JArr (map floor_interactable syms)] ;;
  call "renderer.setOnInteract" [JStr "collectFloorSymbol"] ;;
  call "audio.playLofiMusic" [] ;;
  call "renderer.setOnMove" [JNull] ;;
  ret (mkL1 (entered3D st) (bonusSymbolPlaced st) (bonusSymbolCollected st)
            (firstVisitExitInterval st) (firstVisitKeydownHandler st)
            (firstVisitPromptOverlay st) L1MoveNone L1InteractSymbols
            syms (returnVisibleListeners st)).

(** An interactable as the renderer hands it to [onInteract]. *)
Record item := mkItem { item_type : string; item_id : string; item_symbol : string }.

(** The [onInteract] callback that [setupReturnVisit] installs. *)
Definition return_onInteract (it : item) (st : L1) : M L1 :=
  if String.eqb (item_type it) "floor_symbol"
  then
    setState (add_codeFragment (item_symbol it)) (Some (JNum 1)) ;;
    call "audio.playChime" [JNum 1] ;;
    let remaining :=
      match list_find (fun i => fs_id i = item_id it) (symbolInteractables st) with
      | Some (idx, _) => delete idx (symbolInteractables st)
      | None => symbolInteractables st
      end in
    call "renderer.setInteractables" [JArr (map floor_interactable remaining)] ;;
    s <- getState ;;
    player <- get (Some s) "player" ;;
    frags <- get player "codeFragments" ;;
    all <- length_ge frags 5 ;;
    (if all
     then send "BACKTRACK_TRIGGER" (Some (obj [("targetTab", JNum 3)])) (Some (JNum 1))
     else ret tt) ;;
    ret (mkL1 (entered3D st) (bonusSymbolPlaced st) (bonusSymbolCollected st)
              (firstVisitExitInterval st) (firstVisitKeydownHandler st)
              (firstVisitPromptOverlay st) (l1_onMove st) (l1_onInteract st)
              remaining (returnVisibleListeners st))
  else ret st.


(** The spacebar handler of the first-visit exit, once the player stands
    on the unlocked exit. *)
Definition l1_exit : M unit :=
  send "TAB_COMPLETED" (Some (obj [("completedTab", JNum 1)])) (Some (JNum 1)) ;;
  setState (unlock_tab 2) (Some (JNum 1)) ;;
  call "window.open" [JStr "game.html?tab=2"].

(** The Tab 3 backtrack branch of the message listener. *)
Definition illuminate (st : L1) : M L1 :=
  updateTabState tab1 (obj [("state", JStr "illuminated"); ("floorRevealed", JBool true)]) ;;
  (if firstVisitExitInterval st then call "clearInterval" [] else ret tt) ;;
  (if firstVisitKeydownHandler st then call "window.removeEventListener" [JStr "keydown"]
   else ret tt) ;;
  (if firstVisitPromptOverlay st then call "firstVisitPromptOverlay.remove" [] else ret tt) ;;
  st' <- setupReturnVisit
           (mkL1 (entered3D st) (bonusSymbolPlaced st) (bonusSymbolCollected st)
                 false false false (l1_onMove st) (l1_onInteract st)
                 (symbolInteractables st) (returnVisibleListeners st)) ;;
  call "document.addEventListener" [JStr "visibilitychange"; JStr "onReturnVisible"] ;;
  ret (mkL1 (entered3D st') (bonusSymbolPlaced st') (bonusSymbolCollected st')
            (firstVisitExitInterval st') (firstVisitKeydownHandler st')
            (firstVisitPromptOverlay st') (l1_onMove st') (l1_onInteract st')
            (symbolInteractables st') (S (returnVisibleListeners st'))).

(** The listener that [init] registers with [channel.onMessage]. *)
Definition l1_onMessage (msg : json) (st : L1) : M L1 :=
  ty <- get (Some msg) "type" ;;
  payload <- get (Some msg) "payload" ;;
  r <- (if is_str ty "BACKTRACK_TRIGGER" && is_num (get_opt payload "targetTab") 1
        then
          if is_str (get_opt payload "reason") "midpuzzle"
          then st' <- placeBonusSymbol st ;; ret (inl st')
          else st' <- illuminate st ;; ret (inr st')
        else ret (inr st)) ;;
  match r with
  | inl st' => ret st'
  | inr st' =>
      if is_str ty "TAB_COMPLETED" && is_num (get_opt payload "completedTab") 3
      then tryEnter3D st'
      else ret st'
  end.

(** The [visibilitychange] listener of [init], when the tab is shown. *)
Definition l1_onVisible (st : L1) : M L1 :=
  if entered3D st then ret st else tryEnter3D st.

(** [onReturnVisible], when the tab is shown: each registered copy fires
    the narrator line and removes itself. *)
Definition l1_onReturnVisible (st : L1) : M L1 :=
  forM_ (fun _ => call "narrator.triggerNarrator" [JStr "tab1_return"])
        (replicate (returnVisibleListeners st) tt) ;;
  ret (mkL1 (entered3D st) (bonusSymbolPlaced st) (bonusSymbolCollected st)
            (firstVisitExitInterval st) (firstVisitKeydownHandler st)
            (firstVisitPromptOverlay st) (l1_onMove st) (l1_onInteract st)
            (symbolInteractables st) 0).




(** ** Level 3 *)

Definition WALL_MAP3 : list (list Z) :=
  [ [1;1;1;1;1;1;1;1;1;1;1;1;1;1;1;1;1;1;1;1];
    [1;0;0;0;0;0;0;0;0;0;0;0;0;0;1;0;0;0;0;1];
    [1;0;0;0;0;0;0;0;0;0;0;0;0;0;1;0;0;0;0;1];
    [1;0;0;1;1;0;0;0;0;0;0;0;0;0;1;0;0;0;0;1];
    [1;0;0;1;0;0;0;0;0;0;0;0;0;0;1;0;0;0;0;1];
    [1;0;0;0;0;0;0;1;1;0;0;0;0;0;1;0;0;0;0;1];
    [1;0;0;0;0;0;0;1;0;0;0;0;0;0;1;0;0;0;0;1];
    [1;0;0;0;0;0;0;0;0;0;0;0;0;0;1;0;0;0;0;1];
    [1;0;0;0;0;0;0;0;0;0;0;0;0;0;1;0;0;0;0;1];
    [1;0;0;0;0;0;1;0;0;0;0;0;0;0;1;0;0;0;0;1];
    [1;0;0;0;0;1;1;0;0;0;0;0;0;0;1;0;0;0;0;1];
    [1;0;0;0;0;0;0;0;0;0;1;1;0;0;1;0;0;0;0;1];
    [1;0;0;0;0;0;0;0;0;0;1;0;0;0;1;0;0;0;0;1];
    [1;0;0;0;0;0;0;0;0;0;0;0;0;0;1;0;0;0;0;1];
    [1;1;1;1;1;1;1;1;1;1;1;1;1;1;1;1;1;1;1;1] ]%Z.

Definition BLOCKED_WALL_ROWS : list nat := [1; 2; 3; 4; 5; 6; 7; 8; 9; 10; 11; 12; 13]%nat.
Definition BLOCKED_WALL_COL : nat := 14.
Definition REQUIRED_SYMBOLS : list string := ["◆"; "▲"; "●"; "■"; "★"].

Record L3 := mkL3 {
  backtrackTriggered : bool;
  wallDissolved : bool;
  wallMap : list (list Z)
}.

Definition open_wall (wm : list (list Z)) : list (list Z) :=
  foldl (fun m row => alter (fun r => <[BLOCKED_WALL_COL := 0%Z]> r) row m) wm BLOCKED_WALL_ROWS.

Definition code_panel : json :=
  obj [("col", JNum 13); ("row", JNum 7); ("type", JStr "code_panel");
       ("id", JStr "code_panel"); ("color", JStr "#FFD700"); ("glow", JBool true);
       ("glowRadius", JNum 40)].

Definition exit_final : json :=
  obj [("col", JNum 18); ("row", JNum 7); ("type", JStr "exit"); ("id", JStr "exit_final");
       ("color", JStr "#00FF88"); ("glow", JBool true); ("glowRadius", JNum 60)].

(** Before Act 2: no Act 2 item is placed. *)
Definition buildInteractables (st : L3) : M unit :=
  call "renderer.setInteractables"
       [JArr ((if backtrackTriggered st && negb (wallDissolved st) then [code_panel] else [])
              ++ (if wallDissolved st then [exit_final] else []))].

Definition updateFragHud : M unit :=
  s <- getState ;;
  player <- get (Some s) "player" ;;
  cf <- get player "codeFragments" ;;
  let frags := or_else cf (JArr []) in
  forM_ (fun sym => includes frags sym ;; ret tt) REQUIRED_SYMBOLS ;;
  call "fragHud.textContent" [].


(** The [onMove] callback: the backtrack trigger. *)
Definition l3_onMove (col row : nat) (st : L3) : M L3 :=
  if negb (backtrackTriggered st) && (12 <=? col)%nat && (col <=? 13)%nat
  then
    match wallMap st !! row with
    | None => throw (TypeError "Cannot read properties of undefined")
    | Some r =>
        if bool_decide (r !! BLOCKED_WALL_COL = Some 1%Z)
        then
          let st' := mkL3 true (wallDissolved st) (wallMap st) in
          updateTabState (TabNum 3) (obj [("backtrackedTo1", JBool true)]) ;;
          send "BACKTRACK_TRIGGER" (Some (obj [("targetTab", JNum 1)])) (Some (JNum 3)) ;;
          call "narrator.triggerNarrator" [JStr "tab3_block"] ;;
          call "fragHud.style.display" [JStr "block"] ;;
          updateFragHud ;;
          buildInteractables st' ;;
          ret st'
        else ret st
    end
  else ret st.

(** ** Level 4 *)

(** The part of [init] up to the state update. *)
Definition l4_init : M unit :=
  h <- host ;;
  if negb (hasTHREE h)
  then call "console.error" [JStr "[Level 4] Three.js not loaded."]
  else
    call "document.title" [JStr "Emergence"] ;;
    call "favicon.setFavicon" [JStr "circle"] ;;
    updateTabState (TabNum 4) (obj [("state", JStr "visited")]) ;;
    ret tt.

(** ** Every store write that a level performs *)

Inductive level_write :=
| W1_bonusAvailable
| W1_bonusCollected
| W1_codeFragment (symbol : string)
| W1_flashlight
| W1_puzzleSolved
| W1_unlock2
| W1_illuminated
| W1_3d
| W1_mindFragment (id : string)
| W1_mindComplete
| W2_unlock3
| W2_puzzleSolved
| W3_backtracked
| W3_puzzleSolved
| W3_gameComplete
| W3_unlock4
| W4_visited
| W4_fragment (id : string)
| W4_actTwoComplete.

Definition run_write (w : level_write) : M json :=
  match w with
  | W1_bonusAvailable => updateTabState tab1 (obj [("bonusSymbolAvailable", JBool true)])
  | W1_bonusCollected => updateTabState tab1 (obj [("bonusSymbol", JBool true)])
  | W1_codeFragment symbol => setState (add_codeFragment symbol) (Some (JNum 1))
  | W1_flashlight => setState set_hasFlashlight (Some (JNum 1))
  | W1_puzzleSolved => updateTabState tab1 (obj [("puzzleSolved", JBool true)])
  | W1_unlock2 => setState (unlock_tab 2) (Some (JNum 1))
  | W1_illuminated =>
      updateTabState tab1 (obj [("state", JStr "illuminated"); ("floorRevealed", JBool true)])
  | W1_3d => updateTabState tab1 (obj [("state", JStr "3d")])
  | W1_mindFragment id => setState (add_mindFragment id) (Some (JNum 1))
  | W1_mindComplete => updateTabState tab1 (obj [("mindComplete", JBool true)])
  | W2_unlock3 => setState (unlock_tab 3) (Some (JNum 2))
  | W2_puzzleSolved => updateTabState (TabNum 2) (obj [("puzzleSolved", JBool true)])
  | W3_backtracked => updateTabState (TabNum 3) (obj [("backtrackedTo1", JBool true)])
  | W3_puzzleSolved => updateTabState (TabNum 3) (obj [("puzzleSolved", JBool true)])
  | W3_gameComplete => setState (set_meta_flag "gameComplete") (Some (JNum 3))
  | W3_unlock4 => setState (unlock_tab 4) (Some (JNum 3))
  | W4_visited => updateTabState (TabNum 4) (obj [("state", JStr "visited")])
  | W4_fragment id => setState (add_tab4_fragment id) (Some (JNum 4))
  | W4_actTwoComplete => setState (set_meta_flag "actTwoComplete") (Some (JNum 4))
  end.

Local Close Scope string_scope.

(* ===================================================================== *)
(** * 6. Observations used in the statements                              *)
(* ===================================================================== *)

(** The document that the store holds, when it holds one that parses. *)
Definition stored_doc (h : Host) : option json :=
  raw ← localStorage h !! STORAGE_KEY; JSON_parse raw.

(** The host accepts writing document [d] under [STORAGE_KEY]. *)
Definition doc_fits (h : Host) (d : json) : Prop :=
  storage_used (<[STORAGE_KEY := JSON_stringify d]> (localStorage h)) <= quota h.

(** The host after an accepted [setItem] and after an emitted event. *)
Definition h_store (k v : string) (h : Host) : Host :=
  mkHost (<[k := v]> (localStorage h)) (quota h) (hasBroadcastChannel h) (hasTHREE h)
         (entropy h)
         (trace h ++ (if decide (localStorage h !! k = Some v) then [] else [EvStorage k v])).

Definition h_emit (e : event) (h : Host) : Host :=
  mkHost (localStorage h) (quota h) (hasBroadcastChannel h) (hasTHREE h) (entropy h)
         (trace h ++ [e]).

(** The envelope that travels on the bus. *)
Definition envelope (type : string) (fromTab payload : json) : json :=
  obj [("type", JStr type); ("fromTab", fromTab); ("payload", payload)].

(** The host after [_broadcast]. *)
Definition h_broadcast (fromTab : json) (payload : json) (h : Host) : Host :=
  if hasBroadcastChannel h
  then h_emit (EvPost StateChannel
                 (envelope "STATE_CHANGE" fromTab (nullish (Some payload) (obj [])))) h
  else h.

(** A document with the sections that the levels read: [tabs] holds
    records, [player] holds the two fragment arrays, [meta] is a record. *)
Record well_formed (d : json) : Prop := mkWF {
  wf_tabs : exists tabs : gmap string json,
      get_opt (Some d) "tabs" = Some (JObj tabs) /\
      forall t v, tabs !! t = Some v -> exists o, v = JObj o;
  wf_player : exists (p : gmap string json) cf mf,
      get_opt (Some d) "player" = Some (JObj p) /\
      p !! "codeFragments" = Some (JArr cf) /\
      p !! "mindFragments" = Some (JArr mf);
  wf_meta : exists meta : gmap string json, get_opt (Some d) "meta" = Some (JObj meta)
}.

(** [d.tabs[t][k]] *)
Definition tab_field (d : json) (t k : string) : jsval :=
  get_opt (get_opt (get_opt (Some d) "tabs") t) k.

Definition tab_state (d : json) (t : string) : jsval := tab_field d t "state".


(** The append-only collections of the document. *)
Inductive collection :=
| CodeFragments
| MindFragments
| SymbolsFound (tab : string)
| FragmentsCollected
| NarrativeShown.

Definition as_list (v : jsval) : list json :=
  match v with Some (JArr l) => l | _ => [] end.

Definition entries (d : json) (c : collection) : list json :=
  as_list
    match c with
    | CodeFragments => get_opt (get_opt (Some d) "player") "codeFragments"
    | MindFragments => get_opt (get_opt (Some d) "player") "mindFragments"
    | SymbolsFound t => tab_field d t "symbolsFound"
    | FragmentsCollected => tab_field d "4" "fragmentsCollected"
    | NarrativeShown => get_opt (get_opt (Some d) "narrative") "shown"
    end.




(** Callback [f] is attached to the transport that the host offers. *)
Definition registered (bc : bool) (b : Bus) (f : fn_id) : Prop :=
  if bc then mkHandler Primary f ∈ message_listeners b
  else mkHandler Fallback f ∈ storage_listeners b.

(** The text that [lsFallbackPost] writes for an envelope and a nonce. *)
Definition wrapped (env : json) (nonce : number) : string :=
  JSON_stringify (JObj (<["_nonce" := JNumber nonce]> (spread (Some env)))).

Definition next_nonce (h : Host) : number :=
  match entropy h with [] => Int 0 | z :: _ => z end.


Definition backtrack_envelope : json :=
  envelope "BACKTRACK_TRIGGER" (JNum 3) (obj [("targetTab", JNum 1)]).

(** The document that [getState] returns, and the host it leaves. *)
Definition current_doc (h : Host) : json := default defaultState (stored_doc h).

Definition h_init (h : Host) : Host :=
  match stored_doc h with
  | Some _ => h
  | None => h_store STORAGE_KEY (JSON_stringify defaultState) h
  end.

(** ** Concrete hosts and contexts for the examples *)

(** The number 1700000000000.123, a value of [Date.now() + Math.random()]. *)
Definition a_nonce : number := Frac (mkFrac false 170000000000012 N3 3).

Definition fresh_host (bc : bool) : Host :=
  mkHost ∅ 4000 bc true [a_nonce] [].

Definition host_holding (raw : string) (bc : bool) : Host :=
  mkHost {[STORAGE_KEY := raw]} 4000 bc true [a_nonce] [].

(** A host whose storage is exactly full with the default document. *)
Definition tight_host : Host :=
  mkHost {[STORAGE_KEY := JSON_stringify defaultState]}
         (String.length STORAGE_KEY + String.length (JSON_stringify defaultState))
         true true [] [].

(** A context that registered callback [f] on a host with or without
    [BroadcastChannel]. *)
Definition listening (c : nat) (f : fn_id) (bc : bool) : Context :=
  mkContext c (if bc then mkBus {[f := mkHandler Primary f]} [mkHandler Primary f] []
               else mkBus {[f := mkHandler Fallback f]} [] [mkHandler Fallback f]).

(** The host after a run: [getState] sees the same host in either outcome. *)
Definition host_of {A} (r : outcome A) : Host :=
  match r with Ok _ h => h | Throw _ h => h end.

(** The handlers of a bus agree with its [listenerMap] on a host with
    ([bc = true]) or without [BroadcastChannel]. *)
Definition handler_for (bc : bool) (f : fn_id) : handler :=
  mkHandler (if bc then Primary else Fallback) f.

Definition bus_wf (bc : bool) (b : Bus) : Prop :=
  forall f,
    (forall hd, listenerMap b !! f = Some hd -> hd = handler_for bc f) /\
    (is_Some (listenerMap b !! f) <-> registered bc b f).



(** The record that [updateTabState] leaves in [tabs[id]], and the document
    around it. *)
Definition merged (tabs : gmap string json) (id : string) (updates : json) : json :=
  JObj (spread (Some updates) ∪ spread (tabs !! id)).

Definition with_tab (m tabs : gmap string json) (id : string) (updates : json) : json :=
  JObj (<["tabs" := JObj (<[id := merged tabs id updates]> tabs)]> m).

Definition merge_tab (d : json) (id : string) (updates : json) : json :=
  match d with
  | JObj m =>
      match m !! "tabs" with
      | Some (JObj tabs) => with_tab m tabs id updates
      | _ => d
      end
  | _ => d
  end.

Definition bonus_available : json := obj [("bonusSymbolAvailable", JBool true)].

Definition illuminated : json :=
  obj [("state", JStr "illuminated"); ("floorRevealed", JBool true)].

Definition backtracked : json := obj [("backtrackedTo1", JBool true)].

(** A tab-1 context in its first visit, as [init] leaves it on a fresh
    store. *)
Definition first_visit : L1 :=
  mkL1 false false false true true true L1MovePickup L1InteractExit [] 0.

(** What a run returned, if it returned. *)
Definition value_of {A} (r : outcome A) : option A :=
  match r with Ok a _ => Some a | Throw _ _ => None end.



(** A host that holds the default document. *)
Definition default_host : Host := host_holding (JSON_stringify defaultState) true.

(** The own properties of an object. *)
Definition fields (v : jsval) : gmap string json :=
  match v with Some (JObj m) => m | _ => ∅ end.



(** The envelope that level 2 sends at its mid-puzzle lock. *)
Definition midpuzzle_envelope : json :=
  envelope "BACKTRACK_TRIGGER" (JNum 2)
           (obj [("targetTab", JNum 1); ("reason", JStr "midpuzzle")]).

(** ** The invariant of the listener bookkeeping of engine/channel.js *)

(** The listeners attached to the transport in use. *)
Definition attached (bc : bool) (b : Bus) : list handler :=
  if bc then message_listeners b else storage_listeners b.

(** [listenerMap] and the attached listeners describe each other: a
    wrapper is attached exactly when [listenerMap] maps its callback to it,
    no wrapper is attached twice, every wrapper is of the transport in use,
    and nothing is attached to the other transport. *)
Record bus_ok (bc : bool) (b : Bus) : Prop := mkBusOk {
  ok_nodup : NoDup (attached bc b);
  ok_attached : forall hd, hd ∈ attached bc b <-> listenerMap b !! h_cb hd = Some hd;
  ok_wrapper : forall f hd, listenerMap b !! f = Some hd -> hd = handler_for bc f;
  ok_other : attached (negb bc) b = []
}.

(** The bus that [removeListener] leaves for a function [f]. *)
Definition unsubscribed (bc : bool) (f : fn_id) (b : Bus) : Bus :=
  match listenerMap b !! f with
  | None => b
  | Some hd =>
      if bc
      then mkBus (delete f (listenerMap b))
                 (filter (fun x => x <> hd) (message_listeners b)) (storage_listeners b)
      else mkBus (delete f (listenerMap b))
                 (message_listeners b) (filter (fun x => x <> hd) (storage_listeners b))
  end.

(** ** Level 1: the documents that its writes leave *)

(** The document after the floor-symbol updater of level 1. *)
Definition with_codeFragment (sym : string) (d : json) : json :=
  match d with
  | JObj m =>
      match m !! "player" with
      | Some (JObj p) =>
          match p !! "codeFragments" with
          | Some (JArr cf) =>
              if existsb (fun y => is_str (Some y) sym) cf then d
              else JObj (<["player" := JObj (<["codeFragments" := JArr (cf ++ [JStr sym])]> p)]> m)
          | _ => d
          end
      | _ => d
      end
  | _ => d
  end.

(** The symbols that [setupReturnVisit] still shows after an interaction
    with the item [id]. *)
Definition without_item (id : string) (syms : list floor_symbol) : list floor_symbol :=
  match list_find (fun i => fs_id i = id) syms with
  | Some (idx, _) => delete idx syms
  | None => syms
  end.

Definition ready_envelope : json :=
  envelope "BACKTRACK_TRIGGER" (JNum 1) (obj [("targetTab", JNum 3)]).


Definition puzzle_solved : json := obj [("puzzleSolved", JBool true)].
Definition bonus_collected : json := obj [("bonusSymbol", JBool true)].
Definition in_3d : json := obj [("state", JStr "3d")].

Definition found_envelope : json :=
  envelope "NEW_SYMBOL_FOUND" (JNum 1) (obj [("fromTab", JNum 1)]).

Definition completed_envelope (tab : Z) (fromTab : json) : json :=
  envelope "TAB_COMPLETED" fromTab (obj [("completedTab", JNum tab)]).

(** The variables of a tab-1 context after the bonus was collected and
    after the 3D transition. *)
Definition bonus_taken (st : L1) : L1 :=
  mkL1 (entered3D st) (bonusSymbolPlaced st) true
       (firstVisitExitInterval st) (firstVisitKeydownHandler st)
       (firstVisitPromptOverlay st) (l1_onMove st) (l1_onInteract st)
       (symbolInteractables st) (returnVisibleListeners st).

Definition in_3d_mode (st : L1) : L1 :=
  mkL1 true (bonusSymbolPlaced st) (bonusSymbolCollected st)
       (firstVisitExitInterval st) (firstVisitKeydownHandler st)
       (firstVisitPromptOverlay st) (l1_onMove st) (l1_onInteract st)
       (symbolInteractables st) (returnVisibleListeners st).

(** The document after [s.meta.<flag> = true]. *)
Definition with_meta_flag (flag : string) (d : json) : json :=
  match d with
  | JObj m =>
      match m !! "meta" with
      | Some (JObj meta) => JObj (<["meta" := JObj (<[flag := JBool true]> meta)]> m)
      | _ => d
      end
  | _ => d
  end.

(** ** Level 3: the code panel, the dissolve and the exit *)

(** [l.every(p)]: stops at the first element that fails. *)
Fixpoint everyM {A} (p : A -> M bool) (l : list A) : M bool :=
  match l with
  | [] => ret true
  | x :: l' =>
      ok <- p x ;;
      if ok then everyM p l' else ret false
  end.

(** The closure variables of level 3 beside those of [L3]: [playerOnExit],
    the local [gameComplete], and the counter [i] of the dissolve interval
    while it runs. *)
Record L3x := mkL3x {
  l3 : L3;
  playerOnExit : bool;
  gameCompleteLocal : bool;
  dissolveTimer : option nat
}.



Definition dissolveWall (st : L3x) : M L3x :=
  updateTabState (TabNum 3) (obj [("puzzleSolved", JBool true)]) ;;
  call "narrator.triggerNarrator" [JStr "tab3_unlock"] ;;
  ret (mkL3x (mkL3 (backtrackTriggered (l3 st)) true (wallMap (l3 st)))
             (playerOnExit st) (gameCompleteLocal st) (Some 0%nat)).



(** The [onInteract] callback of level 3. *)
Definition l3_onInteract (it : item) (st : L3x) : M L3x :=
  if String.eqb (item_type it) "code_panel" && negb (wallDissolved (l3 st))
  then
    s <- getState ;;
    player <- get (Some s) "player" ;;
    cf <- get player "codeFragments" ;;
    let frags := or_else cf (JArr []) in
    hasAll <- everyM (fun sym => includes frags sym) REQUIRED_SYMBOLS ;;
    if hasAll then dissolveWall st
    else
      call "audio.playErrorTone" [] ;;
      forM_ (fun sym => includes frags sym ;; ret tt) REQUIRED_SYMBOLS ;;
      ret st
  else if String.eqb (item_type it) "exit" && wallDissolved (l3 st)
  then ret (mkL3x (l3 st) true (gameCompleteLocal st) (dissolveTimer st))
  else ret st.

(** The spacebar handler of the final exit. *)
Definition l3_onExitKeydown (key : string) (st : L3x) : M L3x :=
  if String.eqb key " " && playerOnExit st && wallDissolved (l3 st)
     && negb (gameCompleteLocal st)
  then
    call "event.preventDefault" [] ;;
    call "narrator.triggerNarrator" [JStr "tab3_complete"] ;;
    send "TAB_COMPLETED" (Some (obj [("completedTab", JNum 3)])) (Some (JNum 3)) ;;
    setState (set_meta_flag "gameComplete") (Some (JNum 3)) ;;
    call "clearInterval" [JStr "exitCheckInterval"] ;;
    call "window.removeEventListener" [JStr "keydown"] ;;
    call "completionOverlay.style.display" [JStr "flex"] ;;
    ret (mkL3x (l3 st) (playerOnExit st) true (dissolveTimer st))
  else ret st.


Definition l3_start (st : L3) : L3x := mkL3x st false false None.

(** The document in which every required symbol has been collected. *)
Definition all_collected (d : json) : json :=
  foldl (fun d sym => with_codeFragment sym d) d REQUIRED_SYMBOLS.

(* ===================================================================== *)
(** * Auxiliary definitions for the proofs                                *)
(* ===================================================================== *)

Definition warning (ty : string) : list event :=
  if bool_decide (ty ∈ VALID_TYPES) then []
  else [EvWarn (unknown_type_warning ty)].

Definition h_warn (ty : string) (h : Host) : Host :=
  if bool_decide (ty ∈ VALID_TYPES) then h
  else h_emit (EvWarn (unknown_type_warning ty)) h.

Definition h_pop (h : Host) : Host :=
  mkHost (localStorage h) (quota h) (hasBroadcastChannel h) (hasTHREE h)
         (tail (entropy h)) (trace h).


Definition keeps_states (d r : json) : Prop :=
  forall t, tab_state r t = tab_state d t.

(** Whether a literal key is inherited, or is [__proto__], is computed. *)
Ltac js_keys :=
  repeat match goal with
  | |- context [inherited ?k] =>
      let b := eval vm_compute in (inherited k) in
      lazymatch b with
      | true => change (inherited k) with true
      | false => change (inherited k) with false
      end
  | |- context [String.eqb ?k "__proto__"] =>
      let b := eval vm_compute in (String.eqb k "__proto__") in
      lazymatch b with
      | true => change (String.eqb k "__proto__") with true
      | false => change (String.eqb k "__proto__") with false
      end
  end.

Ltac js_step :=
  cbv beta iota delta [bind ret get put not_own includes push throw truthy default from_option
                       Datatypes.id or_else andb
                       add_codeFragment add_mindFragment add_tab4_fragment
                       set_hasFlashlight unlock_tab set_meta_flag].

Ltac js := js_step; js_keys; js_step.



Definition frame (h h' : Host) : Prop :=
  localStorage h' = localStorage h /\ quota h' = quota h /\
  hasBroadcastChannel h' = hasBroadcastChannel h /\ hasTHREE h' = hasTHREE h /\
  exists evs, trace h' = trace h ++ evs.

(** A computation that returns and only extends the trace. *)
Definition logs {A} (c : M A) (h : Host) (a : A) : Prop :=
  exists h', c h = Ok a h' /\ frame h h'.

Definition uncollected (cf : list json) : list floor_symbol :=
  List.filter (fun fs => negb (existsb (fun y => is_str (Some y) (fs_symbol fs)) cf)) FLOOR_SYMBOLS.

Definition returned (st : L1) (syms : list floor_symbol) : L1 :=
  mkL1 (entered3D st) (bonusSymbolPlaced st) (bonusSymbolCollected st)
       (firstVisitExitInterval st) (firstVisitKeydownHandler st)
       (firstVisitPromptOverlay st) L1MoveNone L1InteractSymbols
       syms (returnVisibleListeners st).

Definition placed (st : L1) : L1 :=
  mkL1 (entered3D st) true (bonusSymbolCollected st)
       (firstVisitExitInterval st) (firstVisitKeydownHandler st)
       (firstVisitPromptOverlay st) L1MoveBonus (l1_onInteract st)
       (symbolInteractables st) (returnVisibleListeners st).

Definition written (h h' : Host) (d : json) : Prop :=
  localStorage h' = <[STORAGE_KEY := JSON_stringify d]> (localStorage h) /\
  quota h' = quota h /\ hasBroadcastChannel h' = hasBroadcastChannel h /\
  hasTHREE h' = hasTHREE h /\ exists evs, trace h' = trace h ++ evs.

Definition lit (st : L1) (syms : list floor_symbol) : L1 :=
  mkL1 (entered3D st) (bonusSymbolPlaced st) (bonusSymbolCollected st)
       false false false L1MoveNone L1InteractSymbols syms
       (S (returnVisibleListeners st)).

(** The bus that [onMessage] leaves for a function [f]. *)
Definition subscribed (bc : bool) (f : fn_id) (b : Bus) : Bus :=
  if bool_decide (is_Some (listenerMap b !! f)) then b
  else if bc
       then mkBus (<[f := mkHandler Primary f]> (listenerMap b))
                  (message_listeners b ++ [mkHandler Primary f]) (storage_listeners b)
       else mkBus (<[f := lsFallbackListen f]> (listenerMap b))
                  (message_listeners b) (storage_listeners b ++ [lsFallbackListen f]).


Definition triggered (st : L3) : L3 := mkL3 true (wallDissolved st) (wallMap st).

Definition dissolving (st : L3x) : L3x :=
  mkL3x (mkL3 (backtrackTriggered (l3 st)) true (wallMap (l3 st)))
        (playerOnExit st) (gameCompleteLocal st) (Some 0%nat).




Definition completed (st : L3x) : L3x :=
  mkL3x (l3 st) (playerOnExit st) true (dissolveTimer st).

(* ===================================================================== *)
(** * 7. Theorems                                                         *)
(* ===================================================================== *)

Local Open Scope string_scope.

(* ---------- strings ---------- *)

Lemma sapp_cons c a b : String c a +:+ b = String c (a +:+ b).
Proof. reflexivity. Qed.

Lemma sapp_nil_l b : EmptyString +:+ b = b.
Proof. reflexivity. Qed.

Lemma sapp_assoc a b c : (a +:+ b) +:+ c = a +:+ (b +:+ c).
Proof. induction a as [|x a IH]; [done|]. rewrite !sapp_cons. by rewrite IH. Qed.

Lemma sapp_length a b : String.length (a +:+ b) = String.length a + String.length b.
Proof. induction a as [|x a IH]; [done|]. rewrite sapp_cons. simpl. by rewrite IH. Qed.

Lemma sapp_nil_r a : a +:+ EmptyString = a.
Proof. induction a as [|c a IH]; [done|]. rewrite sapp_cons. by rewrite IH. Qed.

Lemma parse_chars_escape_char c s :
  parse_chars (escape_char c +:+ s) = cons_char c <$> parse_chars s.
Proof.
  destruct c as [[] [] [] [] [] [] [] []]; reflexivity.
Qed.

Lemma parse_chars_escape s rest :
  parse_chars (escape s +:+ String DQ rest) = Some (s, rest).
Proof.
  induction s as [|c s IH]; [done|].
  cbn [escape]. rewrite sapp_assoc, parse_chars_escape_char, IH. done.
Qed.

Lemma parse_value_S f s :
  parse_value (S f) s =
      match skip_ws s with
      | EmptyString => None
      | String c s1 =>
          let n := code c in
          if (n =? 110)%N then s2 ← expect "ull" s1; Some (TNull, s2)
          else if (n =? 116)%N then s2 ← expect "rue" s1; Some (TBool true, s2)
          else if (n =? 102)%N then s2 ← expect "alse" s1; Some (TBool false, s2)
          else if (n =? 34)%N then '(x, s2) ← parse_chars s1; Some (TStr x, s2)
          else if (n =? 91)%N then
            match skip_ws s1 with
            | EmptyString => None
            | String c2 s2 =>
                if (code c2 =? 93)%N then Some (TArr [], s2)
                else
                  '(v, s3) ← parse_value f s1;
                  '(vs, s4) ← parse_arr_tail f s3;
                  Some (TArr (v :: vs), s4)
            end
          else if (n =? 123)%N then
            match skip_ws s1 with
            | EmptyString => None
            | String c2 s2 =>
                if (code c2 =? 125)%N then Some (TObj [], s2)
                else
                  '(k, s3) ← parse_key s1;
                  '(v, s4) ← parse_value f s3;
                  '(kvs, s5) ← parse_obj_tail f s4;
                  Some (TObj ((k, v) :: kvs), s5)
            end
          else if (n =? 45)%N || is_digit c then parse_number (String c s1)
          else None
      end.
Proof. reflexivity. Qed.

Lemma parse_arr_tail_S f s :
  parse_arr_tail (S f) s =
      match skip_ws s with
      | EmptyString => None
      | String c s1 =>
          if (code c =? 93)%N then Some ([], s1)
          else if (code c =? 44)%N then
            '(v, s2) ← parse_value f s1;
            '(vs, s3) ← parse_arr_tail f s2;
            Some (v :: vs, s3)
          else None
      end.
Proof. reflexivity. Qed.

Lemma parse_obj_tail_S f s :
  parse_obj_tail (S f) s =
      match skip_ws s with
      | EmptyString => None
      | String c s1 =>
          if (code c =? 125)%N then Some ([], s1)
          else if (code c =? 44)%N then
            '(k, s2) ← parse_key s1;
            '(v, s3) ← parse_value f s2;
            '(kvs, s4) ← parse_obj_tail f s3;
            Some ((k, v) :: kvs, s4)
          else None
      end.
Proof. reflexivity. Qed.

(* ---------- numbers ---------- *)

Lemma all_digits_uint d : all_digits (NilEmpty.string_of_uint d).
Proof. induction d; simpl; auto. Qed.

Lemma all_digits_app a b : all_digits a -> all_digits b -> all_digits (a +:+ b).
Proof. induction a as [|c a IH]; [done|]. intros [Hc Ha] Hb. rewrite sapp_cons. split; auto. Qed.

Lemma all_digits_stake n s : all_digits s -> all_digits (stake n s).
Proof. revert s. induction n as [|n IH]; intros [|c s]; try done. intros [Hc Hs]. split; auto. Qed.

Lemma all_digits_sdrop n s : all_digits s -> all_digits (sdrop n s).
Proof. revert s. induction n as [|n IH]; intros [|c s]; try done. intros [Hc Hs]. simpl. auto. Qed.

Lemma all_digits_zeros n : all_digits (zeros n).
Proof. induction n; simpl; auto. Qed.

Lemma stake_sdrop n s : stake n s +:+ sdrop n s = s.
Proof.
  revert s. induction n as [|n IH]; intros [|c s]; try done.
  cbn [stake sdrop]. rewrite sapp_cons. f_equal. apply IH.
Qed.

Lemma length_stake n s : n <= String.length s -> String.length (stake n s) = n.
Proof.
  revert s. induction n as [|n IH]; intros [|c s]; simpl; try lia.
  intros H. rewrite IH; lia.
Qed.

Lemma length_sdrop n s : String.length (sdrop n s) = String.length s - n.
Proof. revert s. induction n as [|n IH]; intros [|c s]; simpl; try lia. apply IH. Qed.

Lemma length_zeros n : String.length (zeros n) = n.
Proof. induction n; simpl; congruence. Qed.

Lemma span_digits_app a rest :
  all_digits a -> no_digit_head rest -> span_digits (a +:+ rest) = (a, rest).
Proof.
  intros Ha Hr. induction a as [|c a IH].
  - rewrite sapp_nil_l. destruct rest as [|c r]; [reflexivity|]. simpl in *. by rewrite Hr.
  - destruct Ha as [Hc Ha]. rewrite sapp_cons. simpl. rewrite Hc, (IH Ha). done.
Qed.

Lemma follow_no_digit rest : follow_ok rest -> no_digit_head rest.
Proof.
  destruct rest as [|c r]; [done|]. simpl. unfold is_num_char.
  destruct (is_digit c); [discriminate|done].
Qed.

Lemma print_N_pos p : print_N (N.pos p) = print_pos p.
Proof.
  unfold print_N, print_pos, NilZero.string_of_uint. simpl.
  pose proof (Unsigned.to_uint_nonnil p). by destruct (Pos.to_uint p).
Qed.

Lemma print_small_pos p : print_small (Z.pos p) = print_pos p.
Proof.
  unfold print_small, print_pos, NilZero.string_of_int, NilZero.string_of_uint. simpl.
  pose proof (Unsigned.to_uint_nonnil p). by destruct (Pos.to_uint p).
Qed.

Lemma print_small_neg p : print_small (Z.neg p) = String "-" (print_pos p).
Proof.
  unfold print_small, print_pos, NilZero.string_of_int, NilZero.string_of_uint. simpl.
  pose proof (Unsigned.to_uint_nonnil p). by destruct (Pos.to_uint p).
Qed.

Lemma all_digits_print_pos p : all_digits (print_pos p).
Proof. apply all_digits_uint. Qed.

Lemma all_digits_print_N n : all_digits (print_N n).
Proof. destruct n; [by cbv|]. rewrite print_N_pos. apply all_digits_print_pos. Qed.

Lemma N_of_digits_uint d : N_of_digits (NilEmpty.string_of_uint d) = N.of_uint d.
Proof. unfold N_of_digits. by rewrite NilEmpty.usu. Qed.

Lemma N_of_digits_print_pos p : N_of_digits (print_pos p) = N.pos p.
Proof. unfold print_pos. rewrite N_of_digits_uint. apply Unsigned.of_to. Qed.

Lemma N_of_digits_print_N n : N_of_digits (print_N n) = n.
Proof. destruct n; [reflexivity|]. rewrite print_N_pos. apply N_of_digits_print_pos. Qed.

Lemma N_of_digits_zero s : N_of_digits (String "0" s) = N_of_digits s.
Proof.
  unfold N_of_digits. cbn [NilEmpty.uint_of_string].
  destruct (NilEmpty.uint_of_string s); reflexivity.
Qed.

Lemma N_of_digits_zeros n s : N_of_digits (zeros n +:+ s) = N_of_digits s.
Proof. induction n as [|n IH]; [done|]. cbn [zeros]. by rewrite sapp_cons, N_of_digits_zero. Qed.

(** A positive number is printed without a leading zero. *)
Lemma to_uint_head p : forall d, Pos.to_uint p <> Decimal.D0 d.
Proof.
  intros d Hd.
  assert (Decimal.unorm (Pos.to_uint p) = Pos.to_uint p) as Hn.
  { rewrite <- (DecimalN.Unsigned.to_of (Pos.to_uint p)).
    unfold N.of_uint. by rewrite Unsigned.of_to. }
  rewrite Hd in Hn. rewrite unorm_D0 in Hn.
  assert (d = Decimal.Nil \/ d <> Decimal.Nil) as [->|Hne]
    by (destruct d; [by left|right; discriminate..]).
  - by apply (Unsigned.to_uint_nonzero p).
  - pose proof (nb_digits_unorm d Hne) as Hl. rewrite Hn in Hl. simpl in Hl. lia.
Qed.

Lemma print_pos_head p :
  exists c s, print_pos p = String c s /\ is_digit c = true /\ (code c =? 48)%N = false.
Proof.
  unfold print_pos. pose proof (to_uint_head p) as Hh.
  pose proof (Unsigned.to_uint_nonnil p) as Hn.
  destruct (Pos.to_uint p) as [|d|d|d|d|d|d|d|d|d|d]; [done|by destruct (Hh d)|..];
    simpl; eexists _, _; (split; [reflexivity|split; reflexivity]).
Qed.

Lemma follow_head rest :
  follow_ok rest ->
  match rest with
  | EmptyString => True
  | String c _ => is_digit c = false /\ (code c =? 46)%N = false /\
                  (code c =? 101)%N = false /\ (code c =? 69)%N = false
  end.
Proof.
  destruct rest as [|c r]; [done|]. simpl. unfold is_num_char.
  destruct (is_digit c); [discriminate|].
  destruct (code c =? 45)%N, (code c =? 43)%N, (code c =? 46)%N, (code c =? 101)%N,
    (code c =? 69)%N; try discriminate. done.
Qed.

Lemma parse_fraction_none rest : follow_ok rest -> parse_fraction rest = Some (EmptyString, rest).
Proof.
  intros H%follow_head. destruct rest as [|c r]; [done|].
  destruct H as (_ & H & _). unfold parse_fraction. by rewrite H.
Qed.

Lemma parse_exponent_none rest : follow_ok rest -> parse_exponent rest = Some (0%Z, rest).
Proof.
  intros H%follow_head. destruct rest as [|c r]; [done|].
  destruct H as (_ & _ & H1 & H2). unfold parse_exponent. by rewrite H1, H2.
Qed.

Lemma parse_fraction_some fr rest :
  all_digits fr -> fr <> EmptyString -> no_digit_head rest ->
  parse_fraction (String "." (fr +:+ rest)) = Some (fr, rest).
Proof.
  intros Hd Hne Hr. unfold parse_fraction.
  change (code "." =? 46)%N with true. cbv iota.
  rewrite (span_digits_app fr rest Hd Hr). by destruct fr.
Qed.

Lemma print_N_nonempty m : print_N m <> EmptyString.
Proof.
  destruct m as [|p]; [by cbv|]. rewrite print_N_pos.
  destruct (print_pos_head p) as (c & s & -> & _). done.
Qed.

Lemma print_N_head m :
  exists c s, print_N m = String c s /\ is_digit c = true.
Proof.
  destruct m as [|p]; [by eexists _, _|]. rewrite print_N_pos.
  destruct (print_pos_head p) as (c & s & -> & Hc & _). by eexists _, _.
Qed.

Lemma digit_not_sign c :
  is_digit c = true -> (code c =? 45)%N = false /\ (code c =? 43)%N = false.
Proof.
  unfold is_digit. cbv zeta. intros [H1 H2]%andb_prop.
  apply N.leb_le in H1, H2. split; apply N.eqb_neq; lia.
Qed.

Lemma parse_exponent_some (neg : bool) m rest :
  no_digit_head rest ->
  parse_exponent (String "e" ((if neg then "-" else "+") +:+ print_N m +:+ rest))
  = Some (signed neg m, rest).
Proof.
  intros Hr. unfold parse_exponent.
  change (code "e" =? 101)%N with true. cbn [orb].
  assert (span_digits (print_N m +:+ rest) = (print_N m, rest)) as Hs
    by (apply span_digits_app; [apply all_digits_print_N|done]).
  pose proof (print_N_nonempty m) as Hne.
  destruct neg; rewrite sapp_cons, sapp_nil_l.
  - change (code "-" =? 45)%N with true. cbv iota. rewrite Hs.
    destruct (print_N m) eqn:E; [done|]. by rewrite <- E, N_of_digits_print_N.
  - change (code "+" =? 45)%N with false. change (code "+" =? 43)%N with true. cbv iota.
    rewrite Hs. destruct (print_N m) eqn:E; [done|]. by rewrite <- E, N_of_digits_print_N.
Qed.

(** The parser on a literal given by its parts. *)
Lemma parse_number_parts (neg : bool) c0 i' s2 fr s3 x s4 :
  all_digits (String c0 i') ->
  ((code c0 =? 48)%N = false \/ i' = EmptyString) ->
  no_digit_head s2 ->
  parse_fraction s2 = Some (fr, s3) ->
  parse_exponent s3 = Some (x, s4) ->
  parse_number ((if neg then "-" else EmptyString) +:+ String c0 i' +:+ s2)
  = Some (number_of (String.length (String c0 i' +:+ fr)) neg
                    (N_of_digits (String c0 i' +:+ fr))
                    (x - Z.of_nat (String.length fr)), s4).
Proof.
  intros Hd Hz Hr Hf He.
  pose proof (span_digits_app _ _ Hd Hr) as Hs.
  assert ((code c0 =? 48)%N && negb (String.eqb i' EmptyString) = false) as Hlead.
  { destruct Hz as [->| ->]; [done|]. by rewrite andb_false_r. }
  destruct Hd as [Hc0 _]. destruct (digit_not_sign c0 Hc0) as [Hm _].
  unfold parse_number. destruct neg.
  - rewrite sapp_cons, sapp_nil_l. change (code "-" =? 45)%N with true. cbv iota.
    rewrite Hs, Hlead, Hf. cbn. rewrite He. reflexivity.
  - rewrite sapp_nil_l, sapp_cons. rewrite Hm. rewrite <- sapp_cons, Hs, Hlead, Hf. cbn.
    rewrite He. reflexivity.
Qed.

Lemma signed_pos (neg : bool) p :
  signed neg (N.pos p) = if neg then Z.neg p else Z.pos p.
Proof. by destruct neg. Qed.

Lemma number_of_int len (neg : bool) p :
  number_of len neg (N.pos p) 0 = TNum (if neg then Z.neg p else Z.pos p).
Proof.
  unfold number_of. cbn [N.eqb Z.leb Z.compare]. f_equal.
  rewrite signed_pos. cbn [Z.pow]. destruct neg; lia.
Qed.

Lemma parse_number_print_small n rest :
  follow_ok rest -> parse_number (print_small n +:+ rest) = Some (TNum n, rest).
Proof.
  intros Hr.
  pose proof (parse_fraction_none rest Hr) as Hf.
  pose proof (parse_exponent_none rest Hr) as He.
  pose proof (follow_no_digit rest Hr) as Hnd.
  destruct n as [|p|p].
  - etrans; [exact (parse_number_parts false "0" EmptyString rest EmptyString rest 0%Z rest
                      (conj eq_refl I) (or_intror eq_refl) Hnd Hf He)|].
    reflexivity.
  - rewrite print_small_pos.
    pose proof (all_digits_print_pos p) as Hd.
    pose proof (N_of_digits_print_pos p) as Hv.
    destruct (print_pos_head p) as (c & s & E & _ & Hc). rewrite E in *.
    etrans; [exact (parse_number_parts false c s rest EmptyString rest 0%Z rest
                      Hd (or_introl Hc) Hnd Hf He)|].
    change (0 - Z.of_nat (String.length EmptyString))%Z with 0%Z.
    by rewrite sapp_nil_r, Hv, number_of_int.
  - rewrite print_small_neg.
    pose proof (all_digits_print_pos p) as Hd.
    pose proof (N_of_digits_print_pos p) as Hv.
    destruct (print_pos_head p) as (c & s & E & _ & Hc). rewrite E in *.
    etrans; [exact (parse_number_parts true c s rest EmptyString rest 0%Z rest
                      Hd (or_introl Hc) Hnd Hf He)|].
    change (0 - Z.of_nat (String.length EmptyString))%Z with 0%Z.
    by rewrite sapp_nil_r, Hv, number_of_int.
Qed.

Lemma strip_zeros_value fuel n :
  (fst (strip_zeros fuel n) * 10 ^ N.of_nat (snd (strip_zeros fuel n)) = n)%N /\
  (n <> 0%N -> fst (strip_zeros fuel n) <> 0%N).
Proof.
  revert n. induction fuel as [|f IH]; intros n; cbn [strip_zeros].
  - cbn. split; [lia|done].
  - destruct (N.eqb_spec n 0) as [->|Hn]; cbn [orb]; [cbn; split; [lia|done]|].
    destruct (N.eqb_spec (n mod 10) 0) as [Hm|Hm]; cbn [negb]; [|cbn; split; [lia|done]].
    specialize (IH (n / 10)%N). destruct (strip_zeros f (n / 10)) as [m z]. cbn [fst snd] in *.
    destruct IH as [IH1 IH2]. split.
    + rewrite Nat2N.inj_succ, N.pow_succ_r by lia.
      pose proof (N.div_mod n 10 ltac:(lia)) as Hdm. rewrite Hm in Hdm. lia.
    + intros _. apply IH2. intros H0.
      pose proof (N.div_mod n 10 ltac:(lia)) as Hdm. lia.
Qed.

Lemma parse_number_print_large n rest :
  n <> 0%Z -> follow_ok rest ->
  parse_number (print_large n +:+ rest) = Some (TNum n, rest).
Proof.
  intros Hn Hr. pose proof (follow_no_digit rest Hr) as Hnd.
  unfold print_large.
  pose proof (strip_zeros_value (String.length (print_N (Z.abs_N n))) (Z.abs_N n)) as [Hval Hnz].
  destruct (strip_zeros _ (Z.abs_N n)) as [m z]. cbn [fst snd] in *.
  destruct m as [|q]; [exfalso; apply Hnz; [lia|done]|]. clear Hnz.
  rewrite print_N_pos.
  pose proof (all_digits_print_pos q) as Hd.
  pose proof (N_of_digits_print_pos q) as Hv.
  destruct (print_pos_head q) as (c & s & E & Hc & Hc0). rewrite E in *.
  replace (String.length (String c s) - 1 + z) with (String.length s + z)
    by (cbn [String.length]; lia).
  cbn [stake sdrop].
  set (neg := (n <? 0)%Z).
  set (X := N.of_nat (String.length s + z)).
  pose proof (parse_exponent_some false X rest Hnd) as Hex.
  change (String "e" ((if false then "-" else "+") +:+ print_N X +:+ rest))
    with ("e+" +:+ print_N X +:+ rest) in Hex.
  set (tl := "e+" +:+ print_N X +:+ rest) in *.
  assert (number_of (String.length (String c s)) neg (N.pos q)
                    (signed false X - Z.of_nat (String.length s)) = TNum n) as Hnum.
  { unfold number_of. cbn [N.eqb].
    replace (signed false X - Z.of_nat (String.length s))%Z with (Z.of_nat z)
      by (unfold signed, X; lia).
    destruct (Z.leb_spec 0 (Z.of_nat z)); [|lia]. f_equal.
    assert (Z.of_N (N.pos q) * 10 ^ Z.of_nat z = Z.abs n)%Z as Habs.
    { apply (f_equal Z.of_N) in Hval.
      rewrite N2Z.inj_mul, N2Z.inj_pow, nat_N_Z, N2Z.inj_abs_N in Hval. exact Hval. }
    unfold neg, signed. destruct (Z.ltb_spec n 0); lia. }
  rewrite !sapp_assoc. fold tl.
  destruct s as [|c2 s].
  - rewrite sapp_nil_l.
    etrans; [exact (parse_number_parts neg c EmptyString tl EmptyString tl _ rest
                      Hd (or_introl Hc0) eq_refl eq_refl Hex)|].
    f_equal. f_equal. rewrite sapp_nil_r, Hv. exact Hnum.
  - change (String "." (String c2 s) +:+ tl) with (String "." (String c2 s +:+ tl)).
    destruct Hd as [Hdc Hds].
    pose proof (parse_fraction_some (String c2 s) tl Hds ltac:(done) eq_refl) as Hfr.
    etrans; [exact (parse_number_parts neg c EmptyString
                      (String "." (String c2 s +:+ tl)) (String c2 s) tl _ rest
                      (conj Hdc I) (or_introl Hc0) eq_refl Hfr Hex)|].
    f_equal. f_equal.
    change (String c EmptyString +:+ String c2 s) with (String c (String c2 s)).
    rewrite Hv. exact Hnum.
Qed.

Lemma parse_number_print_Z n rest :
  follow_ok rest -> parse_number (print_Z n +:+ rest) = Some (TNum n, rest).
Proof.
  intros Hr. unfold print_Z. destruct (Z.ltb_spec (Z.abs n) (10 ^ 21)).
  - by apply parse_number_print_small.
  - apply parse_number_print_large; [lia|done].
Qed.

Lemma nz_of_val d : nz_of (nz_val d) = Some d.
Proof. by destruct d. Qed.

Lemma nz_val_range d : (1 <= nz_val d <= 9)%N.
Proof. destruct d; simpl; lia. Qed.

Lemma f_digits_mod x : (f_digits x mod 10 = nz_val (f_last x))%N.
Proof.
  unfold f_digits. pose proof (nz_val_range (f_last x)).
  rewrite N.add_comm, N.mul_comm, N.Div0.mod_add. apply N.mod_small. lia.
Qed.

Lemma f_digits_div x : (f_digits x / 10 = f_quot x)%N.
Proof.
  unfold f_digits. pose proof (nz_val_range (f_last x)).
  rewrite N.add_comm, N.mul_comm, N.div_add by lia. rewrite N.div_small by lia. lia.
Qed.

Lemma f_digits_pos x : exists p, f_digits x = N.pos p.
Proof.
  unfold f_digits. pose proof (nz_val_range (f_last x)).
  destruct (10 * f_quot x + nz_val (f_last x))%N as [|p] eqn:E; [lia|]. by exists p.
Qed.

Lemma number_of_fraction len x :
  number_of len (f_neg x) (f_digits x) (- Z.pos (f_exp x)) = TFrac x.
Proof.
  unfold number_of. destruct (f_digits_pos x) as [p Hp]. rewrite Hp. cbn [N.eqb].
  change (0 <=? - Z.pos (f_exp x))%Z with false. cbv iota.
  rewrite <- Hp. change (- - Z.pos (f_exp x))%Z with (Z.pos (f_exp x)). cbn [Z.to_pos].
  destruct len; cbn [scale]; rewrite f_digits_mod, nz_of_val, f_digits_div; by destruct x.
Qed.

Lemma no_digit_head_e s : no_digit_head (String "e" s).
Proof. reflexivity. Qed.

Lemma parse_number_print_frac x rest :
  follow_ok rest -> parse_number (print_frac x +:+ rest) = Some (TFrac x, rest).
Proof.
  intros Hr.
  pose proof (parse_fraction_none rest Hr) as Hf.
  pose proof (parse_exponent_none rest Hr) as He.
  pose proof (follow_no_digit rest Hr) as Hnd.
  destruct (f_digits_pos x) as [p Hp].
  unfold print_frac. rewrite Hp, print_N_pos.
  pose proof (all_digits_print_pos p) as Hd.
  pose proof (N_of_digits_print_pos p) as Hv.
  destruct (print_pos_head p) as (c & s & E & Hc & Hc0).
  set (ds := print_pos p) in *.
  set (k := Z.of_nat (String.length ds)).
  set (n := (k - Z.pos (f_exp x))%Z).
  cbv zeta.
  assert (forall fr, String.length fr = Pos.to_nat (f_exp x) ->
            number_of (String.length (ds +:+ EmptyString)) (f_neg x) (N_of_digits ds)
                      (0 - Z.of_nat (String.length fr)) = TFrac x) as Hval.
  { intros fr Hl. rewrite Hv, <- Hp, Hl.
    replace (0 - Z.of_nat (Pos.to_nat (f_exp x)))%Z with (- Z.pos (f_exp x))%Z by lia.
    apply number_of_fraction. }
  rewrite sapp_assoc.
  destruct ((0 <? n)%Z && (n <=? 21)%Z) eqn:HA.
  - (* plain notation, digits on both sides of the point *)
    apply andb_prop in HA as [HA1%Z.ltb_lt HA2%Z.leb_le].
    set (n' := Z.to_nat n).
    assert (1 <= n' /\ n' + Pos.to_nat (f_exp x) = String.length ds) as [Hn1 Hn2]
      by (unfold n', n, k in *; lia).
    assert (stake n' ds = String c (stake (n' - 1) s)) as Hi.
    { rewrite E. destruct n' as [|m]; [lia|]. cbn [stake]. do 2 f_equal. lia. }
    assert (all_digits (String c (stake (n' - 1) s))) as Hdi
      by (rewrite <- Hi; by apply all_digits_stake).
    assert (String.length (sdrop n' ds) = Pos.to_nat (f_exp x)) as Hlen
      by (rewrite length_sdrop; lia).
    assert (sdrop n' ds <> EmptyString) as Hne.
    { intros H0. rewrite H0 in Hlen. simpl in Hlen. lia. }
    pose proof (parse_fraction_some (sdrop n' ds) rest (all_digits_sdrop _ _ Hd) Hne Hnd) as Hfr.
    rewrite !sapp_assoc, Hi.
    etrans; [exact (parse_number_parts (f_neg x) c (stake (n' - 1) s)
                      (String "." (sdrop n' ds +:+ rest)) (sdrop n' ds) rest 0%Z rest
                      Hdi (or_introl Hc0) eq_refl Hfr He)|].
    rewrite <- Hi, stake_sdrop. f_equal. f_equal.
    rewrite <- (Hval _ Hlen). by rewrite sapp_nil_r.
  - destruct ((-6 <? n)%Z && (n <=? 0)%Z) eqn:HB.
    + (* plain notation, zeros after the point *)
      apply andb_prop in HB as [HB1%Z.ltb_lt HB2%Z.leb_le].
      set (z := Z.to_nat (- n)).
      assert (String.length (zeros z +:+ ds) = Pos.to_nat (f_exp x)) as Hlen.
      { rewrite sapp_length, length_zeros. unfold z, n, k in *. lia. }
      assert (zeros z +:+ ds <> EmptyString) as Hne.
      { intros H0. rewrite H0 in Hlen. simpl in Hlen. lia. }
      pose proof (parse_fraction_some (zeros z +:+ ds) rest
                    (all_digits_app _ _ (all_digits_zeros z) Hd) Hne Hnd) as Hfr.
      change ("0." +:+ zeros z +:+ ds) with (String "0" (String "." (zeros z +:+ ds))).
      etrans; [exact (parse_number_parts (f_neg x) "0" EmptyString
                        (String "." ((zeros z +:+ ds) +:+ rest)) (zeros z +:+ ds) rest 0%Z rest
                        (conj eq_refl I) (or_intror eq_refl) eq_refl Hfr He)|].
      f_equal. f_equal. rewrite <- (Hval _ Hlen).
      change (String "0" EmptyString +:+ (zeros z +:+ ds)) with (String "0" (zeros z +:+ ds)).
      rewrite N_of_digits_zero, N_of_digits_zeros.
      unfold number_of. destruct (N_of_digits ds =? 0)%N; [done|].
      destruct (0 <=? 0 - Z.of_nat (String.length (zeros z +:+ ds)))%Z; [done|].
      rewrite Hlen.
      replace (- (0 - Z.of_nat (Pos.to_nat (f_exp x))))%Z with (Z.pos (f_exp x)) by lia.
      cbn [Z.to_pos]. rewrite Hv, <- Hp.
      destruct (String.length (String "0" (zeros z +:+ ds))), (String.length (ds +:+ EmptyString));
        cbn [scale]; by rewrite f_digits_mod, nz_of_val.
    + (* exponent notation *)
      set (x1 := (n - 1)%Z).
      set (eneg := negb (0 <=? x1)%Z).
      assert ((if (0 <=? x1)%Z then "+" else "-") = (if eneg then "-" else "+")) as ->
        by (unfold eneg; by destruct (0 <=? x1)%Z).
      assert (signed eneg (Z.abs_N x1) = x1) as Hx.
      { unfold eneg, signed. destruct (Z.leb_spec 0 x1); cbn [negb]; lia. }
      pose proof (parse_exponent_some eneg (Z.abs_N x1) rest Hnd) as Hex. rewrite Hx in Hex.
      rewrite E. cbn [stake sdrop]. rewrite !sapp_assoc.
      change ("e" +:+ (if eneg then "-" else "+") +:+ print_N (Z.abs_N x1) +:+ rest)
        with (String "e" ((if eneg then "-" else "+") +:+ print_N (Z.abs_N x1) +:+ rest)).
      set (tl := String "e" ((if eneg then "-" else "+") +:+ print_N (Z.abs_N x1) +:+ rest)) in *.
      assert (Z.of_nat (String.length s) = k - 1)%Z as Hks
        by (unfold k; rewrite E; cbn [String.length]; lia).
      pose proof Hd as Hd'. rewrite E in Hd'.
      destruct s as [|c2 s].
      * rewrite sapp_nil_l.
        etrans; [exact (parse_number_parts (f_neg x) c EmptyString tl EmptyString tl x1 rest
                          Hd' (or_introl Hc0) eq_refl eq_refl Hex)|].
        f_equal. f_equal. rewrite <- E.
        rewrite sapp_nil_r, Hv, <- Hp.
        replace (x1 - Z.of_nat (String.length EmptyString))%Z with (- Z.pos (f_exp x))%Z
          by (unfold x1, n; cbn [String.length] in *; lia).
        apply number_of_fraction.
      * change (String "." (String c2 s) +:+ tl) with (String "." (String c2 s +:+ tl)).
        destruct Hd' as [Hdc Hds].
        pose proof (parse_fraction_some (String c2 s) tl Hds ltac:(done) eq_refl) as Hfr.
        etrans; [exact (parse_number_parts (f_neg x) c EmptyString
                          (String "." (String c2 s +:+ tl)) (String c2 s) tl x1 rest
                          (conj Hdc I) (or_introl Hc0) eq_refl Hfr Hex)|].
        f_equal. f_equal.
        change (String c EmptyString +:+ String c2 s) with (String c (String c2 s)).
        rewrite <- E, Hv, <- Hp.
        replace (x1 - Z.of_nat (String.length (String c2 s)))%Z with (- Z.pos (f_exp x))%Z
          by (unfold x1, n; lia).
        apply number_of_fraction.
Qed.

Lemma num_char_dispatch c :
  (code c =? 45)%N || is_digit c = true ->
  is_ws c = false /\
  (code c =? 110)%N = false /\ (code c =? 116)%N = false /\
  (code c =? 102)%N = false /\ (code c =? 34)%N = false /\
  (code c =? 91)%N = false /\ (code c =? 123)%N = false /\
  (code c =? 93)%N = false /\ (code c =? 125)%N = false.
Proof.
  destruct c as [[] [] [] [] [] [] [] []]; try discriminate; intros _; repeat split; reflexivity.
Qed.

(** A printed number starts with a minus or a digit. *)
Lemma print_Z_head n :
  exists c s, print_Z n = String c s /\ (code c =? 45)%N || is_digit c = true.
Proof.
  unfold print_Z. destruct (Z.abs n <? 10 ^ 21)%Z.
  - destruct n as [|p|p].
    + by eexists _, _.
    + rewrite print_small_pos. destruct (print_pos_head p) as (c & s & -> & Hc & _).
      eexists _, _. split; [done|]. by rewrite Hc, orb_true_r.
    + rewrite print_small_neg. by eexists _, _.
  - unfold print_large. destruct (strip_zeros _ _) as [m z].
    destruct (n <? 0)%Z; [by eexists _, _|]. rewrite sapp_nil_l.
    destruct (print_N_head m) as (c & s & -> & Hc).
    cbn [stake]. rewrite sapp_cons. eexists _, _. split; [done|]. by rewrite Hc, orb_true_r.
Qed.

Lemma print_frac_head x :
  exists c s, print_frac x = String c s /\ (code c =? 45)%N || is_digit c = true.
Proof.
  unfold print_frac. destruct (f_neg x); [by eexists _, _|]. rewrite sapp_nil_l.
  destruct (print_N_head (f_digits x)) as (c & s & -> & Hc).
  assert ((code c =? 45)%N || is_digit c = true) as Hc' by (by rewrite Hc, orb_true_r).
  set (n := (_ - _)%Z). cbv zeta.
  destruct ((0 <? n)%Z && (n <=? 21)%Z) eqn:HA.
  - apply andb_prop in HA as [HA1%Z.ltb_lt _].
    destruct (Z.to_nat n) as [|m] eqn:Hm; [lia|]. cbn [stake]. rewrite sapp_cons.
    by eexists _, _.
  - destruct ((-6 <? n)%Z && (n <=? 0)%Z); [by eexists _, _|].
    cbn [stake]. rewrite sapp_cons. by eexists _, _.
Qed.

Lemma skip_ws_id s : starts_value s -> skip_ws s = s.
Proof. destruct s as [|c s]; [done|]. intros (H & _). simpl. by rewrite H. Qed.

Lemma parse_value_number f (txt : string) t rest :
  (exists c s, txt = String c s /\ (code c =? 45)%N || is_digit c = true) ->
  parse_number (txt +:+ rest) = Some (t, rest) ->
  parse_value (S f) (txt +:+ rest) = Some (t, rest).
Proof.
  intros (c & s & -> & Hc) Hp.
  destruct (num_char_dispatch c Hc) as (Hw & H1 & H2 & H3 & H4 & H5 & H6 & _).
  rewrite sapp_cons in *.
  rewrite parse_value_S; cbn [skip_ws]. rewrite Hw. cbv zeta.
  by rewrite H1, H2, H3, H4, H5, H6, Hc.
Qed.

Lemma parse_value_num f n rest :
  follow_ok rest -> parse_value (S f) (print_Z n +:+ rest) = Some (TNum n, rest).
Proof.
  intros Hr. apply parse_value_number; [apply print_Z_head|by apply parse_number_print_Z].
Qed.

Lemma parse_value_frac f x rest :
  follow_ok rest -> parse_value (S f) (print_frac x +:+ rest) = Some (TFrac x, rest).
Proof.
  intros Hr. apply parse_value_number; [apply print_frac_head|by apply parse_number_print_frac].
Qed.

Lemma starts_value_number (txt : string) rest :
  (exists c s, txt = String c s /\ (code c =? 45)%N || is_digit c = true) ->
  starts_value (txt +:+ rest).
Proof.
  intros (c & s & -> & Hc).
  destruct (num_char_dispatch c Hc) as (Hw & _ & _ & _ & _ & _ & _ & H7 & H8).
  rewrite sapp_cons. simpl. auto.
Qed.

Lemma starts_value_print t rest : starts_value (print_tree t +:+ rest).
Proof.
  destruct t as [|[]|n|x|s|[|y l]|[|kv m]];
    [by cbv|by cbv|by cbv| | |by cbv|by cbv|by cbv|by cbv|by cbv].
  - apply starts_value_number, print_Z_head.
  - apply starts_value_number, print_frac_head.
Qed.

(* ---------- trees ---------- *)

Lemma jtree_ind' (P : jtree -> Prop) :
  P TNull -> (forall b, P (TBool b)) -> (forall n, P (TNum n)) -> (forall x, P (TFrac x)) ->
  (forall s, P (TStr s)) ->
  (forall l, Forall P l -> P (TArr l)) ->
  (forall m, Forall (fun kv => P (snd kv)) m -> P (TObj m)) ->
  forall t, P t.
Proof.
  intros Hnull Hbool Hnum Hfrac Hstr Harr Hobj.
  fix F 1. intros [ |b|n|x|s|l|m].
  - exact Hnull.
  - apply Hbool.
  - apply Hnum.
  - apply Hfrac.
  - apply Hstr.
  - apply Harr. induction l as [|x l IH]; constructor; [apply F | exact IH].
  - apply Hobj. induction m as [|[k x] m IH]; constructor; [apply F | exact IH].
Qed.

Lemma quote_app k s :
  quote k +:+ s = String DQ (escape k +:+ String DQ s).
Proof. unfold quote. rewrite sapp_cons, sapp_assoc. done. Qed.

Lemma parse_key_quote k s :
  parse_key (quote k +:+ String ":" s) = Some (k, s).
Proof.
  rewrite quote_app. unfold parse_key. cbn [skip_ws].
  change (is_ws DQ) with false. cbv iota.
  change (code DQ =? 34)%N with true. cbv iota.
  rewrite parse_chars_escape. reflexivity.
Qed.

Lemma follow_ok_arr_tail pr l rest : follow_ok (print_arr_tail pr l +:+ rest).
Proof. destruct l; reflexivity. Qed.

Lemma follow_ok_obj_tail pr m rest : follow_ok (print_obj_tail pr m +:+ rest).
Proof. destruct m; reflexivity. Qed.

Lemma parse_arr_tail_print l :
  Forall parses l ->
  forall f rest, arr_tail_size tsize l <= f ->
    parse_arr_tail f (print_arr_tail print_tree l +:+ rest) = Some (l, rest).
Proof.
  induction 1 as [|y l Hy _ IH]; intros f rest Hf.
  - destruct f as [|f]; [simpl in Hf; lia|]. reflexivity.
  - destruct f as [|f]; [simpl in Hf; lia|]. simpl in Hf.
    cbn [print_arr_tail]. repeat (rewrite ?sapp_assoc, ?sapp_cons, ?sapp_nil_l).
    rewrite parse_arr_tail_S; cbn [skip_ws]. change (is_ws ",") with false. cbv iota.
    change (code "," =? 93)%N with false. change (code "," =? 44)%N with true. cbv iota.
    rewrite (Hy f (print_arr_tail print_tree l +:+ rest)); [|lia|apply follow_ok_arr_tail]. cbn.
    rewrite (IH f); [|lia]. reflexivity.
Qed.

Lemma parse_obj_tail_print m :
  Forall (fun kv => parses (snd kv)) m ->
  forall f rest, obj_tail_size tsize m <= f ->
    parse_obj_tail f (print_obj_tail print_tree m +:+ rest) = Some (m, rest).
Proof.
  induction 1 as [|[k y] m Hy _ IH]; intros f rest Hf.
  - destruct f as [|f]; [simpl in Hf; lia|]. reflexivity.
  - destruct f as [|f]; [simpl in Hf; lia|]. simpl in Hf, Hy.
    cbn [print_obj_tail fst snd]. repeat (rewrite ?sapp_assoc, ?sapp_cons, ?sapp_nil_l).
    rewrite parse_obj_tail_S; cbn [skip_ws]. change (is_ws ",") with false. cbv iota.
    change (code "," =? 125)%N with false. change (code "," =? 44)%N with true. cbv iota.
    rewrite parse_key_quote. cbn.
    rewrite (Hy f (print_obj_tail print_tree m +:+ rest)); [|lia|apply follow_ok_obj_tail]. cbn.
    rewrite (IH f); [|lia]. reflexivity.
Qed.

Lemma parse_value_print t : parses t.
Proof.
  induction t as [ |b|n|x|s|l IH|m IH] using jtree_ind'; intros f rest Hf Hr;
    (destruct f as [|f]; [simpl in Hf; try destruct l; try destruct m; lia|]).
  - reflexivity.
  - destruct b; reflexivity.
  - by apply parse_value_num.
  - by apply parse_value_frac.
  - cbn [print_tree]. rewrite quote_app.
    rewrite parse_value_S; cbn [skip_ws]. change (is_ws DQ) with false. cbv iota zeta.
    change (code DQ) with 34%N. cbn [N.eqb Pos.eqb].
    rewrite parse_chars_escape. reflexivity.
  - destruct IH as [|x l Hx Hl]; [reflexivity|].
    cbn [print_tree]. repeat (rewrite ?sapp_assoc, ?sapp_cons, ?sapp_nil_l). simpl in Hf.
    pose proof (starts_value_print x (print_arr_tail print_tree l +:+ rest)) as Hs.
    rewrite parse_value_S; cbn [skip_ws]. change (is_ws "[") with false. cbv iota zeta.
    change (code "[") with 91%N. cbn [N.eqb Pos.eqb].
    rewrite (skip_ws_id _ Hs).
    destruct (print_tree x +:+ print_arr_tail print_tree l +:+ rest) as [|c s] eqn:E; [done|].
    destruct Hs as (_ & -> & _).
    rewrite <- E, (Hx f (print_arr_tail print_tree l +:+ rest)); [|lia|apply follow_ok_arr_tail]. cbn.
    rewrite parse_arr_tail_print; [reflexivity|done|lia].
  - destruct IH as [|[k x] m Hx Hm]; [reflexivity|].
    cbn [print_tree fst snd]. repeat (rewrite ?sapp_assoc, ?sapp_cons, ?sapp_nil_l). simpl in Hf, Hx.
    rewrite parse_value_S; cbn [skip_ws]. change (is_ws "{") with false. cbv iota zeta.
    change (code "{") with 123%N. cbn [N.eqb Pos.eqb].
    rewrite quote_app. cbn [skip_ws]. change (is_ws DQ) with false. cbv iota.
    change (code DQ =? 125)%N with false. cbv iota.
    rewrite <- quote_app, parse_key_quote. cbn.
    rewrite (Hx f (print_obj_tail print_tree m +:+ rest)); [|lia|apply follow_ok_obj_tail]. cbn.
    rewrite parse_obj_tail_print; [reflexivity|done|lia].
Qed.

(* ---------- fuel ---------- *)

Lemma print_Z_length n : 1 <= String.length (print_Z n).
Proof. destruct (print_Z_head n) as (c & s & -> & _). simpl; lia. Qed.

Lemma print_frac_length x : 1 <= String.length (print_frac x).
Proof. destruct (print_frac_head x) as (c & s & -> & _). simpl; lia. Qed.

Lemma tsize_le_length t : tsize t <= String.length (print_tree t).
Proof.
  induction t as [ |b|n|x|s|l IH|m IH] using jtree_ind'.
  - simpl; lia.
  - destruct b; simpl; lia.
  - apply print_Z_length.
  - apply print_frac_length.
  - simpl; lia.
  - destruct IH as [|x l Hx Hl]; [simpl; lia|].
    cbn [print_tree tsize]. rewrite !sapp_length. cbn [String.length].
    assert (arr_tail_size tsize l <= String.length (print_arr_tail print_tree l)) as Ht.
    { induction Hl as [|y l Hy _ IHl]; [simpl; lia|].
      cbn [print_arr_tail arr_tail_size]. rewrite !sapp_length. cbn [String.length]. lia. }
    lia.
  - destruct IH as [|[k x] m Hx Hm]; [simpl; lia|].
    cbn [print_tree tsize fst snd]. rewrite !sapp_length. cbn [String.length].
    assert (obj_tail_size tsize m <= String.length (print_obj_tail print_tree m)) as Ht.
    { induction Hm as [|[k' y] m Hy _ IHm]; [simpl; lia|].
      cbn [print_obj_tail obj_tail_size fst snd]. rewrite !sapp_length. cbn [String.length].
      simpl in Hy. lia. }
    simpl in Hx. lia.
Qed.

Lemma parse_print_tree t :
  parse_value (S (String.length (print_tree t))) (print_tree t) = Some (t, EmptyString).
Proof.
  rewrite <- (sapp_nil_r (print_tree t)) at 2.
  apply parse_value_print; [|done].
  pose proof (tsize_le_length t). lia.
Qed.

(* ---------- maps ---------- *)

Lemma jsize_lookup (m : gmap string json) k x :
  m !! k = Some x -> jsize x <= map_fold (fun _ x acc => jsize x + acc) 0 m.
Proof.
  revert k x. induction m as [|i y m Hi Hfold IH] using map_first_key_ind.
  - intros k x. by rewrite lookup_empty.
  - intros k x. rewrite map_fold_insert_first_key by done.
    rewrite lookup_insert. case_decide as Hk.
    + intros [= ->]. lia.
    + intros Hx. specialize (IH _ _ Hx). lia.
Qed.

Lemma json_ind' (P : json -> Prop) :
  P JNull -> (forall b, P (JBool b)) -> (forall n, P (JNum n)) -> (forall x, P (JFrac x)) ->
  (forall s, P (JStr s)) ->
  (forall l, Forall P l -> P (JArr l)) ->
  (forall m : gmap string json, map_Forall (fun _ => P) m -> P (JObj m)) ->
  forall v, P v.
Proof.
  intros Hnull Hbool Hnum Hfrac Hstr Harr Hobj v.
  remember (jsize v) as n eqn:Hn. revert v Hn.
  induction n as [n IH] using lt_wf_ind. intros [ |b|z|x|s|l|m] Hn; auto.
  - apply Harr. apply Forall_forall. intros x Hx.
    apply (IH (jsize x)); [|done]. subst n. simpl.
    apply list_elem_of_In, (in_map jsize) in Hx.
    induction (map jsize l) as [|a l' IHl]; [done|].
    destruct Hx as [->|Hx]; simpl; [lia|]. specialize (IHl Hx). lia.
  - apply Hobj. intros k x Hx.
    apply (IH (jsize x)); [|done]. subst n. simpl.
    pose proof (jsize_lookup m k x Hx). lia.
Qed.

Lemma of_to_tree v : of_tree (to_tree v) = v.
Proof.
  induction v as [ |b|n|x|s|l IH|m IH] using json_ind'; try done.
  - simpl. f_equal. rewrite map_map. induction IH as [|x l Hx _ IHl]; [done|].
    simpl. by rewrite Hx, IHl.
  - cbn [to_tree of_tree]. f_equal.
    rewrite map_to_list_fmap.
    change (map ?f ?l) with (f <$> l). rewrite <- list_fmap_compose.
    assert ((fun kv : string * jtree => (kv.1, of_tree kv.2)) ∘ prod_map id to_tree <$> map_to_list m
            = map_to_list m) as ->.
    { rewrite <- (list_fmap_id (map_to_list m)) at 2.
      apply list_fmap_ext. intros _ [k x] Hkx%list_elem_of_lookup_2%elem_of_map_to_list.
      simpl. f_equal. by apply (IH k x). }
    rewrite <- (list_to_map_to_list m) at 2.
    apply list_to_map_proper.
    + rewrite fmap_reverse, reverse_Permutation. apply NoDup_fst_map_to_list.
    + apply reverse_Permutation.
Qed.

Theorem JSON_parse_stringify v : JSON_parse (JSON_stringify v) = Some v.
Proof.
  unfold JSON_parse, JSON_stringify. rewrite parse_print_tree. simpl.
  by rewrite of_to_tree.
Qed.

Lemma JSON_stringify_nonempty v : JSON_stringify v <> EmptyString.
Proof.
  intros H. pose proof (JSON_parse_stringify v) as Hp. rewrite H in Hp. discriminate.
Qed.

Lemma JSON_stringify_inj v w : JSON_stringify v = JSON_stringify w -> v = w.
Proof.
  intros H. pose proof (JSON_parse_stringify v) as Hp. rewrite H, JSON_parse_stringify in Hp.
  congruence.
Qed.

(** The codec on texts that only another writer produces: exponents,
    fractions, escapes beyond ASCII, surrogate pairs; and on texts that are
    not JSON. *)
Example JSON_parse_examples :
  JSON_parse "1e3" = Some (JNum 1000) /\
  JSON_parse "0.5" = Some (JFrac (mkFrac false 0 N5 1)) /\
  JSON_parse " -12.50E-1 " = Some (JFrac (mkFrac true 12 N5 2)) /\
  JSON_parse "[1.0, 100e-2, -0]" = Some (JArr [JNum 1; JNum 1; JNum 0]) /\
  JSON_parse (String DQ ("\u25c6\u00e9\ud83d\ude00" +:+ String DQ EmptyString))
    = Some (JStr "◆é😀") /\
  JSON_parse "01" = None /\ JSON_parse "1." = None /\ JSON_parse ".5" = None /\
  JSON_parse "+1" = None /\ JSON_parse "1e" = None /\ JSON_parse "{not json" = None /\
  JSON_stringify (JArr [JFrac (mkFrac false 0 N5 1); JFrac (mkFrac true 12 N5 8);
                        JFrac (mkFrac false 170000000000012 N3 3)])
    = "[0.5,-0.00000125,1700000000000.123]" /\
  JSON_stringify (JFrac (mkFrac false 12 N5 9)) = "1.25e-7" /\
  JSON_stringify (JArr [JNum 999999999999999999999; JNum (10 ^ 21); JNum (-15 * 10 ^ 20)])
    = "[999999999999999999999,1e+21,-1.5e+21]".
Proof. repeat split; vm_compute; reflexivity. Qed.

Local Close Scope string_scope.

(* ---------- the monad ---------- *)

Lemma bind_Ok {A B} (m : M A) (k : A -> M B) h a h' :
  m h = Ok a h' -> bind m k h = k a h'.
Proof. unfold bind. by intros ->. Qed.

Lemma bind_Throw {A B} (m : M A) (k : A -> M B) h e h' :
  m h = Throw e h' -> bind m k h = Throw e h'.
Proof. unfold bind. by intros ->. Qed.

Lemma bind_ret_l {A B} (a : A) (k : A -> M B) h : bind (ret a) k h = k a h.
Proof. reflexivity. Qed.

(* ---------- localStorage ---------- *)

Lemma setItem_accept k v h :
  storage_used (<[k := v]> (localStorage h)) <= quota h ->
  setItem k v h = Ok tt (h_store k v h).
Proof.
  intros H. unfold setItem. apply Nat.leb_le in H. by rewrite H.
Qed.

Lemma setItem_refuse k v h :
  ~ storage_used (<[k := v]> (localStorage h)) <= quota h ->
  setItem k v h = Throw QuotaExceededError h.
Proof.
  intros H. unfold setItem.
  destruct (Nat.leb_spec (storage_used (<[k:=v]> (localStorage h))) (quota h)); [lia|done].
Qed.

Lemma stored_doc_h_store d h :
  stored_doc (h_store STORAGE_KEY (JSON_stringify d) h) = Some d.
Proof.
  unfold stored_doc, h_store. simpl. rewrite lookup_insert_eq. simpl.
  apply JSON_parse_stringify.
Qed.


Lemma doc_fits_h_emit d e h : doc_fits (h_emit e h) d <-> doc_fits h d.
Proof. reflexivity. Qed.


Lemma stored_doc_h_emit e h : stored_doc (h_emit e h) = stored_doc h.
Proof. reflexivity. Qed.

Lemma stored_doc_h_broadcast ft p h : stored_doc (h_broadcast ft p h) = stored_doc h.
Proof. unfold h_broadcast. by destruct (hasBroadcastChannel h). Qed.

(* ---------- engine/state.js ---------- *)

Lemma JSON_parse_empty : JSON_parse EmptyString = None.
Proof. reflexivity. Qed.

Lemma getState_stored h d : stored_doc h = Some d -> getState h = Ok d h.
Proof.
  unfold stored_doc, getState, getItem, bind. 
  destruct (localStorage h !! STORAGE_KEY) as [raw|]; [|done]. simpl.
  destruct raw as [|c r]; [done|]. by intros ->.
Qed.

Lemma getState_reinit h :
  stored_doc h = None -> doc_fits h defaultState ->
  getState h = Ok defaultState (h_store STORAGE_KEY (JSON_stringify defaultState) h).
Proof.
  unfold stored_doc, getState, getItem, bind, doc_fits. intros Hs Hf.
  pose proof (setItem_accept STORAGE_KEY (JSON_stringify defaultState) h Hf) as Hset.
  destruct (localStorage h !! STORAGE_KEY) as [raw|]; simpl in *.
  - destruct raw as [|c r]; [by rewrite Hset|]. rewrite Hs. by rewrite Hset.
  - by rewrite Hset.
Qed.

Lemma getState_reinit_refused h :
  stored_doc h = None -> ~ doc_fits h defaultState ->
  getState h = Throw QuotaExceededError h.
Proof.
  unfold stored_doc, getState, getItem, bind, doc_fits. intros Hs Hf.
  pose proof (setItem_refuse STORAGE_KEY (JSON_stringify defaultState) h Hf) as Hset.
  destruct (localStorage h !! STORAGE_KEY) as [raw|]; simpl in *.
  - destruct raw as [|c r]; [by rewrite Hset|]. rewrite Hs. by rewrite Hset.
  - by rewrite Hset.
Qed.

Lemma _broadcast_eq ft p h :
  _broadcast (Some ft) (Some p) h = Ok tt (h_broadcast (nullish (Some ft) JNull) p h).
Proof.
  unfold _broadcast, h_broadcast, host, bind, postMessage, emit, h_emit, envelope.
  simpl. destruct (hasBroadcastChannel h) eqn:E; simpl; rewrite ?E; done.
Qed.

Lemma nullish_idem a b : nullish (Some (nullish a b)) b = nullish a b.
Proof. destruct a as [[]|]; try done; by destruct b. Qed.

(** [setState] when the store holds [d], the updater returns [d'] and the
    host accepts the write. *)
Lemma setState_ok (u : json -> M json) ft h d d' :
  stored_doc h = Some d ->
  u d h = Ok d' h ->
  doc_fits h d' ->
  setState u ft h =
    Ok d' (h_broadcast (nullish ft JNull) d' (h_store STORAGE_KEY (JSON_stringify d') h)).
Proof.
  intros Hs Hu Hf. unfold setState.
  rewrite (bind_Ok _ _ _ _ _ (getState_stored _ _ Hs)).
  rewrite (bind_Ok _ _ _ _ _ Hu).
  rewrite (bind_Ok _ _ _ _ _ (setItem_accept _ _ _ Hf)).
  rewrite (bind_Ok _ _ _ _ _ (_broadcast_eq _ _ _)).
  by rewrite nullish_idem.
Qed.


Lemma setState_throws (u : json -> M json) ft h d e :
  stored_doc h = Some d ->
  u d h = Throw e h ->
  setState u ft h = Throw e h.
Proof.
  intros Hs Hu. unfold setState.
  rewrite (bind_Ok _ _ _ _ _ (getState_stored _ _ Hs)).
  by rewrite (bind_Throw _ _ _ _ _ Hu).
Qed.

(* ---------- property access ---------- *)

Lemma get_own (m : gmap string json) k x h :
  m !! k = Some x -> get (Some (JObj m)) k h = Ok (Some x) h.
Proof. intros H. cbn [get]. by rewrite H. Qed.


Lemma get_own_eq (m : gmap string json) k x :
  m !! k = Some x -> get (Some (JObj m)) k = ret (Some x).
Proof. intros H. cbn [get]. by rewrite H. Qed.

Lemma get_plain_eq (m : gmap string json) k :
  inherited k = false -> get (Some (JObj m)) k = ret (m !! k).
Proof. intros H. cbn [get]. rewrite H. by destruct (m !! k). Qed.

Lemma put_plain_eq (m : gmap string json) k x :
  (k =? "__proto__")%string = false -> put (Some (JObj m)) k x = ret (JObj (<[k := x]> m)).
Proof. intros H. cbn [put]. by rewrite H. Qed.

Lemma get_plain (m : gmap string json) k h :
  inherited k = false -> get (Some (JObj m)) k h = Ok (m !! k) h.
Proof. intros H. cbn [get]. rewrite H. by destruct (m !! k). Qed.

Lemma put_plain (m : gmap string json) k x h :
  (k =? "__proto__")%string = false -> put (Some (JObj m)) k x h = Ok (JObj (<[k := x]> m)) h.
Proof. intros H. cbn [put]. by rewrite H. Qed.

Lemma inherited_not_proto k : inherited k = false -> (k =? "__proto__")%string = false.
Proof.
  intros H. apply String.eqb_neq. intros ->. by vm_compute in H.
Qed.

(** The text of an integer is not the name of a built-in. *)
Lemma inherited_print_Z n : inherited (print_Z n) = false.
Proof.
  destruct (print_Z_head n) as (c & s & E & Hc). rewrite E.
  unfold inherited. apply bool_decide_eq_false. unfold OBJECT_PROTOTYPE.
  intros H. repeat (apply elem_of_cons in H as [H|H]; [injection H as -> _; by vm_compute in Hc|]).
  by apply elem_of_nil in H.
Qed.

Lemma inherited_TabNum n : inherited (String_of (TabNum n)) = false.
Proof. apply inherited_print_Z. Qed.

Lemma updateTabState_updater m tabs id updates h :
  m !! "tabs" = Some (JObj tabs) ->
  inherited id = false ->
  (tabs0 <- get (Some (JObj m)) "tabs" ;;
   old <- get tabs0 id ;;
   tabs' <- put tabs0 id (JObj (spread (Some updates) ∪ spread old)) ;;
   put (Some (JObj m)) "tabs" tabs') h = Ok (with_tab m tabs id updates) h.
Proof.
  intros Ht Hid.
  rewrite (bind_Ok _ _ _ _ _ (get_own _ _ _ _ Ht)).
  rewrite (bind_Ok _ _ _ _ _ (get_plain _ _ _ Hid)).
  rewrite (bind_Ok _ _ _ _ _ (put_plain _ _ _ _ (inherited_not_proto _ Hid))).
  by rewrite put_plain.
Qed.

Lemma updateTabState_ok tabId updates h m tabs :
  stored_doc h = Some (JObj m) ->
  m !! "tabs" = Some (JObj tabs) ->
  inherited (String_of tabId) = false ->
  let d' := with_tab m tabs (String_of tabId) updates in
  doc_fits h d' ->
  updateTabState tabId updates h =
    Ok d' (h_broadcast (tab_json tabId) d' (h_store STORAGE_KEY (JSON_stringify d') h)).
Proof.
  intros Hs Ht Hid d' Hf. unfold updateTabState.
  rewrite (setState_ok _ _ h (JObj m) d' Hs); [|by apply updateTabState_updater|done].
  f_equal. f_equal. by destruct tabId.
Qed.

(* ---------- getState in general ---------- *)


Lemma stored_doc_h_init h : stored_doc (h_init h) = Some (current_doc h).
Proof.
  unfold h_init, current_doc. destruct (stored_doc h) as [d|] eqn:Hs; [done|].
  apply stored_doc_h_store.
Qed.


Lemma hasBC_h_store k v h : hasBroadcastChannel (h_store k v h) = hasBroadcastChannel h.
Proof. reflexivity. Qed.



(* ---------- traces and deliveries ---------- *)

Lemma new_events_app h h' evs :
  trace h' = trace h ++ evs -> new_events h h' = evs.
Proof. unfold new_events. intros ->. by rewrite drop_app_length. Qed.

Lemma trace_h_store k v h :
  trace (h_store k v h) =
  trace h ++ (if decide (localStorage h !! k = Some v) then [] else [EvStorage k v]).
Proof. reflexivity. Qed.

Lemma trace_h_emit e h : trace (h_emit e h) = trace h ++ [e].
Proof. reflexivity. Qed.


Lemma fallback_ignores_state_key v : lsFallbackListen_message STORAGE_KEY v = None.
Proof. reflexivity. Qed.

Lemma deliver_storage_state_key sender v c :
  deliver_event sender (EvStorage STORAGE_KEY v) c = [].
Proof. simpl. by destruct (cid c =? sender)%nat. Qed.

Lemma deliveries_app sender evs1 evs2 cs :
  deliveries sender (evs1 ++ evs2) cs = deliveries sender evs1 cs ++ deliveries sender evs2 cs.
Proof. unfold deliveries. by rewrite bind_app. Qed.

Lemma deliver_state_key_all sender v (cs : list Context) :
  (c ← cs; deliver_event sender (EvStorage STORAGE_KEY v) c) = [].
Proof.
  induction cs as [|c cs IH]; [done|].
  rewrite bind_cons, IH, deliver_storage_state_key. done.
Qed.

Lemma deliveries_state_key_only sender evs cs :
  (forall e, e ∈ evs -> exists v, e = EvStorage STORAGE_KEY v) ->
  deliveries sender evs cs = [].
Proof.
  intros H. unfold deliveries. induction evs as [|e evs IH]; [done|].
  rewrite bind_cons. rewrite IH by (intros; apply H; by right).
  destruct (H e) as [v ->]; [by left|].
  by rewrite deliver_state_key_all.
Qed.

Lemma elem_of_deliveries sender evs cs x :
  x ∈ deliveries sender evs cs <->
  exists e c, e ∈ evs /\ c ∈ cs /\ x ∈ deliver_event sender e c.
Proof.
  unfold deliveries. rewrite list_elem_of_bind. split.
  - intros (e & Hx & He). apply list_elem_of_bind in Hx as (c & Hx & Hc). eauto.
  - intros (e & c & He & Hc & Hx). exists e. split; [|done].
    apply list_elem_of_bind. eauto.
Qed.

(* ---------- C4 ---------- *)


Lemma fresh_host_fits_default bc : doc_fits (fresh_host bc) defaultState.
Proof. unfold doc_fits. apply Nat.leb_le. by vm_compute. Qed.




Lemma stored_default_host : stored_doc default_host = Some defaultState.
Proof.
  unfold stored_doc, default_host, host_holding. cbn [localStorage].
  rewrite lookup_singleton_eq. cbn [mbind option_bind]. apply JSON_parse_stringify.
Qed.

(* ---------- C5 ---------- *)

(** C5 (as amended).  When nothing is stored, or what is stored is empty
    or is not JSON, [getState] returns the default document and, the host
    accepting the write, leaves exactly the default in the store and the
    other keys as they were.  A stored value that parses is returned as
    parsed, whatever its shape, and the store is left alone. *)
Theorem getState_recovers_defaults (h : Host) :
  (stored_doc h = None -> doc_fits h defaultState ->
   exists h',
     getState h = Ok defaultState h' /\
     localStorage h' !! STORAGE_KEY = Some (JSON_stringify defaultState) /\
     stored_doc h' = Some defaultState /\
     forall k, k <> STORAGE_KEY -> localStorage h' !! k = localStorage h !! k) /\
  (forall d, stored_doc h = Some d -> getState h = Ok d h).
Proof.
  split.
  - intros Hs Hf. eexists. split; [by apply getState_reinit|].
    split; [|split].
    + simpl. apply lookup_insert_eq.
    + apply stored_doc_h_store.
    + intros k Hk. simpl. by rewrite lookup_insert_ne.
  - intros d. apply getState_stored.
Qed.

Lemma getState_recovers_defaults_witness :
  exists h',
    getState (host_holding "{not json" true) = Ok defaultState h' /\
    localStorage h' !! STORAGE_KEY = Some (JSON_stringify defaultState) /\
    stored_doc h' = Some defaultState.
Proof.
  destruct (getState_recovers_defaults (host_holding "{not json" true)) as [Hrec _].
  destruct Hrec as (h' & Hrun & Hraw & Hdoc & _).
  - reflexivity.
  - unfold doc_fits. apply Nat.leb_le. vm_compute. reflexivity.
  - exists h'. split; [exact Hrun|]. split; [exact Hraw|exact Hdoc].
Defined.

(** Whatever JSON text another writer left in the store is the document:
    a number with an exponent, a fraction, a string. *)
Example getState_reads_any_json :
  getState (host_holding "1e3" true) = Ok (JNum 1000) (host_holding "1e3" true) /\
  getState (host_holding "0.5" true)
    = Ok (JFrac (mkFrac false 0 N5 1)) (host_holding "0.5" true) /\
  getState (host_holding (String DQ ("\u25c6" +:+ String DQ EmptyString)) true)
    = Ok (JStr "◆") (host_holding (String DQ ("\u25c6" +:+ String DQ EmptyString)) true).
Proof. repeat split; vm_compute; reflexivity. Qed.

(** C5 fails as stated: the stored text [{}] parses, but not as a document
    with the sections of the schema; [getState] returns the empty object,
    not the default document, and leaves the store as it was. *)
Lemma getState_returns_malformed_document :
  stored_doc (host_holding "{}" true) = Some (JObj ∅) /\
  ~ well_formed (JObj ∅) /\
  getState (host_holding "{}" true) = Ok (JObj ∅) (host_holding "{}" true) /\
  JObj ∅ <> defaultState /\
  localStorage (host_of (getState (host_holding "{}" true))) !! STORAGE_KEY
    <> Some (JSON_stringify defaultState).
Proof.
  split; [reflexivity|]. split.
  - intros [(tabs & Ht & _) _ _]. discriminate.
  - split; [reflexivity|]. split; [|by vm_compute].
    intros H. apply (f_equal JSON_stringify) in H. vm_compute in H. discriminate.
Qed.

(* ---------- C6 ---------- *)

(** C6.  On a host whose storage is full, each write of the store throws
    [QuotaExceededError] to its caller and skips the broadcast, where
    [lsFallbackPost] of engine/channel.js catches the same failure and
    returns. *)
Theorem store_write_failure_reaches_caller :
  run_write (W1_codeFragment "◆") tight_host = Throw QuotaExceededError tight_host /\
  updateTabState (TabNum 1) (obj [("bonusSymbolAvailable", JBool true)]) tight_host
    = Throw QuotaExceededError tight_host /\
  resetState (mkHost ∅ 0 true true [] []) = Throw QuotaExceededError (mkHost ∅ 0 true true [] []) /\
  lsFallbackPost (envelope "STATE_CHANGE" JNull (obj [])) tight_host = Ok tt tight_host.
Proof. repeat split; vm_compute; reflexivity. Qed.

(* ---------- C7 ---------- *)






(* ---------- C10 ---------- *)

Lemma spread_obj_union (u : gmap string json) : spread (Some (JObj u)) ∪ spread None = u.
Proof. simpl. apply (right_id_L ∅ (∪)). Qed.

Lemma tab_created (tabId : tab_id) (h : Host) (m tabs : gmap string json) :
  stored_doc h = Some (JObj m) ->
  m !! "tabs" = Some (JObj tabs) ->
  tabs !! String_of tabId = None ->
  inherited (String_of tabId) = false ->
  getTabState tabId h = Ok JNull h /\
  forall u : gmap string json,
    let d' := JObj (<["tabs" := JObj (<[String_of tabId := JObj u]> tabs)]> m) in
    doc_fits h d' ->
    exists h',
      updateTabState tabId (JObj u) h = Ok d' h' /\
      stored_doc h' = Some d' /\
      getTabState tabId h' = Ok (JObj u) h'.
Proof.
  intros Hs Ht Hid Hplain. split.
  - unfold getTabState.
    rewrite (bind_Ok _ _ _ _ _ (getState_stored _ _ Hs)).
    rewrite (bind_Ok _ _ _ _ _ (get_own _ _ _ _ Ht)).
    rewrite (bind_Ok _ _ _ _ _ (get_plain _ _ _ Hplain)).
    by rewrite Hid.
  - intros u d' Hf.
    assert (with_tab m tabs (String_of tabId) (JObj u) = d') as Hd'.
    { unfold with_tab, merged, d'. by rewrite Hid, spread_obj_union. }
    eexists. split; [|split].
    + rewrite <- Hd'. apply updateTabState_ok; [done|done|done|by rewrite Hd'].
    + rewrite stored_doc_h_broadcast, Hd'. apply stored_doc_h_store.
    + unfold getTabState.
      erewrite bind_Ok;
        [|apply getState_stored; rewrite stored_doc_h_broadcast, Hd'; apply stored_doc_h_store].
      unfold d'.
      erewrite bind_Ok; [|apply get_own, lookup_insert_eq].
      erewrite bind_Ok; [|apply get_own, lookup_insert_eq].
      reflexivity.
Qed.

Lemma no_tabs_section (tabId : tab_id) (h : Host) (m : gmap string json) :
  stored_doc h = Some (JObj m) ->
  m !! "tabs" = None ->
  getTabState tabId h = Throw (TypeError "Cannot read properties of undefined") h /\
  forall updates,
    updateTabState tabId updates h = Throw (TypeError "Cannot read properties of undefined") h.
Proof.
  intros Hs Ht.
  assert (get (Some (JObj m)) "tabs" = ret None) as Hget
    by (by rewrite (get_plain_eq m "tabs" eq_refl), Ht).
  split.
  - unfold getTabState. rewrite (bind_Ok _ _ _ _ _ (getState_stored _ _ Hs)).
    by rewrite Hget.
  - intros updates. unfold updateTabState.
    apply (setState_throws _ _ h (JObj m)); [done|]. by rewrite Hget.
Qed.

(** C10 (as amended).  When the stored document has a [tabs] object
    without a property for the tab id, and the id is not the name of a
    property that objects inherit ([constructor], [__proto__], ...),
    [getTabState] returns [null] and does not throw, and [updateTabState],
    the host accepting the write, stores under that id a record holding
    exactly the pairs of [updates], which [getTabState] then returns.  When
    the stored document is an object without [tabs], both throw a
    [TypeError] and the host is left as it was. *)
Theorem tab_without_record (tabId : tab_id) (h : Host) (m : gmap string json) :
  stored_doc h = Some (JObj m) ->
  (forall tabs : gmap string json,
      m !! "tabs" = Some (JObj tabs) ->
      tabs !! String_of tabId = None ->
      inherited (String_of tabId) = false ->
      getTabState tabId h = Ok JNull h /\
      forall u : gmap string json,
        let d' := JObj (<["tabs" := JObj (<[String_of tabId := JObj u]> tabs)]> m) in
        doc_fits h d' ->
        exists h',
          updateTabState tabId (JObj u) h = Ok d' h' /\
          stored_doc h' = Some d' /\
          getTabState tabId h' = Ok (JObj u) h') /\
  (m !! "tabs" = None ->
   getTabState tabId h = Throw (TypeError "Cannot read properties of undefined") h /\
   forall updates,
     updateTabState tabId updates h
       = Throw (TypeError "Cannot read properties of undefined") h).
Proof.
  intros Hs. split.
  - intros tabs. by apply tab_created.
  - by apply no_tabs_section.
Qed.

Lemma tab_without_record_witness :
  getTabState (TabNum 5) default_host = Ok JNull default_host /\
  exists d' h',
    updateTabState (TabNum 5) (obj [("state", JStr "visited")]) default_host = Ok d' h' /\
    stored_doc h' = Some d' /\
    getTabState (TabNum 5) h' = Ok (obj [("state", JStr "visited")]) h'.
Proof.
  destruct (tab_without_record (TabNum 5) default_host (fields (Some defaultState)))
    as [Hcreate _]; [exact stored_default_host|].
  destruct (Hcreate (fields (get_opt (Some defaultState) "tabs"))) as [Hget Hupd].
  - vm_compute. reflexivity.
  - vm_compute. reflexivity.
  - vm_compute. reflexivity.
  - split; [exact Hget|].
    destruct (Hupd (list_to_map [("state", JStr "visited")])) as (h' & Hrun & Hst & Hrec).
    + apply Nat.leb_le. vm_compute. reflexivity.
    + eexists _, h'. split; [exact Hrun|]. split; [exact Hst|exact Hrec].
Defined.

(** C10 fails as stated: the stored text [{}] parses and has no record
    for any tab, yet [getTabState] throws a [TypeError], because the
    document has no [tabs] to look the id up in, and [updateTabState]
    throws it too and stores nothing. *)
Lemma tab_without_tabs_section_throws :
  stored_doc (host_holding "{}" true) = Some (JObj ∅) /\
  getTabState (TabNum 5) (host_holding "{}" true)
    = Throw (TypeError "Cannot read properties of undefined") (host_holding "{}" true) /\
  updateTabState (TabNum 5) (obj [("state", JStr "visited")]) (host_holding "{}" true)
    = Throw (TypeError "Cannot read properties of undefined") (host_holding "{}" true).
Proof. repeat split; vm_compute; reflexivity. Qed.

(* ---------- engine/channel.js ---------- *)

Lemma fresh_number_eq h : fresh_number h = Ok (next_nonce h) (h_pop h).
Proof. unfold fresh_number, next_nonce, h_pop. destruct h as [? ? ? ? [|z zs] ?]; done. Qed.

Lemma send_unfold ty payload ft h :
  send ty payload ft h =
  (let env := envelope ty (default JNull ft) (default (obj []) payload) in
   if hasBroadcastChannel h
   then Ok tt (h_emit (EvPost BusChannel env) (h_warn ty h))
   else lsFallbackPost env (h_warn ty h)).
Proof.
  unfold send, h_warn, bind, ret, host, postMessage, emit, h_emit, envelope.
  destruct (bool_decide (ty ∈ VALID_TYPES)); simpl;
    destruct (hasBroadcastChannel h) eqn:E; simpl; rewrite ?E; reflexivity.
Qed.

Lemma lsFallbackPost_eq env h :
  lsFallbackPost env h =
  if (storage_used (<[LS_KEY := wrapped env (next_nonce h)]> (localStorage h)) <=? quota h)%nat
  then Ok tt (h_store LS_KEY (wrapped env (next_nonce h)) (h_pop h))
  else Ok tt (h_pop h).
Proof.
  unfold lsFallbackPost. rewrite (bind_Ok _ _ _ _ _ (fresh_number_eq h)).
  unfold try_catch, setItem, wrapped, h_store. simpl.
  by destruct (_ <=? _)%nat.
Qed.

Lemma trace_h_warn ty h : trace (h_warn ty h) = trace h ++ warning ty.
Proof.
  unfold h_warn, warning. destruct (bool_decide _); [by rewrite app_nil_r|done].
Qed.

Lemma deliveries_warning sender ty cs : deliveries sender (warning ty) cs = [].
Proof.
  unfold warning, deliveries. destruct (bool_decide _); [done|].
  rewrite bind_cons. simpl. rewrite app_nil_r.
  induction cs as [|c cs IH]; [done|]. by rewrite bind_cons, IH.
Qed.

Lemma envelope_no_nonce ty ft p :
  exists m : gmap string json, envelope ty ft p = JObj m /\ m !! "_nonce" = None /\
    m !! "type" = Some (JStr ty) /\ m !! "payload" = Some p /\ m !! "fromTab" = Some ft.
Proof.
  eexists. split; [reflexivity|]. simpl.
  rewrite !lookup_insert_ne by done. rewrite !lookup_insert_eq, lookup_empty. done.
Qed.

Lemma wrapped_nonempty env n : wrapped env n <> EmptyString.
Proof. apply JSON_stringify_nonempty. Qed.

(** What the fallback listener hands over for the text that the fallback
    post wrote: the envelope, the nonce removed. *)
Lemma fallback_roundtrip ty ft p n :
  lsFallbackListen_message LS_KEY (wrapped (envelope ty ft p) n) = Some (envelope ty ft p).
Proof.
  destruct (envelope_no_nonce ty ft p) as (m & Hm & Hn & _).
  pose proof (wrapped_nonempty (envelope ty ft p) n) as Hne.
  assert (JSON_parse (wrapped (envelope ty ft p) n)
          = Some (JObj (<["_nonce" := JNumber n]> m))) as Hp.
  { unfold wrapped. rewrite JSON_parse_stringify, Hm. reflexivity. }
  unfold lsFallbackListen_message.
  rewrite String.eqb_refl. cbn [negb orb].
  apply String.eqb_neq in Hne. rewrite Hne, Hp, Hm. cbn [spread].
  f_equal. f_equal. rewrite delete_insert_eq. by apply delete_id.
Qed.

Lemma lookup_bus_deliver (c : Context) (l : list handler) (f : fn_id) t (data : json) :
  mkHandler t f ∈ l ->
  (cid c, f, data) ∈ map (fun hd => (cid c, h_cb hd, data)) l.
Proof.
  intros H. change (map ?g ?l) with (g <$> l).
  apply list_elem_of_fmap. by exists (mkHandler t f).
Qed.

Lemma send_spec
    (ty : string) (payload fromTab : jsval) (h : Host) (sender : nat) (cs : list Context) :
  let env := envelope ty (default JNull fromTab) (default (obj []) payload) in
  exists h',
    send ty payload fromTab h = Ok tt h' /\
    (forall c f msg,
        (c, f, msg) ∈ deliveries sender (new_events h h') cs ->
        c <> sender /\ msg = env /\
        get_opt (Some msg) "type" = Some (JStr ty) /\
        get_opt (Some msg) "payload" = Some (default (obj []) payload)) /\
    (forall c f,
        c ∈ cs -> cid c <> sender ->
        registered (hasBroadcastChannel h) (bus c) f ->
        (hasBroadcastChannel h = false ->
         storage_used (<[LS_KEY := wrapped env (next_nonce h)]> (localStorage h)) <= quota h /\
         localStorage h !! LS_KEY <> Some (wrapped env (next_nonce h))) ->
        (cid c, f, env) ∈ deliveries sender (new_events h h') cs).
Proof.
  intros env.
  destruct (envelope_no_nonce ty (default JNull fromTab) (default (obj []) payload))
    as (m & Hm & _ & Hty & Hp & _).
  assert (forall msg, msg = env ->
            get_opt (Some msg) "type" = Some (JStr ty) /\
            get_opt (Some msg) "payload" = Some (default (obj []) payload)) as Hfields.
  { intros msg ->. unfold env. rewrite Hm. simpl. by rewrite Hty, Hp. }
  rewrite send_unfold. fold env. destruct (hasBroadcastChannel h) eqn:Hbc.
  - (* BroadcastChannel *)
    eexists. split; [reflexivity|].
    erewrite new_events_app; [|by rewrite trace_h_emit, trace_h_warn, <- app_assoc].
    rewrite deliveries_app, deliveries_warning, app_nil_l.
    split.
    + intros c f msg (e & ctx & He & Hctx & Hx)%elem_of_deliveries.
      apply list_elem_of_singleton in He as ->. simpl in Hx.
      destruct (Nat.eqb_spec (cid ctx) sender) as [|Hne]; [by apply elem_of_nil in Hx|].
      change (map ?g ?l) with (g <$> l) in Hx.
      apply list_elem_of_fmap in Hx as (hd & [= -> -> ->] & _).
      split; [done|]. split; [done|]. by apply Hfields.
    + intros c f Hc Hne Hreg _.
      apply elem_of_deliveries. exists (EvPost BusChannel env), c.
      split; [by left|]. split; [done|]. simpl.
      destruct (Nat.eqb_spec (cid c) sender) as [|_]; [done|].
      by eapply lookup_bus_deliver.
  - (* fallback *)
    rewrite lsFallbackPost_eq.
    assert (localStorage (h_warn ty h) = localStorage h) as Hls.
    { unfold h_warn. by destruct (bool_decide _). }
    assert (quota (h_warn ty h) = quota h) as Hq.
    { unfold h_warn. by destruct (bool_decide _). }
    assert (next_nonce (h_warn ty h) = next_nonce h) as Hn.
    { unfold h_warn. by destruct (bool_decide _). }
    rewrite Hls, Hq, Hn.
    destruct (Nat.leb_spec (storage_used (<[LS_KEY:=wrapped env (next_nonce h)]> (localStorage h)))
                           (quota h)) as [Hacc|Hrej].
    + eexists. split; [reflexivity|].
      erewrite new_events_app;
        [|rewrite trace_h_store; change (trace (h_pop ?x)) with (trace x);
          rewrite trace_h_warn, <- app_assoc; reflexivity].
      rewrite deliveries_app, deliveries_warning, app_nil_l.
      change (localStorage (h_pop (h_warn ty h))) with (localStorage (h_warn ty h)).
      rewrite Hls.
      split.
      * intros c f msg (e & ctx & He & Hctx & Hx)%elem_of_deliveries.
        case_decide; [by apply elem_of_nil in He|].
        apply list_elem_of_singleton in He as ->. simpl in Hx.
        destruct (Nat.eqb_spec (cid ctx) sender) as [|Hne]; [by apply elem_of_nil in Hx|].
        unfold env in Hx. rewrite fallback_roundtrip in Hx. fold env in Hx.
        change (map ?g ?l) with (g <$> l) in Hx.
        apply list_elem_of_fmap in Hx as (hd & [= -> -> ->] & _).
        split; [done|]. split; [done|]. by apply Hfields.
      * intros c f Hc Hne Hreg Hcond. destruct Hcond as [_ Hchg]; [done|].
        case_decide; [done|].
        apply elem_of_deliveries. exists (EvStorage LS_KEY (wrapped env (next_nonce h))), c.
        split; [by left|]. split; [done|]. simpl.
        destruct (Nat.eqb_spec (cid c) sender) as [|_]; [done|].
        unfold env. rewrite fallback_roundtrip. fold env.
        by eapply lookup_bus_deliver.
    + eexists. split; [reflexivity|].
      erewrite new_events_app;
        [|change (trace (h_pop ?x)) with (trace x); by rewrite trace_h_warn].
      rewrite deliveries_warning. split.
      * intros c f msg Hx. by apply elem_of_nil in Hx.
      * intros c f Hc Hne Hreg Hcond. destruct Hcond as [Hacc _]; [done|]. lia.
Qed.

(* ---------- C9 ---------- *)

Lemma send_returns ty payload fromTab h : exists h', send ty payload fromTab h = Ok tt h'.
Proof.
  rewrite send_unfold. cbv zeta.
  destruct (hasBroadcastChannel h); [by eexists|].
  rewrite lsFallbackPost_eq. destruct (_ <=? _)%nat; by eexists.
Qed.

(** C9 (as amended).  [onMessage] called with anything but a function
    throws a [TypeError] to its caller and registers nothing, where
    [onMessage] with a function and [removeListener] always return.
    [send] returns for every payload that is JSON data; it throws a
    [DataCloneError] for a function where the host has [BroadcastChannel],
    and a [TypeError] for a BigInt or a circular structure where it has
    not. *)
Theorem onMessage_rejects_non_function (v : jsval) (b : Bus) (h : Host) :
  onMessage (AData v) b h = Throw (TypeError "[channel] onMessage expects a function") h /\
  (forall f, exists b', onMessage (AFun f) b h = Ok b' h) /\
  (forall a, exists b', removeListener a b h = Ok b' h) /\
  (forall ty payload fromTab, exists h', send_any ty (PData payload) fromTab h = Ok tt h') /\
  (forall ty fromTab,
      hasBroadcastChannel h = true ->
      exists h', send_any ty PFunction fromTab h = Throw DataCloneError h') /\
  (forall ty fromTab,
      hasBroadcastChannel h = false ->
      exists msg1 msg2 h',
        send_any ty PBigInt fromTab h = Throw (TypeError msg1) h' /\
        send_any ty PCircular fromTab h = Throw (TypeError msg2) h').
Proof.
  split; [reflexivity|]. split; [|split; [|split; [|split]]].
  - intros f. unfold onMessage. destruct (bool_decide _); [by eexists|].
    unfold bind, host, ret. destruct (hasBroadcastChannel h); by eexists.
  - intros [f|w]; [|by eexists]. unfold removeListener.
    destruct (listenerMap b !! f); [|by eexists].
    unfold bind, host, ret. destruct (hasBroadcastChannel h); by eexists.
  - intros ty payload fromTab. apply send_returns.
  - intros ty fromTab Hbc. exists (h_warn ty h).
    unfold send_any, h_warn, bind, host, throw, ret, emit, h_emit.
    destruct (bool_decide (ty ∈ VALID_TYPES)); cbn; by rewrite Hbc.
  - intros ty fromTab Hbc. eexists _, _, (h_warn ty h).
    unfold send_any, h_warn, bind, host, throw, ret, emit, h_emit.
    destruct (bool_decide (ty ∈ VALID_TYPES)); cbn; by rewrite Hbc.
Qed.

Lemma onMessage_rejects_non_function_witness :
  exists h',
    send_any "PUZZLE_SOLVED" PFunction (Some (JNum 2)) (fresh_host true)
      = Throw DataCloneError h'.
Proof.
  destruct (onMessage_rejects_non_function None empty_bus (fresh_host true))
    as (_ & _ & _ & _ & Hclone & _).
  apply (Hclone "PUZZLE_SOLVED" (Some (JNum 2))). reflexivity.
Defined.

(** C9 fails as stated: [onMessage] is not the only operation of the layer
    that lets an error reach its caller.  The store returns a stored [{}]
    as it is, and [getTabState] then reads a property of [undefined]. *)
Lemma getTabState_surfaces_TypeError :
  getTabState (TabNum 1) (host_holding "{}" true)
  = Throw (TypeError "Cannot read properties of undefined") (host_holding "{}" true).
Proof. vm_compute. reflexivity. Qed.

(* ---------- documents ---------- *)

Lemma get_opt_obj_inv d k v : ~ (k = "length") -> array_index k = None ->
  get_opt (Some d) k = Some v -> exists m : gmap string json, d = JObj m /\ m !! k = Some v.
Proof.
  intros Hk Hi. destruct d as [| | | |s|l|m]; simpl; try discriminate.
  - destruct (String.eqb_spec k "length"); [done|]. by rewrite Hi.
  - destruct (String.eqb_spec k "length"); [done|]. by rewrite Hi.
  - eauto.
Qed.

Lemma well_formed_inv d :
  well_formed d ->
  exists (m tabs p meta : gmap string json) cf mf,
    d = JObj m /\
    m !! "tabs" = Some (JObj tabs) /\
    (forall t v, tabs !! t = Some v -> exists o, v = JObj o) /\
    m !! "player" = Some (JObj p) /\
    p !! "codeFragments" = Some (JArr cf) /\
    p !! "mindFragments" = Some (JArr mf) /\
    m !! "meta" = Some (JObj meta).
Proof.
  intros [(tabs & Ht & Hrec) (p & cf & mf & Hp & Hcf & Hmf) (meta & Hm)].
  apply get_opt_obj_inv in Ht as (m & -> & Ht); [|done|done].
  cbn [get_opt] in Hp, Hm. exists m, tabs, p, meta, cf, mf. done.
Qed.


(* ---------- how documents compare ---------- *)


Lemma not_present (sym : string) (l : list json) :
  existsb (fun y => is_str (Some y) sym) l = false -> JStr sym ∉ l.
Proof.
  induction l as [|x l IH]; simpl; [intros _; apply not_elem_of_nil|].
  intros [Hx Hl]%orb_false_iff. apply not_elem_of_cons. split; [|by apply IH].
  intros <-. simpl in Hx. by rewrite String.eqb_refl in Hx.
Qed.


(* ---------- observations of an updated document ---------- *)








(* ---------- updateTabState ---------- *)


Lemma merged_lookup_new (tabs u : gmap string json) id k v :
  u !! k = Some v -> get_opt (Some (merged tabs id (JObj u))) k = Some v.
Proof.
  intros Hu. unfold merged. cbn [spread get_opt]. by apply lookup_union_Some_l.
Qed.




(* ---------- the updaters on a well-formed document ---------- *)

Section updaters.
Context (m tabs p meta : gmap string json) (cf mf : list json).
Hypothesis Htabs : m !! "tabs" = Some (JObj tabs).
Hypothesis Hrec : forall t v, tabs !! t = Some v -> exists o, v = JObj o.
Hypothesis Hp : m !! "player" = Some (JObj p).
Hypothesis Hcf : p !! "codeFragments" = Some (JArr cf).
Hypothesis Hmf : p !! "mindFragments" = Some (JArr mf).
Hypothesis Hmeta : m !! "meta" = Some (JObj meta).

Lemma add_codeFragment_eq sym h :
  add_codeFragment sym (JObj m) h =
  Ok (if existsb (fun y => is_str (Some y) sym) cf then JObj m
      else JObj (<["player" := JObj (<["codeFragments" := JArr (cf ++ [JStr sym])]> p)]> m)) h.
Proof using Hp Hcf.
  js. rewrite Hp. js. rewrite Hcf. js. by destruct (existsb _ cf).
Qed.





Lemma set_meta_flag_eq flag h :
  (flag =? "__proto__")%string = false ->
  set_meta_flag flag (JObj m) h =
  Ok (JObj (<["meta" := JObj (<[flag := JBool true]> meta)]> m)) h.
Proof using Hmeta.
  intros Hflag. unfold set_meta_flag.
  rewrite (bind_Ok _ _ _ _ _ (get_own _ _ _ _ Hmeta)).
  rewrite (bind_Ok _ _ _ _ _ (put_plain meta flag _ h Hflag)).
  by rewrite put_plain.
Qed.

End updaters.

(* ---------- C2 ---------- *)








Lemma well_formed_default : well_formed defaultState.
Proof.
  split.
  - eexists. split; [reflexivity|]. intros t v Hv.
    apply elem_of_list_to_map_2 in Hv.
    repeat (apply elem_of_cons in Hv as [Heq|Hv]; [injection Heq as -> ->; by eexists|]).
    by apply elem_of_nil in Hv.
  - by eexists _, [], [].
  - by eexists.
Qed.




(* ---------- hosts that differ by their trace ---------- *)

Lemma frame_refl h : frame h h.
Proof. repeat split. exists []. by rewrite app_nil_r. Qed.

Lemma frame_trans h1 h2 h3 : frame h1 h2 -> frame h2 h3 -> frame h1 h3.
Proof.
  intros (?&?&?&?&e1&He1) (?&?&?&?&e2&He2). repeat split; try congruence.
  exists (e1 ++ e2). by rewrite He2, He1, app_assoc.
Qed.

Lemma frame_emit e h : frame h (h_emit e h).
Proof. repeat split. by exists [e]. Qed.

Lemma frame_stored_doc h h' : frame h h' -> stored_doc h' = stored_doc h.
Proof. intros (Hl&_). unfold stored_doc. by rewrite Hl. Qed.

Lemma frame_doc_fits h h' d : frame h h' -> doc_fits h' d <-> doc_fits h d.
Proof. intros (Hl&Hq&_). unfold doc_fits. by rewrite Hl, Hq. Qed.

Lemma call_eq t a h : call t a h = Ok tt (h_emit (EvCall t a) h).
Proof. reflexivity. Qed.

Lemma logs_call t a h : logs (call t a) h tt.
Proof. eexists. split; [apply call_eq|apply frame_emit]. Qed.

Lemma logs_ret {A} (a : A) h : logs (ret a) h a.
Proof. exists h. split; [reflexivity|apply frame_refl]. Qed.

Lemma logs_bind {A B} (c : M A) (k : A -> M B) h a b :
  logs c h a -> (forall h', frame h h' -> logs (k a) h' b) -> logs (bind c k) h b.
Proof.
  intros (h1 & Hc & Hf1) Hk. destruct (Hk h1 Hf1) as (h2 & Hk2 & Hf2).
  exists h2. split; [by rewrite (bind_Ok _ _ _ _ _ Hc)|by eapply frame_trans].
Qed.

Lemma logs_getState h d : stored_doc h = Some d -> logs getState h d.
Proof. intros Hs. exists h. split; [by apply getState_stored|apply frame_refl]. Qed.

Lemma logs_if {A} (b : bool) (c1 c2 : M A) h a :
  (b = true -> logs c1 h a) -> (b = false -> logs c2 h a) -> logs (if b then c1 else c2) h a.
Proof. destruct b; auto. Qed.

(* ---------- level 1 ---------- *)

Lemma filterM_pure {A} (p : A -> M bool) (f : A -> bool) (l : list A) h :
  (forall x h, p x h = Ok (f x) h) -> filterM p l h = Ok (List.filter f l) h.
Proof.
  intros Hp. revert h. induction l as [|x l IH]; intros h; [done|].
  cbn [filterM List.filter]. rewrite (bind_Ok _ _ _ _ _ (Hp x h)).
  rewrite (bind_Ok _ _ _ _ _ (IH h)). by destruct (f x).
Qed.

Lemma filterM_includes (cf : list json) (l : list floor_symbol) h :
  filterM (fun fs => present <- includes (Some (JArr cf)) (fs_symbol fs) ;; ret (negb present)) l h
  = Ok (List.filter (fun fs => negb (existsb (fun y => is_str (Some y) (fs_symbol fs)) cf)) l) h.
Proof. by apply filterM_pure. Qed.

Lemma setupReturnVisit_logs st h d :
  stored_doc h = Some d -> well_formed d ->
  exists cf, get_opt (get_opt (Some d) "player") "codeFragments" = Some (JArr cf) /\
             logs (setupReturnVisit st) h (returned st (uncollected cf)).
Proof.
  intros Hs Hwf.
  destruct (well_formed_inv d Hwf)
    as (m & tabs & p & meta & cf & mf & -> & Ht & Hrec & Hp & Hcf & Hmf & Hmeta).
  exists cf. split; [cbn [get_opt]; rewrite Hp; cbn [get_opt]; by rewrite Hcf|].
  unfold setupReturnVisit.
  eapply logs_bind; [apply logs_call|]; intros h1 Hf1.
  eapply logs_bind; [apply logs_call|]; intros h2 Hf2.
  eapply logs_bind; [apply logs_call|]; intros h3 Hf3.
  assert (frame h h3) as Hf by eauto using frame_trans.
  eapply logs_bind; [apply logs_getState; by rewrite (frame_stored_doc _ _ Hf)|]; intros h4 Hf4.
  rewrite (get_own_eq _ _ _ Hp).
  eapply logs_bind; [apply logs_ret|]; intros h5 Hf5.
  rewrite (get_own_eq _ _ _ Hcf).
  eapply logs_bind; [apply logs_ret|]; intros h6 Hf6.
  cbv beta iota delta [or_else truthy].
  eapply logs_bind; [exists h6; split; [apply filterM_includes|apply frame_refl]|]; intros h7 Hf7.
  eapply logs_bind; [apply logs_call|]; intros h8 Hf8.
  eapply logs_bind; [apply logs_call|]; intros h9 Hf9.
  eapply logs_bind; [apply logs_call|]; intros h10 Hf10.
  eapply logs_bind; [apply logs_call|]; intros h11 Hf11.
  apply logs_ret.
Qed.

(* ---------- merging into a tab record ---------- *)

Lemma merge_tab_eq (m tabs : gmap string json) id u :
  m !! "tabs" = Some (JObj tabs) -> merge_tab (JObj m) id u = with_tab m tabs id u.
Proof. intros Ht. unfold merge_tab. by rewrite Ht. Qed.

Lemma with_tab_well_formed (m tabs u : gmap string json) id :
  well_formed (JObj m) -> m !! "tabs" = Some (JObj tabs) ->
  well_formed (with_tab m tabs id (JObj u)).
Proof.
  intros [(tabs0 & Ht0 & Hrec) (p & cf & mf & Hp & Hcf & Hmf) (meta & Hm)] Ht.
  cbn [get_opt] in *. rewrite Ht in Ht0. injection Ht0 as <-.
  unfold with_tab. split; cbn [get_opt].
  - eexists. rewrite lookup_insert_eq. split; [done|].
    intros t v. rewrite lookup_insert. case_decide; [intros [= <-]; by eexists|apply Hrec].
  - exists p, cf, mf. by rewrite lookup_insert_ne.
  - exists meta. by rewrite lookup_insert_ne.
Qed.

Lemma merged_idem (tabs u : gmap string json) id :
  merged (<[id := merged tabs id (JObj u)]> tabs) id (JObj u) = merged tabs id (JObj u).
Proof.
  unfold merged. rewrite lookup_insert_eq. cbn [spread]. f_equal.
  rewrite (assoc_L (∪)). by rewrite (idemp_L (∪)).
Qed.

Lemma with_tab_idem (m tabs u : gmap string json) id :
  with_tab (<["tabs" := JObj (<[id := merged tabs id (JObj u)]> tabs)]> m)
           (<[id := merged tabs id (JObj u)]> tabs) id (JObj u)
  = with_tab m tabs id (JObj u).
Proof. unfold with_tab. by rewrite merged_idem, !insert_insert_eq. Qed.

Lemma merge_tab_idem d id (u : gmap string json) :
  merge_tab (merge_tab d id (JObj u)) id (JObj u) = merge_tab d id (JObj u).
Proof.
  destruct d as [| | | | | |m]; try done.
  destruct (m !! "tabs") as [t|] eqn:Ht;
    [destruct t as [| | | | | |tabs]|]; try (cbn [merge_tab]; rewrite Ht; cbn [merge_tab]; by rewrite Ht).
  rewrite (merge_tab_eq m tabs id _ Ht). unfold with_tab at 1.
  erewrite merge_tab_eq by apply lookup_insert_eq. apply with_tab_idem.
Qed.

Lemma merge_tab_well_formed d id (u : gmap string json) :
  well_formed d -> well_formed (merge_tab d id (JObj u)).
Proof.
  intros Hwf.
  destruct (well_formed_inv d Hwf) as (m & tabs & _ & _ & _ & _ & -> & Ht & _).
  rewrite (merge_tab_eq m tabs id _ Ht). by apply with_tab_well_formed.
Qed.

Lemma merge_tab_field d id (u : gmap string json) k v :
  well_formed d -> u !! k = Some v ->
  tab_field (merge_tab d id (JObj u)) id k = Some v.
Proof.
  intros Hwf Hu.
  destruct (well_formed_inv d Hwf) as (m & tabs & _ & _ & _ & _ & -> & Ht & _).
  rewrite (merge_tab_eq m tabs id _ Ht). unfold tab_field, with_tab. cbn [get_opt].
  rewrite lookup_insert_eq. cbn [get_opt]. rewrite lookup_insert_eq.
  by apply merged_lookup_new.
Qed.

(** [updateTabState] on a well-formed document that the host lets it write. *)
Lemma updateTabState_merge tabId (u : gmap string json) h d :
  inherited (String_of tabId) = false ->
  stored_doc h = Some d -> well_formed d ->
  doc_fits h (merge_tab d (String_of tabId) (JObj u)) ->
  exists h',
    updateTabState tabId (JObj u) h = Ok (merge_tab d (String_of tabId) (JObj u)) h' /\
    localStorage h' =
      <[STORAGE_KEY := JSON_stringify (merge_tab d (String_of tabId) (JObj u))]> (localStorage h) /\
    quota h' = quota h /\ hasBroadcastChannel h' = hasBroadcastChannel h /\
    hasTHREE h' = hasTHREE h /\ exists evs, trace h' = trace h ++ evs.
Proof.
  intros Hid Hs Hwf Hf.
  destruct (well_formed_inv d Hwf) as (m & tabs & _ & _ & _ & _ & -> & Ht & _).
  rewrite (merge_tab_eq m tabs _ _ Ht) in *.
  pose proof (updateTabState_ok tabId (JObj u) h m tabs Hs Ht Hid Hf) as Hrun.
  unfold h_broadcast, h_store, h_emit in Hrun. cbn [hasBroadcastChannel] in Hrun.
  destruct (hasBroadcastChannel h) eqn:Hbc.
  - eexists. split; [exact Hrun|].
    cbn [localStorage quota hasBroadcastChannel hasTHREE trace].
    repeat split; try done. rewrite <- app_assoc. by eexists.
  - eexists. split; [exact Hrun|].
    cbn [localStorage quota hasBroadcastChannel hasTHREE trace].
    repeat split; try done. by eexists.
Qed.

Lemma stored_after_write h h' d :
  localStorage h' = <[STORAGE_KEY := JSON_stringify d]> (localStorage h) ->
  stored_doc h' = Some d.
Proof.
  intros Hl. unfold stored_doc. rewrite Hl, lookup_insert_eq. simpl.
  apply JSON_parse_stringify.
Qed.

Lemma fits_after_write h h' d d' :
  localStorage h' = <[STORAGE_KEY := JSON_stringify d]> (localStorage h) ->
  quota h' = quota h ->
  doc_fits h' d' <-> doc_fits h d'.
Proof. intros Hl Hq. unfold doc_fits. by rewrite Hl, Hq, insert_insert_eq. Qed.

Lemma bind_same {A} (c : M A) h : bind c (fun a => ret a) h = c h.
Proof. unfold bind, ret. by destruct (c h). Qed.

Lemma l1_onMessage_bonus (m : gmap string json) p st h :
  m !! "type" = Some (JStr "BACKTRACK_TRIGGER") -> m !! "payload" = Some p ->
  is_num (get_opt (Some p) "targetTab") 1 = true ->
  is_str (get_opt (Some p) "reason") "midpuzzle" = true ->
  l1_onMessage (JObj m) st h = placeBonusSymbol st h.
Proof.
  intros Hty Hp Ht Hr. unfold l1_onMessage.
  rewrite (get_own_eq _ _ _ Hty), (get_own_eq _ _ _ Hp).
  rewrite !bind_ret_l. rewrite Ht, Hr. cbn [is_str String.eqb Ascii.eqb Bool.eqb andb].
  unfold bind, ret. by destruct (placeBonusSymbol st h).
Qed.

Lemma l1_onMessage_illuminate (m : gmap string json) p st h :
  m !! "type" = Some (JStr "BACKTRACK_TRIGGER") -> m !! "payload" = Some p ->
  is_num (get_opt (Some p) "targetTab") 1 = true ->
  is_str (get_opt (Some p) "reason") "midpuzzle" = false ->
  l1_onMessage (JObj m) st h = illuminate st h.
Proof.
  intros Hty Hp Ht Hr. unfold l1_onMessage.
  rewrite (get_own_eq _ _ _ Hty), (get_own_eq _ _ _ Hp).
  rewrite !bind_ret_l. rewrite Ht, Hr. cbn [is_str String.eqb Ascii.eqb Bool.eqb andb].
  unfold bind, ret. by destruct (illuminate st h).
Qed.

Lemma l1_onMessage_midpuzzle st h :
  l1_onMessage midpuzzle_envelope st h = placeBonusSymbol st h.
Proof. by eapply l1_onMessage_bonus; vm_compute. Qed.

Lemma l1_onMessage_backtrack st h :
  l1_onMessage backtrack_envelope st h = illuminate st h.
Proof. by eapply l1_onMessage_illuminate; vm_compute. Qed.

Lemma written_frame h h1 h2 d : written h h1 d -> frame h1 h2 -> written h h2 d.
Proof.
  intros (?&?&?&?&e1&He1) (?&?&?&?&e2&He2). repeat split; try congruence.
  exists (e1 ++ e2). by rewrite He2, He1, app_assoc.
Qed.

Lemma String_of_tab1 : String_of tab1 = "1".
Proof. reflexivity. Qed.

Lemma updateTabState_tab1 (u : gmap string json) h d :
  stored_doc h = Some d -> well_formed d -> doc_fits h (merge_tab d "1" (JObj u)) ->
  exists h', updateTabState tab1 (JObj u) h = Ok (merge_tab d "1" (JObj u)) h' /\
             written h h' (merge_tab d "1" (JObj u)).
Proof.
  intros Hs Hwf Hf.
  destruct (updateTabState_merge tab1 u h d (inherited_TabNum 1) Hs Hwf Hf) as (h' & Hrun & Hw).
  by exists h'.
Qed.

Lemma placeBonusSymbol_collected st h :
  bonusSymbolCollected st = true -> placeBonusSymbol st h = Ok st h.
Proof. intros Hc. unfold placeBonusSymbol. by rewrite Hc. Qed.

Lemma placeBonusSymbol_places st h d :
  stored_doc h = Some d -> well_formed d -> doc_fits h (merge_tab d "1" bonus_available) ->
  bonusSymbolCollected st = false ->
  exists h', placeBonusSymbol st h = Ok (placed st) h' /\
             written h h' (merge_tab d "1" bonus_available).
Proof.
  intros Hs Hwf Hf Hc. unfold placeBonusSymbol. rewrite Hc.
  destruct (updateTabState_tab1 _ h d Hs Hwf Hf) as (h1 & Hrun & Hw).
  change (obj [("bonusSymbolAvailable", JBool true)]) with bonus_available.
  unfold bonus_available, obj in *.
  rewrite (bind_Ok _ _ _ _ _ Hrun). unfold placed. rewrite Hc.
  eexists. split; [reflexivity|].
  eapply written_frame; [exact Hw|]. eapply frame_trans; apply frame_emit.
Qed.

Lemma written_stored h h' d : written h h' d -> stored_doc h' = Some d.
Proof. intros (Hl&_). by eapply stored_after_write. Qed.

Lemma written_fits h h' d d' : written h h' d -> doc_fits h' d' <-> doc_fits h d'.
Proof. intros (Hl&Hq&_). by eapply fits_after_write. Qed.

Lemma written_again h h1 h2 d : written h h1 d -> written h1 h2 d -> localStorage h2 = localStorage h1.
Proof. intros (Hl1&_) (Hl2&_). by rewrite Hl2, Hl1, insert_insert_eq. Qed.

Lemma logs_when (b : bool) t a h : logs (if b then call t a else ret tt) h tt.
Proof. destruct b; [apply logs_call|apply logs_ret]. Qed.

Lemma illuminate_lights st h d :
  stored_doc h = Some d -> well_formed d -> doc_fits h (merge_tab d "1" illuminated) ->
  exists cf h',
    get_opt (get_opt (Some (merge_tab d "1" illuminated)) "player") "codeFragments"
      = Some (JArr cf) /\
    illuminate st h = Ok (lit st (uncollected cf)) h' /\
    written h h' (merge_tab d "1" illuminated).
Proof.
  intros Hs Hwf Hf. unfold illuminate.
  change (obj [("state", JStr "illuminated"); ("floorRevealed", JBool true)]) with illuminated.
  unfold illuminated, obj in *.
  set (u := list_to_map [("state", JStr "illuminated"); ("floorRevealed", JBool true)]
            : gmap string json) in *.
  destruct (updateTabState_tab1 u h d Hs Hwf Hf) as (h1 & Hrun & Hw).
  rewrite (bind_Ok _ _ _ _ _ Hrun).
  pose proof (written_stored _ _ _ Hw) as Hs1.
  pose proof (merge_tab_well_formed d "1" u Hwf) as Hwf1.
  set (st0 := mkL1 _ _ _ false false false _ _ _ _).
  assert (forall h2, frame h1 h2 ->
            exists cf, get_opt (get_opt (Some (merge_tab d "1" (JObj u))) "player")
                               "codeFragments" = Some (JArr cf) /\
                       logs (setupReturnVisit st0) h2 (returned st0 (uncollected cf))) as Hset.
  { intros h2 Hf2. eapply setupReturnVisit_logs; [|exact Hwf1].
    by rewrite (frame_stored_doc _ _ Hf2). }
  destruct (Hset h1 (frame_refl h1)) as (cf & Hcf & _).
  assert (logs ((if firstVisitExitInterval st then call "clearInterval" [] else ret tt) ;;
     (if firstVisitKeydownHandler st then call "window.removeEventListener" [JStr "keydown"]
      else ret tt) ;;
     (if firstVisitPromptOverlay st then call "firstVisitPromptOverlay.remove" [] else ret tt) ;;
     st' <- setupReturnVisit st0 ;;
     call "document.addEventListener" [JStr "visibilitychange"; JStr "onReturnVisible"] ;;
     ret (mkL1 (entered3D st') (bonusSymbolPlaced st') (bonusSymbolCollected st')
            (firstVisitExitInterval st') (firstVisitKeydownHandler st')
            (firstVisitPromptOverlay st') (l1_onMove st') (l1_onInteract st')
            (symbolInteractables st') (S (returnVisibleListeners st')))) h1
          (lit st (uncollected cf))) as (h' & Hrun' & Hfr).
  { eapply logs_bind; [apply logs_when|]; intros h2 Hf2.
    eapply logs_bind; [apply logs_when|]; intros h3 Hf3.
    eapply logs_bind; [apply logs_when|]; intros h4 Hf4.
    assert (frame h1 h4) as Hf14 by eauto using frame_trans.
    destruct (Hset h4 Hf14) as (cf' & Hcf' & Hlog).
    rewrite Hcf in Hcf'. injection Hcf' as <-.
    eapply logs_bind; [exact Hlog|]; intros h5 Hf5.
    eapply logs_bind; [apply logs_call|]; intros h6 Hf6.
    apply logs_ret. }
  exists cf, h'. split; [exact Hcf|]. split; [exact Hrun'|].
  by eapply written_frame.
Qed.

Lemma player_after_merge d id (u : gmap string json) :
  well_formed d ->
  get_opt (Some (merge_tab d id (JObj u))) "player" = get_opt (Some d) "player".
Proof.
  intros Hwf.
  destruct (well_formed_inv d Hwf) as (m & tabs & _ & _ & _ & _ & -> & Ht & _).
  rewrite (merge_tab_eq m tabs id _ Ht). unfold with_tab. cbn [get_opt].
  by rewrite lookup_insert_ne.
Qed.

(** C3 (as amended).  Delivering the same envelope to a tab-1 context
    twice in succession leaves the persisted document as one delivery
    leaves it: the mid-puzzle envelope records the bonus placement once, the
    Tab 3 envelope records the illuminated state once, and the bonus
    placement does nothing at all once the context has collected the bonus.
    The second delivery still runs the transition: it registers one more
    visibility listener. *)
Theorem redelivery_keeps_document st h d :
  stored_doc h = Some d -> well_formed d ->
  doc_fits h (merge_tab d "1" bonus_available) ->
  doc_fits h (merge_tab d "1" illuminated) ->
  (bonusSymbolCollected st = true ->
     l1_onMessage midpuzzle_envelope st h = Ok st h) /\
  (bonusSymbolCollected st = false ->
     exists st1 h1 h2,
       l1_onMessage midpuzzle_envelope st h = Ok st1 h1 /\
       l1_onMessage midpuzzle_envelope st1 h1 = Ok st1 h2 /\
       stored_doc h1 = Some (merge_tab d "1" bonus_available) /\
       tab_field (merge_tab d "1" bonus_available) "1" "bonusSymbolAvailable"
         = Some (JBool true) /\
       localStorage h2 = localStorage h1) /\
  (exists st1 h1 st2 h2,
     l1_onMessage backtrack_envelope st h = Ok st1 h1 /\
     l1_onMessage backtrack_envelope st1 h1 = Ok st2 h2 /\
     stored_doc h1 = Some (merge_tab d "1" illuminated) /\
     tab_state (merge_tab d "1" illuminated) "1" = Some (JStr "illuminated") /\
     localStorage h2 = localStorage h1 /\
     symbolInteractables st2 = symbolInteractables st1 /\
     returnVisibleListeners st2 = S (returnVisibleListeners st1)).
Proof.
  intros Hs Hwf Hfb Hfi. split; [|split].
  - intros Hc. rewrite l1_onMessage_midpuzzle. by apply placeBonusSymbol_collected.
  - intros Hc.
    destruct (placeBonusSymbol_places st h d Hs Hwf Hfb Hc) as (h1 & Hrun1 & Hw1).
    pose proof (written_stored _ _ _ Hw1) as Hs1.
    unfold bonus_available, obj in *.
    set (u := list_to_map [("bonusSymbolAvailable", JBool true)] : gmap string json) in *.
    assert (doc_fits h1 (merge_tab (merge_tab d "1" (JObj u)) "1" (JObj u))) as Hf1.
    { rewrite merge_tab_idem. by apply (written_fits _ _ _ _ Hw1). }
    destruct (placeBonusSymbol_places (placed st) h1 _ Hs1
                (merge_tab_well_formed d "1" u Hwf) Hf1 Hc) as (h2 & Hrun2 & Hw2).
    rewrite merge_tab_idem in Hw2.
    exists (placed st), h1, h2. rewrite !l1_onMessage_midpuzzle.
    split; [exact Hrun1|]. split; [exact Hrun2|]. split; [exact Hs1|].
    split; [by apply merge_tab_field|]. by eapply written_again.
  - destruct (illuminate_lights st h d Hs Hwf Hfi) as (cf & h1 & Hcf & Hrun1 & Hw1).
    pose proof (written_stored _ _ _ Hw1) as Hs1.
    unfold illuminated, obj in *.
    set (u := list_to_map [("state", JStr "illuminated"); ("floorRevealed", JBool true)]
              : gmap string json) in *.
    assert (doc_fits h1 (merge_tab (merge_tab d "1" (JObj u)) "1" (JObj u))) as Hf1.
    { rewrite merge_tab_idem. by apply (written_fits _ _ _ _ Hw1). }
    destruct (illuminate_lights (lit st (uncollected cf)) h1 _ Hs1
                (merge_tab_well_formed d "1" u Hwf) Hf1) as (cf' & h2 & Hcf' & Hrun2 & Hw2).
    rewrite merge_tab_idem in Hw2, Hcf'. rewrite Hcf in Hcf'. injection Hcf' as <-.
    eexists _, h1, _, h2. rewrite !l1_onMessage_backtrack.
    split; [exact Hrun1|]. split; [exact Hrun2|]. split; [exact Hs1|].
    split; [by apply merge_tab_field|]. split; [by eapply written_again|]. done.
Qed.

Lemma redelivery_keeps_document_witness :
  exists st1 h1 st2 h2,
    l1_onMessage backtrack_envelope first_visit default_host = Ok st1 h1 /\
    l1_onMessage backtrack_envelope st1 h1 = Ok st2 h2 /\
    localStorage h2 = localStorage h1 /\
    returnVisibleListeners st2 = S (returnVisibleListeners st1).
Proof.
  destruct (redelivery_keeps_document first_visit default_host defaultState)
    as (_ & _ & st1 & h1 & st2 & h2 & H1 & H2 & _ & _ & Hl & _ & Hn).
  - apply stored_default_host.
  - apply well_formed_default.
  - vm_compute. lia.
  - vm_compute. lia.
  - exists st1, h1, st2, h2. auto.
Defined.

(** C3 fails as stated.  No persisted flag is consulted: on a document that
    already records the bonus placement, a second mid-puzzle envelope writes
    the document and broadcasts it again and places the collectible again;
    a second Tab 3 envelope leaves two visibility listeners, so the return
    line of the narrator is fired twice. *)
Lemma redelivery_repeats_side_effects :
  value_of ((st1 <- l1_onMessage midpuzzle_envelope first_visit ;;
             h1 <- host ;;
             st2 <- l1_onMessage midpuzzle_envelope st1 ;;
             h2 <- host ;;
             ret (tab_field (current_doc h1) "1" "bonusSymbolAvailable", new_events h1 h2))
              default_host)
    = Some (Some (JBool true),
            [EvPost StateChannel
               (envelope "STATE_CHANGE" (JNum 1) (merge_tab defaultState "1" bonus_available));
             EvCall "renderer.setInteractables" [JArr [bonus_interactable]];
             EvCall "renderer.setOnMove" [JStr "collectBonus"]]) /\
  value_of ((st1 <- l1_onMessage backtrack_envelope first_visit ;;
             st2 <- l1_onMessage backtrack_envelope st1 ;;
             h2 <- host ;;
             l1_onReturnVisible st2 ;;
             h3 <- host ;;
             ret (returnVisibleListeners st2, new_events h2 h3)) default_host)
    = Some (2%nat,
            [EvCall "narrator.triggerNarrator" [JStr "tab1_return"];
             EvCall "narrator.triggerNarrator" [JStr "tab1_return"]]).
Proof. split; vm_compute; reflexivity. Qed.

Lemma onMessage_fun f b h : exists b', onMessage (AFun f) b h = Ok b' h.
Proof.
  unfold onMessage. destruct (bool_decide _); [by eexists|].
  unfold bind, host, ret. destruct (hasBroadcastChannel h); by eexists.
Qed.


Lemma onMessage_subscribed f b h :
  onMessage (AFun f) b h = Ok (subscribed (hasBroadcastChannel h) f b) h.
Proof.
  unfold onMessage, subscribed. destruct (bool_decide _); [done|].
  unfold bind, host, ret. by destruct (hasBroadcastChannel h).
Qed.





Lemma updateTabState_extends tabId (u : gmap string json) h d :
  inherited (String_of tabId) = false ->
  stored_doc h = Some d -> well_formed d ->
  doc_fits h (merge_tab d (String_of tabId) (JObj u)) ->
  exists h' evs,
    updateTabState tabId (JObj u) h = Ok (merge_tab d (String_of tabId) (JObj u)) h' /\
    written h h' (merge_tab d (String_of tabId) (JObj u)) /\
    trace h' = trace h ++ evs.
Proof.
  intros Hid Hs Hwf Hf.
  destruct (updateTabState_merge tabId u h d Hid Hs Hwf Hf)
    as (h' & Hrun & Hl & Hq & Hb & Ht & evs & Hev).
  exists h', evs. split; [exact Hrun|]. split; [|exact Hev].
  repeat split; try done. by exists evs.
Qed.






(* ---------- engine/state.js: further properties ---------- *)






(** X3.  [resetState] puts the default document back whatever the store
    held, valid or not: the host accepting the write, it returns the
    default, the next [getState] reads the default, the other keys of
    [localStorage] are left alone, and with [BroadcastChannel] every
    listener of every context is handed a STATE_CHANGE envelope with sender
    [null] and the default document as payload. *)
Theorem resetState_restores_defaults (h : Host) :
  doc_fits h defaultState ->
  exists h',
    resetState h = Ok defaultState h' /\
    getState h' = Ok defaultState h' /\
    (forall k, k <> STORAGE_KEY -> localStorage h' !! k = localStorage h !! k) /\
    (forall sender cs c hd,
        hasBroadcastChannel h = true ->
        c ∈ cs -> hd ∈ message_listeners (bus c) ->
        (cid c, h_cb hd, envelope "STATE_CHANGE" JNull defaultState)
          ∈ deliveries sender (new_events h h') cs) /\
    (forall sender cs,
        hasBroadcastChannel h = false -> deliveries sender (new_events h h') cs = []).
Proof.
  intros Hf.
  assert (resetState h = Ok defaultState
            (h_broadcast JNull defaultState
               (h_store STORAGE_KEY (JSON_stringify defaultState) h))) as Hrun.
  { unfold resetState.
    rewrite (bind_Ok _ _ _ _ _ (setItem_accept _ _ _ Hf)).
    by rewrite (bind_Ok _ _ _ _ _ (_broadcast_eq _ _ _)). }
  eexists. split; [exact Hrun|]. split; [|split; [|split]].
  - apply getState_stored. rewrite stored_doc_h_broadcast. apply stored_doc_h_store.
  - intros k Hk. unfold h_broadcast, h_store, h_emit. cbn [hasBroadcastChannel].
    destruct (hasBroadcastChannel h); cbn [localStorage]; by rewrite lookup_insert_ne.
  - intros sender cs c hd Hbc Hc Hhd.
    unfold h_broadcast. rewrite hasBC_h_store, Hbc.
    erewrite new_events_app; [|rewrite trace_h_emit, trace_h_store, <- app_assoc; done].
    rewrite deliveries_app. apply elem_of_app. right.
    apply elem_of_deliveries. eexists _, c. split; [by left|]. split; [done|].
    cbn [deliver_event]. apply list_elem_of_fmap. by exists hd.
  - intros sender cs Hbc.
    unfold h_broadcast. rewrite hasBC_h_store, Hbc.
    erewrite new_events_app; [|apply trace_h_store].
    apply deliveries_state_key_only. intros e He.
    case_decide; [by apply elem_of_nil in He|].
    apply list_elem_of_singleton in He. eauto.
Qed.

Lemma resetState_restores_defaults_witness :
  exists h',
    resetState (host_holding "{not json" true) = Ok defaultState h' /\
    getState h' = Ok defaultState h'.
Proof.
  destruct (resetState_restores_defaults (host_holding "{not json" true))
    as (h' & Hrun & Hget & _).
  - unfold doc_fits. vm_compute. lia.
  - exists h'. split; [exact Hrun|exact Hget].
Defined.

(** X4.  [getState] is stable and silent.  When it returns, the store
    holds what it returned, so the next [getState] returns the same document
    and changes nothing; and no listener of any context is handed anything
    because of it, also when it has just replaced a missing or corrupt value
    by the default document. *)
Theorem getState_stable_and_silent (h h' : Host) (d : json) :
  getState h = Ok d h' ->
  getState h' = Ok d h' /\
  stored_doc h' = Some d /\
  (forall sender cs, deliveries sender (new_events h h') cs = []).
Proof.
  intros Hrun. destruct (stored_doc h) as [d0|] eqn:Hs.
  - rewrite (getState_stored h d0 Hs) in Hrun. injection Hrun as <- <-.
    split; [by apply getState_stored|]. split; [done|].
    intros sender cs. unfold new_events. by rewrite drop_all.
  - assert (doc_fits h defaultState \/ ~ doc_fits h defaultState) as [Hf|Hf]
      by (unfold doc_fits; lia).
    + rewrite (getState_reinit h Hs Hf) in Hrun. injection Hrun as <- <-.
      split; [apply getState_stored, stored_doc_h_store|].
      split; [apply stored_doc_h_store|].
      intros sender cs. erewrite new_events_app; [|apply trace_h_store].
      apply deliveries_state_key_only. intros e He.
      case_decide; [by apply elem_of_nil in He|].
      apply list_elem_of_singleton in He. eauto.
    + by rewrite (getState_reinit_refused h Hs Hf) in Hrun.
Qed.

Lemma getState_stable_and_silent_witness :
  getState (h_store STORAGE_KEY (JSON_stringify defaultState) (fresh_host false))
    = Ok defaultState (h_store STORAGE_KEY (JSON_stringify defaultState) (fresh_host false)) /\
  deliveries 1 (new_events (fresh_host false)
                  (h_store STORAGE_KEY (JSON_stringify defaultState) (fresh_host false)))
             [listening 2 7 false] = [].
Proof.
  destruct (getState_stable_and_silent (fresh_host false)
              (h_store STORAGE_KEY (JSON_stringify defaultState) (fresh_host false))
              defaultState) as (Hget & _ & Hsilent).
  - apply getState_reinit; [reflexivity|]. apply fresh_host_fits_default.
  - split; [exact Hget|]. apply Hsilent.
Defined.

(* ---------- engine/channel.js: listener bookkeeping ---------- *)

Lemma bus_ok_empty bc : bus_ok bc empty_bus.
Proof.
  split.
  - destruct bc; apply NoDup_nil_2.
  - intros hd. unfold empty_bus, attached. cbn [message_listeners storage_listeners listenerMap].
    rewrite lookup_empty. destruct bc; (split; [intros H; by apply elem_of_nil in H|done]).
  - intros f hd H. unfold empty_bus in H. cbn [listenerMap] in H.
    by rewrite lookup_empty in H.
  - by destruct bc.
Qed.

Lemma bus_ok_registered bc b f :
  bus_ok bc b -> (registered bc b f <-> is_Some (listenerMap b !! f)).
Proof.
  intros Hok. 
  assert (registered bc b f <-> handler_for bc f ∈ attached bc b) as ->.
  { unfold registered, handler_for, attached. by destruct bc. }
  rewrite (ok_attached _ _ Hok). split.
  - intros H. cbn in H. by eexists.
  - intros [hd Hhd]. pose proof (ok_wrapper _ _ Hok f hd Hhd) as ->.
    unfold handler_for in *. exact Hhd.
Qed.

Lemma subscribed_ok bc f b : bus_ok bc b -> bus_ok bc (subscribed bc f b).
Proof.
  intros Hok. unfold subscribed. case_bool_decide as Hin; [done|].
  assert (listenerMap b !! f = None) as Hnone.
  { destruct (listenerMap b !! f) eqn:E; [|done]. exfalso. apply Hin. by eexists. }
  assert (handler_for bc f ∉ attached bc b) as Hnotin.
  { intros H. apply (ok_attached _ _ Hok) in H. unfold handler_for in H. cbn in H.
    by rewrite Hnone in H. }
  destruct Hok as [Hnd Hatt Hwr Hoth].
  destruct bc; unfold attached, handler_for, lsFallbackListen in *;
    cbn [message_listeners storage_listeners listenerMap negb] in *.
  - split; cbn [attached message_listeners storage_listeners listenerMap negb].
    + apply NoDup_app. split; [done|]. split; [|apply NoDup_singleton].
      intros x Hx Hx'. apply list_elem_of_singleton in Hx' as ->. done.
    + intros hd. rewrite elem_of_app, list_elem_of_singleton, lookup_insert.
      case_decide as Hf.
      * split; [|by intros [= <-]; right].
        intros [Hx| ->]; [|done]. apply Hatt in Hx. rewrite <- Hf, Hnone in Hx. done.
      * rewrite Hatt. split; [|by left].
        intros [Hx| ->]; [done|]. by cbn in Hf.
    + intros g hd. rewrite lookup_insert. case_decide as Hf.
      * intros [= <-]. by subst.
      * apply Hwr.
    + done.
  - split; cbn [attached message_listeners storage_listeners listenerMap negb].
    + apply NoDup_app. split; [done|]. split; [|apply NoDup_singleton].
      intros x Hx Hx'. apply list_elem_of_singleton in Hx' as ->. done.
    + intros hd. rewrite elem_of_app, list_elem_of_singleton, lookup_insert.
      case_decide as Hf.
      * split; [|by intros [= <-]; right].
        intros [Hx| ->]; [|done]. apply Hatt in Hx. rewrite <- Hf, Hnone in Hx. done.
      * rewrite Hatt. split; [|by left].
        intros [Hx| ->]; [done|]. by cbn in Hf.
    + intros g hd. rewrite lookup_insert. case_decide as Hf.
      * intros [= <-]. by subst.
      * apply Hwr.
    + done.
Qed.

Lemma removeListener_unsubscribed f b h :
  removeListener (AFun f) b h = Ok (unsubscribed (hasBroadcastChannel h) f b) h.
Proof.
  unfold removeListener, unsubscribed. destruct (listenerMap b !! f); [|done].
  unfold bind, host, ret. by destruct (hasBroadcastChannel h).
Qed.

Lemma unsubscribed_ok bc f b : bus_ok bc b -> bus_ok bc (unsubscribed bc f b).
Proof.
  intros Hok. unfold unsubscribed. destruct (listenerMap b !! f) as [hd|] eqn:Hf; [|done].
  pose proof (ok_wrapper _ _ Hok f hd Hf) as Hhd.
  destruct Hok as [Hnd Hatt Hwr Hoth].
  assert (forall x, x ∈ filter (fun x => x <> hd) (attached bc b) <->
                    (delete f (listenerMap b)) !! h_cb x = Some x) as Hatt'.
  { intros x. rewrite list_elem_of_filter, Hatt, lookup_delete_Some. split.
    - intros [Hne Hx]. split; [|done]. intros ->. rewrite Hf in Hx. congruence.
    - intros [Hne Hx]. split; [|done]. intros ->. subst. by cbn in Hne. }
  destruct bc; unfold attached in *; cbn [negb] in *.
  - split; unfold attached; cbn [message_listeners storage_listeners listenerMap negb].
    + by apply NoDup_filter.
    + exact Hatt'.
    + intros g x Hx. apply lookup_delete_Some in Hx as [_ Hx]. by eapply Hwr.
    + done.
  - split; unfold attached; cbn [message_listeners storage_listeners listenerMap negb].
    + by apply NoDup_filter.
    + exact Hatt'.
    + intros g x Hx. apply lookup_delete_Some in Hx as [_ Hx]. by eapply Hwr.
    + done.
Qed.

Lemma unsubscribed_subscribed bc f b :
  bus_ok bc b -> listenerMap b !! f = None -> unsubscribed bc f (subscribed bc f b) = b.
Proof.
  intros Hok Hnone. unfold subscribed.
  rewrite bool_decide_eq_false_2 by (rewrite Hnone; by intros [? ?]).
  assert (handler_for bc f ∉ attached bc b) as Hnotin.
  { intros H. apply (ok_attached _ _ Hok) in H. unfold handler_for in H. cbn in H.
    by rewrite Hnone in H. }
  assert (forall l : list handler, handler_for bc f ∉ l ->
            filter (fun x => x <> handler_for bc f) (l ++ [handler_for bc f]) = l) as Hfil.
  { intros l Hl. rewrite filter_app, filter_cons_False, filter_nil, app_nil_r by tauto.
    induction l as [|x l IH]; [done|].
    apply not_elem_of_cons in Hl as [Hx Hl].
    rewrite filter_cons_True by done. by rewrite IH. }
  destruct b as [lm ml sl]. unfold unsubscribed, handler_for, lsFallbackListen, attached in *.
  cbn [listenerMap message_listeners storage_listeners] in *.
  destruct bc; cbn [listenerMap message_listeners storage_listeners];
    rewrite lookup_insert_eq; cbn [listenerMap message_listeners storage_listeners];
    rewrite delete_insert_eq, delete_id by done; by rewrite Hfil.
Qed.

Lemma h_cb_deliveries (c : Context) (l : list handler) (data : json) bc :
  NoDup l -> (forall hd, hd ∈ l -> hd = handler_for bc (h_cb hd)) ->
  NoDup (map (fun hd => (cid c, h_cb hd, data)) l).
Proof.
  intros Hnd Hwr. change (map ?g ?l) with (g <$> l).
  apply NoDup_fmap_2_strong; [|done].
  intros x y Hx Hy [= Heq]. rewrite (Hwr x Hx), (Hwr y Hy). by rewrite Heq.
Qed.

Lemma bus_ok_deliver_NoDup bc sender e c :
  bus_ok bc (bus c) -> NoDup (deliver_event sender e c).
Proof.
  intros [Hnd Hatt Hwr Hoth].
  assert (forall hd, hd ∈ attached bc (bus c) -> hd = handler_for bc (h_cb hd)) as Hall.
  { intros hd Hhd. apply Hatt in Hhd. by apply Hwr in Hhd. }
  destruct e as [src data|key v| |]; cbn [deliver_event]; try apply NoDup_nil_2.
  - destruct (match src with BusChannel => _ | StateChannel => _ end); [apply NoDup_nil_2|].
    destruct bc; unfold attached in *; cbn [negb] in *.
    + by eapply h_cb_deliveries.
    + rewrite Hoth. apply NoDup_nil_2.
  - destruct (cid c =? sender)%nat; [apply NoDup_nil_2|].
    destruct (lsFallbackListen_message key v); [|apply NoDup_nil_2].
    destruct bc; unfold attached in *; cbn [negb] in *.
    + rewrite Hoth. apply NoDup_nil_2.
    + by eapply h_cb_deliveries.
Qed.

(** X5.  Registering a callback again changes nothing, and no callback is
    run twice for one message.  On a bus that satisfies the bookkeeping
    invariant (the empty bus does), [onMessage] with a function returns a bus
    that satisfies it and on which the function is registered; a second
    [onMessage] with the same function returns that bus unchanged; and
    whatever event arrives, no callback of the context is handed the same
    message twice. *)
Theorem onMessage_registers_once (f : fn_id) (b : Bus) (h : Host) :
  bus_ok (hasBroadcastChannel h) b ->
  exists b1,
    onMessage (AFun f) b h = Ok b1 h /\
    onMessage (AFun f) b1 h = Ok b1 h /\
    bus_ok (hasBroadcastChannel h) b1 /\
    registered (hasBroadcastChannel h) b1 f /\
    (forall g, registered (hasBroadcastChannel h) b g ->
               registered (hasBroadcastChannel h) b1 g) /\
    (forall sender e c, bus c = b1 -> NoDup (deliver_event sender e c)).
Proof.
  intros Hok. set (bc := hasBroadcastChannel h) in *.
  pose proof (subscribed_ok bc f b Hok) as Hok1.
  assert (is_Some (listenerMap (subscribed bc f b) !! f)) as Hin.
  { unfold subscribed. case_bool_decide as Hx; [done|].
    destruct bc; cbn [listenerMap]; rewrite lookup_insert_eq; by eexists. }
  exists (subscribed bc f b). rewrite !onMessage_subscribed. fold bc.
  split; [done|]. split.
  { f_equal. unfold subscribed at 1. by rewrite bool_decide_eq_true_2. }
  split; [done|]. split; [by apply bus_ok_registered|]. split.
  { intros g Hg. apply bus_ok_registered; [done|].
    apply (bus_ok_registered _ _ _ Hok) in Hg.
    unfold subscribed. case_bool_decide; [done|].
    destruct Hg as [hd Hg].
    destruct bc; cbn [listenerMap]; rewrite lookup_insert; case_decide; by eexists. }
  intros sender e c Hc. eapply bus_ok_deliver_NoDup. by rewrite Hc.
Qed.

Lemma onMessage_registers_once_witness :
  exists b1,
    onMessage (AFun 7) empty_bus (fresh_host true) = Ok b1 (fresh_host true) /\
    onMessage (AFun 7) b1 (fresh_host true) = Ok b1 (fresh_host true) /\
    NoDup (deliver_event 1 (EvPost BusChannel (envelope "PUZZLE_SOLVED" (JNum 1) (obj [])))
             (mkContext 2 b1)).
Proof.
  destruct (onMessage_registers_once 7 empty_bus (fresh_host true))
    as (b1 & H1 & H2 & _ & _ & _ & Hnd).
  - apply bus_ok_empty.
  - exists b1. split; [exact H1|]. split; [exact H2|]. apply Hnd. reflexivity.
Defined.

(** X6.  [removeListener] undoes [onMessage].  On a bus that satisfies the
    bookkeeping invariant, removing a function keeps the invariant, leaves
    the function unregistered and every other registration as it was, and
    from then on no event hands anything to the function; removing right
    after registering a function that was not registered gives back the bus
    from before; and what is not a function is ignored. *)
Theorem removeListener_undoes_onMessage (f : fn_id) (b : Bus) (h : Host) :
  bus_ok (hasBroadcastChannel h) b ->
  (exists b',
     removeListener (AFun f) b h = Ok b' h /\
     bus_ok (hasBroadcastChannel h) b' /\
     ~ registered (hasBroadcastChannel h) b' f /\
     (forall g, g <> f -> (registered (hasBroadcastChannel h) b' g <->
                           registered (hasBroadcastChannel h) b g)) /\
     (forall sender e c data, bus c = b' -> (cid c, f, data) ∉ deliver_event sender e c)) /\
  (listenerMap b !! f = None ->
   exists b1, onMessage (AFun f) b h = Ok b1 h /\ removeListener (AFun f) b1 h = Ok b h) /\
  (forall v, removeListener (AData v) b h = Ok b h).
Proof.
  intros Hok. set (bc := hasBroadcastChannel h) in *.
  pose proof (unsubscribed_ok bc f b Hok) as Hok'.
  assert (listenerMap (unsubscribed bc f b) !! f = None) as Hgone.
  { unfold unsubscribed. destruct (listenerMap b !! f) eqn:Hf; [|done].
    destruct bc; cbn [listenerMap]; apply lookup_delete_eq. }
  assert (~ registered bc (unsubscribed bc f b) f) as Hnot.
  { rewrite (bus_ok_registered _ _ _ Hok'), Hgone. by intros [? ?]. }
  split; [|split].
  - exists (unsubscribed bc f b). rewrite removeListener_unsubscribed. fold bc.
    split; [done|]. split; [done|]. split; [done|]. split.
    + intros g Hg. rewrite (bus_ok_registered _ _ _ Hok'), (bus_ok_registered _ _ _ Hok).
      unfold unsubscribed. destruct (listenerMap b !! f) eqn:Hf; [|done].
      destruct bc; cbn [listenerMap]; by rewrite lookup_delete_ne.
    + intros sender e c data Hc Hin.
      assert (exists hd, hd ∈ attached bc (bus c) /\ h_cb hd = f) as (hd & Hhd & Hcb).
      { destruct Hok' as [_ _ _ Hoth]. rewrite <- Hc in Hoth.
        destruct e as [src x|key v| |]; cbn [deliver_event] in Hin;
          try (by apply elem_of_nil in Hin).
        - destruct (match src with BusChannel => _ | StateChannel => _ end);
            [by apply elem_of_nil in Hin|].
          change (map ?g ?l) with (g <$> l) in Hin.
          apply list_elem_of_fmap in Hin as (hd & Heq & Hhd). injection Heq as Hf _.
          destruct bc; unfold attached in *; cbn [negb] in *; [by exists hd|].
          rewrite Hoth in Hhd. by apply elem_of_nil in Hhd.
        - destruct (cid c =? sender)%nat; [by apply elem_of_nil in Hin|].
          destruct (lsFallbackListen_message key v); [|by apply elem_of_nil in Hin].
          change (map ?g ?l) with (g <$> l) in Hin.
          apply list_elem_of_fmap in Hin as (hd & Heq & Hhd). injection Heq as Hf _.
          destruct bc; unfold attached in *; cbn [negb] in *; [|by exists hd].
          rewrite Hoth in Hhd. by apply elem_of_nil in Hhd. }
      rewrite Hc in Hhd. apply (ok_attached _ _ Hok') in Hhd.
      rewrite Hcb, Hgone in Hhd. done.
  - intros Hnone. exists (subscribed bc f b).
    rewrite onMessage_subscribed, removeListener_unsubscribed. fold bc.
    split; [done|]. f_equal. by apply unsubscribed_subscribed.
  - done.
Qed.

Lemma removeListener_undoes_onMessage_witness :
  exists b1,
    onMessage (AFun 7) empty_bus (fresh_host false) = Ok b1 (fresh_host false) /\
    removeListener (AFun 7) b1 (fresh_host false) = Ok empty_bus (fresh_host false).
Proof.
  destruct (removeListener_undoes_onMessage 7 empty_bus (fresh_host false))
    as (_ & Hround & _).
  - apply bus_ok_empty.
  - apply Hround. reflexivity.
Defined.

(* ---------- engine/channel.js: the fallback transport ---------- *)

Lemma h_warn_frame ty h :
  localStorage (h_warn ty h) = localStorage h /\ quota (h_warn ty h) = quota h /\
  next_nonce (h_warn ty h) = next_nonce h /\ entropy (h_warn ty h) = entropy h /\
  hasBroadcastChannel (h_warn ty h) = hasBroadcastChannel h.
Proof. unfold h_warn. by destruct (bool_decide _). Qed.

Lemma fallback_strips_nonce (m : gmap string json) (nonce : number) :
  lsFallbackListen_message LS_KEY (wrapped (JObj m) nonce) = Some (JObj (delete "_nonce" m)).
Proof.
  pose proof (wrapped_nonempty (JObj m) nonce) as Hne.
  unfold lsFallbackListen_message.
  rewrite String.eqb_refl. cbn [negb orb].
  apply String.eqb_neq in Hne. rewrite Hne. unfold wrapped.
  rewrite JSON_parse_stringify. cbn [spread]. by rewrite delete_insert_eq.
Qed.

(** X7.  What [lsFallbackPost] writes, the handler of [lsFallbackListen]
    reads back.  On a host that accepts the write, the post of an object
    leaves under the channel key the text of the object with the nonce that
    the host drew, an integer or a fraction; from a storage event with that
    text the handler passes to its callback the object without [_nonce],
    which is the object itself when it has no such property; and the same
    text under another key reaches no callback. *)
Theorem fallback_post_listen_roundtrip (m : gmap string json) (h : Host) :
  storage_used (<[LS_KEY := wrapped (JObj m) (next_nonce h)]> (localStorage h)) <= quota h ->
  exists h',
    lsFallbackPost (JObj m) h = Ok tt h' /\
    localStorage h' !! LS_KEY = Some (wrapped (JObj m) (next_nonce h)) /\
    lsFallbackListen_message LS_KEY (wrapped (JObj m) (next_nonce h))
      = Some (JObj (delete "_nonce" m)) /\
    (m !! "_nonce" = None ->
     lsFallbackListen_message LS_KEY (wrapped (JObj m) (next_nonce h)) = Some (JObj m)) /\
    (forall key, key <> LS_KEY ->
                 lsFallbackListen_message key (wrapped (JObj m) (next_nonce h)) = None).
Proof.
  intros Hfit. rewrite lsFallbackPost_eq. apply Nat.leb_le in Hfit. rewrite Hfit.
  eexists. split; [reflexivity|]. split; [apply lookup_insert_eq|].
  split; [apply fallback_strips_nonce|]. split.
  - intros Hn. rewrite fallback_strips_nonce. by rewrite delete_id.
  - intros key Hk. unfold lsFallbackListen_message.
    apply String.eqb_neq in Hk. by rewrite Hk.
Qed.

Lemma fallback_post_listen_roundtrip_witness :
  exists h',
    lsFallbackPost (envelope "PUZZLE_SOLVED" (JNum 2) (obj [])) (fresh_host false) = Ok tt h' /\
    localStorage h' !! LS_KEY
      = Some (wrapped (envelope "PUZZLE_SOLVED" (JNum 2) (obj [])) a_nonce) /\
    lsFallbackListen_message LS_KEY (wrapped (envelope "PUZZLE_SOLVED" (JNum 2) (obj [])) a_nonce)
      = Some (envelope "PUZZLE_SOLVED" (JNum 2) (obj [])).
Proof.
  destruct (fallback_post_listen_roundtrip
              (fields (Some (envelope "PUZZLE_SOLVED" (JNum 2) (obj [])))) (fresh_host false))
    as (h' & Hrun & Hst & _ & Hmsg & _).
  - vm_compute. lia.
  - exists h'. split; [exact Hrun|]. split; [exact Hst|]. apply Hmsg.
    vm_compute. reflexivity.
Defined.

(** [send] on a host without [BroadcastChannel], by the outcome of the
    write. *)
Lemma send_fallback ty payload ft h :
  hasBroadcastChannel h = false ->
  let env := envelope ty (default JNull ft) (default (obj []) payload) in
  send ty payload ft h =
  if (storage_used (<[LS_KEY := wrapped env (next_nonce h)]> (localStorage h)) <=? quota h)%nat
  then Ok tt (h_store LS_KEY (wrapped env (next_nonce h)) (h_pop (h_warn ty h)))
  else Ok tt (h_pop (h_warn ty h)).
Proof.
  intros Hbc env. rewrite send_unfold, Hbc. fold env. rewrite lsFallbackPost_eq.
  destruct (h_warn_frame ty h) as (Hl & Hq & Hn & _). by rewrite Hl, Hq, Hn.
Qed.

(** X8.  A refused fallback write loses the message silently.  On a host
    without [BroadcastChannel] that refuses the write under the channel key,
    [send] returns normally, [localStorage] is as before, and no listener of
    any context is handed anything. *)
Theorem send_fallback_refused_is_silent
    (ty : string) (payload ft : jsval) (h : Host) :
  hasBroadcastChannel h = false ->
  ~ storage_used (<[LS_KEY := wrapped (envelope ty (default JNull ft) (default (obj []) payload))
                                      (next_nonce h)]> (localStorage h)) <= quota h ->
  exists h',
    send ty payload ft h = Ok tt h' /\
    localStorage h' = localStorage h /\
    forall sender cs, deliveries sender (new_events h h') cs = [].
Proof.
  intros Hbc Hno. rewrite (send_fallback ty payload ft h Hbc). cbv zeta.
  destruct (Nat.leb_spec
              (storage_used (<[LS_KEY := wrapped (envelope ty (default JNull ft)
                                                    (default (obj []) payload))
                                           (next_nonce h)]> (localStorage h))) (quota h));
    [lia|].
  eexists. split; [reflexivity|]. destruct (h_warn_frame ty h) as (Hl & _).
  split; [exact Hl|]. intros sender cs.
  erewrite new_events_app; [|change (trace (h_pop ?x)) with (trace x); apply trace_h_warn].
  apply deliveries_warning.
Qed.

Lemma send_fallback_refused_is_silent_witness :
  exists h',
    send "PUZZLE_SOLVED" (Some (obj [("solvedTab", JNum 2)])) (Some (JNum 2))
         (mkHost ∅ 10 false true [] []) = Ok tt h' /\
    localStorage h' = ∅ /\
    deliveries 2 (new_events (mkHost ∅ 10 false true [] []) h') [listening 3 7 false] = [].
Proof.
  destruct (send_fallback_refused_is_silent
              "PUZZLE_SOLVED" (Some (obj [("solvedTab", JNum 2)])) (Some (JNum 2))
              (mkHost ∅ 10 false true [] [])) as (h' & Hrun & Hl & Hsilent).
  - reflexivity.
  - vm_compute. lia.
  - exists h'. split; [exact Hrun|]. split; [exact Hl|]. apply Hsilent.
Defined.

Lemma JNumber_inj n1 n2 : JNumber n1 = JNumber n2 -> n1 = n2.
Proof. destruct n1, n2; simpl; congruence. Qed.

Lemma wrapped_inj env n1 n2 : wrapped env n1 = wrapped env n2 -> n1 = n2.
Proof.
  unfold wrapped. intros H. apply JSON_stringify_inj in H. injection H as H.
  apply (f_equal (fun m : gmap string json => m !! "_nonce")) in H.
  rewrite !lookup_insert_eq in H. apply JNumber_inj. congruence.
Qed.

Lemma deliveries_fallback_text sender ty ft p n cs :
  deliveries sender [EvStorage LS_KEY (wrapped (envelope ty ft p) n)] cs =
  c ← cs; if (cid c =? sender)%nat then []
          else map (fun hd => (cid c, h_cb hd, envelope ty ft p)) (storage_listeners (bus c)).
Proof.
  unfold deliveries. rewrite bind_cons. cbn [mbind list_bind]. rewrite app_nil_r.
  induction cs as [|c cs IH]; [done|]. rewrite !bind_cons, IH. f_equal.
  cbn [deliver_event]. by rewrite fallback_roundtrip.
Qed.

(** X9.  The nonce is what lets a repeated message through.  Without
    [BroadcastChannel], two [send]s of the same envelope in a row, both
    writes accepted, the host drawing the numbers [n1] and [n2], integers
    or fractions, for [Date.now() + Math.random()]: the first reaches every
    fallback listener of the other contexts; the second reaches them again
    when the two nonces differ, and reaches nobody when the nonces are
    equal, because the stored text does not change. *)
Theorem fallback_nonce_separates_repeats
    (ty : string) (p ft : json) (h : Host) (n1 n2 : number) (rest : list number)
    (sender : nat) (cs : list Context) :
  hasBroadcastChannel h = false ->
  entropy h = n1 :: n2 :: rest ->
  storage_used (<[LS_KEY := wrapped (envelope ty ft p) n1]> (localStorage h)) <= quota h ->
  storage_used (<[LS_KEY := wrapped (envelope ty ft p) n2]> (localStorage h)) <= quota h ->
  localStorage h !! LS_KEY <> Some (wrapped (envelope ty ft p) n1) ->
  exists h1 h2,
    send ty (Some p) (Some ft) h = Ok tt h1 /\
    send ty (Some p) (Some ft) h1 = Ok tt h2 /\
    (forall c f,
        c ∈ cs -> cid c <> sender -> registered false (bus c) f ->
        (cid c, f, envelope ty ft p) ∈ deliveries sender (new_events h h1) cs) /\
    (n1 <> n2 ->
     deliveries sender (new_events h1 h2) cs = deliveries sender (new_events h h1) cs) /\
    (n1 = n2 -> deliveries sender (new_events h1 h2) cs = []).
Proof.
  intros Hbc Hent Hf1 Hf2 Hnew.
  assert (next_nonce h = n1) as Hn1 by (unfold next_nonce; by rewrite Hent).
  pose proof (send_fallback ty (Some p) (Some ft) h Hbc) as Hrun1. cbv zeta in Hrun1.
  change (default JNull (Some ft)) with ft in Hrun1.
  change (default (obj []) (Some p)) with p in Hrun1.
  rewrite Hn1 in Hrun1. apply Nat.leb_le in Hf1 as Hf1b. rewrite Hf1b in Hrun1.
  set (env := envelope ty ft p) in *.
  set (h1 := h_store LS_KEY (wrapped env n1) (h_pop (h_warn ty h))) in *.
  destruct (h_warn_frame ty h) as (Hl & Hq & _ & He & Hb).
  assert (hasBroadcastChannel h1 = false) as Hbc1 by (unfold h1; cbn; by rewrite Hb).
  assert (next_nonce h1 = n2) as Hn2.
  { unfold h1, next_nonce. cbn [h_store h_pop entropy]. by rewrite He, Hent. }
  assert (localStorage h1 = <[LS_KEY := wrapped env n1]> (localStorage h)) as Hl1.
  { unfold h1. cbn [h_store h_pop localStorage]. by rewrite Hl. }
  assert (quota h1 = quota h) as Hq1 by (unfold h1; cbn; by rewrite Hq).
  pose proof (send_fallback ty (Some p) (Some ft) h1 Hbc1) as Hrun2. cbv zeta in Hrun2.
  change (default JNull (Some ft)) with ft in Hrun2.
  change (default (obj []) (Some p)) with p in Hrun2.
  fold env in Hrun2. rewrite Hn2, Hl1, Hq1, insert_insert_eq in Hrun2.
  apply Nat.leb_le in Hf2 as Hf2b. rewrite Hf2b in Hrun2.
  set (h2 := h_store LS_KEY (wrapped env n2) (h_pop (h_warn ty h1))) in *.
  assert (new_events h h1 = warning ty ++ [EvStorage LS_KEY (wrapped env n1)]) as Hev1.
  { apply new_events_app. unfold h1. rewrite trace_h_store.
    change (trace (h_pop ?x)) with (trace x).
    change (localStorage (h_pop ?x)) with (localStorage x).
    rewrite trace_h_warn, Hl, <- app_assoc. by rewrite decide_False. }
  assert (new_events h1 h2 =
          warning ty ++ (if decide (n1 = n2) then [] else [EvStorage LS_KEY (wrapped env n2)]))
    as Hev2.
  { apply new_events_app. unfold h2. rewrite trace_h_store.
    change (trace (h_pop ?x)) with (trace x).
    change (localStorage (h_pop ?x)) with (localStorage x).
    destruct (h_warn_frame ty h1) as (Hl' & _).
    rewrite trace_h_warn, Hl', Hl1, lookup_insert_eq, <- app_assoc. f_equal. f_equal.
    destruct (decide (n1 = n2)) as [->|Hne]; [by rewrite decide_True|].
    rewrite decide_False; [done|]. intros Hw.
    assert (wrapped env n1 = wrapped env n2) as Hw' by congruence.
    clear Hw. apply wrapped_inj in Hw'. exact (Hne Hw'). }
  exists h1, h2. split; [exact Hrun1|]. split; [exact Hrun2|].
  rewrite Hev1, Hev2, !deliveries_app, !deliveries_warning, !app_nil_l.
  unfold env. rewrite deliveries_fallback_text. fold env.
  split; [|split].
  - intros c f Hc Hne Hreg. apply list_elem_of_bind. exists c. split; [|done].
    destruct (Nat.eqb_spec (cid c) sender) as [|_]; [done|].
    by eapply lookup_bus_deliver.
  - intros Hne. rewrite decide_False by done. unfold env. by rewrite deliveries_fallback_text.
  - intros Heq. by rewrite decide_True.
Qed.

Lemma fallback_nonce_separates_repeats_witness :
  exists h1 h2,
    send "PUZZLE_SOLVED" (Some (obj [])) (Some (JNum 2))
         (mkHost ∅ 4000 false true [a_nonce; a_nonce] []) = Ok tt h1 /\
    send "PUZZLE_SOLVED" (Some (obj [])) (Some (JNum 2)) h1 = Ok tt h2 /\
    (3%nat, 7%nat, envelope "PUZZLE_SOLVED" (JNum 2) (obj []))
      ∈ deliveries 2 (new_events (mkHost ∅ 4000 false true [a_nonce; a_nonce] []) h1)
                   [listening 3 7 false] /\
    deliveries 2 (new_events h1 h2) [listening 3 7 false] = [].
Proof.
  destruct (fallback_nonce_separates_repeats "PUZZLE_SOLVED" (obj []) (JNum 2)
              (mkHost ∅ 4000 false true [a_nonce; a_nonce] []) a_nonce a_nonce [] 2
              [listening 3 7 false])
    as (h1 & h2 & H1 & H2 & Hfirst & _ & Hsame).
  - reflexivity.
  - reflexivity.
  - vm_compute. lia.
  - vm_compute. lia.
  - cbn [localStorage]. rewrite lookup_empty. discriminate.
  - exists h1, h2. split; [exact H1|]. split; [exact H2|]. split.
    + apply (Hfirst (listening 3 7 false) 7%nat).
      * apply list_elem_of_singleton. reflexivity.
      * discriminate.
      * apply list_elem_of_singleton. reflexivity.
    + apply Hsame. reflexivity.
Defined.

(* ---------- C8 ---------- *)

Lemma onMessage_registers bc f b0 b h0 h0' :
  bus_ok bc b0 -> hasBroadcastChannel h0 = bc ->
  onMessage (AFun f) b0 h0 = Ok b h0' ->
  registered bc b f.
Proof.
  intros Hok Hbc. rewrite onMessage_subscribed, Hbc. intros [= <- _].
  apply (bus_ok_registered bc _ f (subscribed_ok bc f b0 Hok)).
  unfold subscribed. case_bool_decide as Hin; [done|].
  destruct bc; cbn [listenerMap]; rewrite lookup_insert_eq; by eexists.
Qed.

(** C8 (as amended).  [send] with a payload of JSON data returns.
    Whatever a listener is handed because of it is the envelope that was
    sent, with its type, payload and sender tab (the nonce of the fallback
    transport removed), and the listener belongs to another context than
    the sender.  With [BroadcastChannel], every callback that another
    context registered through [onMessage] is handed the envelope (the
    bookkeeping of its bus being consistent, [bus_ok], as [onMessage] and
    [removeListener] keep it from the empty bus on).  With the fallback
    transport it is handed the envelope when the host accepts the write
    under the channel key and the written text differs from the text that
    was there; when the host refuses the write, or the text is the one
    already stored, nobody is handed anything. *)
Theorem send_reaches_other_contexts
    (ty : string) (payload fromTab : jsval) (h : Host) (sender : nat) (cs : list Context) :
  let env := envelope ty (default JNull fromTab) (default (obj []) payload) in
  let text := wrapped env (next_nonce h) in
  exists h',
    send ty payload fromTab h = Ok tt h' /\
    (forall c f msg,
        (c, f, msg) ∈ deliveries sender (new_events h h') cs ->
        c <> sender /\ msg = env /\
        get_opt (Some msg) "type" = Some (JStr ty) /\
        get_opt (Some msg) "payload" = Some (default (obj []) payload)) /\
    (forall c f b0 h0 h0',
        c ∈ cs -> cid c <> sender ->
        bus_ok (hasBroadcastChannel h) b0 ->
        hasBroadcastChannel h0 = hasBroadcastChannel h ->
        onMessage (AFun f) b0 h0 = Ok (bus c) h0' ->
        (hasBroadcastChannel h = false ->
         storage_used (<[LS_KEY := text]> (localStorage h)) <= quota h /\
         localStorage h !! LS_KEY <> Some text) ->
        (cid c, f, env) ∈ deliveries sender (new_events h h') cs) /\
    (hasBroadcastChannel h = false ->
     ~ storage_used (<[LS_KEY := text]> (localStorage h)) <= quota h \/
     localStorage h !! LS_KEY = Some text ->
     deliveries sender (new_events h h') cs = []).
Proof.
  intros env text.
  destruct (send_spec ty payload fromTab h sender cs) as (h' & Hrun & Hsound & Hlive).
  exists h'. split; [exact Hrun|]. split; [exact Hsound|]. split.
  - intros c f b0 h0 h0' Hc Hne Hok Hbc Hreg Hcond.
    apply Hlive; [done|done| |exact Hcond].
    by eapply onMessage_registers.
  - intros Hbc Hdrop.
    pose proof (send_fallback ty payload fromTab h Hbc) as Hrun2. cbv zeta in Hrun2.
    fold env in Hrun2. fold text in Hrun2.
    destruct (h_warn_frame ty h) as (Hl & _).
    destruct (Nat.leb_spec (storage_used (<[LS_KEY := text]> (localStorage h))) (quota h))
      as [Hacc|Hrej].
    + destruct Hdrop as [Hno|Hsame]; [lia|].
      assert (h' = h_store LS_KEY text (h_pop (h_warn ty h))) as -> by congruence.
      erewrite new_events_app;
        [|rewrite trace_h_store; change (trace (h_pop ?x)) with (trace x);
          change (localStorage (h_pop ?x)) with (localStorage x);
          rewrite trace_h_warn, Hl, decide_True by exact Hsame; by rewrite app_nil_r].
      apply deliveries_warning.
    + assert (h' = h_pop (h_warn ty h)) as -> by congruence.
      erewrite new_events_app; [|change (trace (h_pop ?x)) with (trace x); apply trace_h_warn].
      apply deliveries_warning.
Qed.

Lemma send_reaches_other_contexts_witness :
  exists b h',
    onMessage (AFun 7) empty_bus (fresh_host false) = Ok b (fresh_host false) /\
    send "PUZZLE_SOLVED" (Some (obj [("solvedTab", JNum 2)])) (Some (JNum 2)) (fresh_host false)
      = Ok tt h' /\
    (3%nat, 7%nat, envelope "PUZZLE_SOLVED" (JNum 2) (obj [("solvedTab", JNum 2)]))
      ∈ deliveries 2 (new_events (fresh_host false) h')
                   [listening 2 5 false; mkContext 3 b].
Proof.
  exists (subscribed false 7 empty_bus).
  destruct (send_reaches_other_contexts
              "PUZZLE_SOLVED" (Some (obj [("solvedTab", JNum 2)])) (Some (JNum 2))
              (fresh_host false) 2
              [listening 2 5 false; mkContext 3 (subscribed false 7 empty_bus)])
    as (h' & Hrun & _ & Hlive & _).
  exists h'. split; [reflexivity|]. split; [exact Hrun|].
  apply (Hlive (mkContext 3 (subscribed false 7 empty_bus)) 7%nat empty_bus
               (fresh_host false) (fresh_host false)).
  - apply list_elem_of_In. right. left. reflexivity.
  - discriminate.
  - apply bus_ok_empty.
  - reflexivity.
  - reflexivity.
  - intros _. split.
    + apply Nat.leb_le. vm_compute. reflexivity.
    + discriminate.
Defined.

(** C8 fails as stated: not every [send] reaches the handlers of the other
    contexts.  Without [BroadcastChannel], a handler that context 3
    registered through [onMessage] is handed the envelope of a [send] from
    context 2 when the storage has room for it, and nothing at all when the
    storage is full: [send] returns as if the message had gone out. *)
Lemma send_dropped_when_storage_full :
  value_of ((b <- onMessage (AFun 7) empty_bus ;;
             h0 <- host ;;
             send "PUZZLE_SOLVED" (Some (obj [("solvedTab", JNum 2)])) (Some (JNum 2)) ;;
             h1 <- host ;;
             ret (deliveries 2 (new_events h0 h1) [mkContext 3 b]))
              (mkHost ∅ 4000 false true [a_nonce] []))
    = Some [(3%nat, 7%nat, envelope "PUZZLE_SOLVED" (JNum 2) (obj [("solvedTab", JNum 2)]))] /\
  value_of ((b <- onMessage (AFun 7) empty_bus ;;
             h0 <- host ;;
             send "PUZZLE_SOLVED" (Some (obj [("solvedTab", JNum 2)])) (Some (JNum 2)) ;;
             h1 <- host ;;
             ret (deliveries 2 (new_events h0 h1) [mkContext 3 b]))
              (mkHost ∅ 10 false true [a_nonce] []))
    = Some [].
Proof. split; vm_compute; reflexivity. Qed.

(* ---------- levels/level1.js: further properties ---------- *)

Lemma present_iff (sym : string) (l : list json) :
  existsb (fun y => is_str (Some y) sym) l = true <-> JStr sym ∈ l.
Proof.
  split.
  - intros (x & Hx & Hs)%existsb_exists. apply list_elem_of_In in Hx.
    destruct x; try discriminate. cbn in Hs. apply String.eqb_eq in Hs. by subst.
  - intros H. destruct (existsb _ l) eqn:E; [done|]. by apply not_present in E.
Qed.

Lemma valid_BACKTRACK_TRIGGER : "BACKTRACK_TRIGGER" ∈ VALID_TYPES.
Proof. unfold VALID_TYPES. repeat constructor. Qed.

Lemma valid_NEW_SYMBOL_FOUND : "NEW_SYMBOL_FOUND" ∈ VALID_TYPES.
Proof. unfold VALID_TYPES. repeat constructor. Qed.

Lemma valid_TAB_COMPLETED : "TAB_COMPLETED" ∈ VALID_TYPES.
Proof. unfold VALID_TYPES. repeat constructor. Qed.

Lemma valid_PUZZLE_SOLVED : "PUZZLE_SOLVED" ∈ VALID_TYPES.
Proof. unfold VALID_TYPES. repeat constructor. Qed.

Lemma send_valid ty payload ft h :
  ty ∈ VALID_TYPES -> hasBroadcastChannel h = true ->
  send ty payload ft h =
  Ok tt (h_emit (EvPost BusChannel (envelope ty (default JNull ft) (default (obj []) payload))) h).
Proof.
  intros Hty Hbc. rewrite send_unfold, Hbc. unfold h_warn.
  by rewrite bool_decide_eq_true_2.
Qed.

Lemma length_ge_arr (l : list json) n h :
  length_ge (Some (JArr l)) n h = Ok (n <=? Z.of_nat (length l))%Z h.
Proof. reflexivity. Qed.

Lemma with_codeFragment_entries sym d :
  well_formed d ->
  well_formed (with_codeFragment sym d) /\
  (JStr sym ∈ entries d CodeFragments ->
   with_codeFragment sym d = d) /\
  (JStr sym ∉ entries d CodeFragments ->
   entries (with_codeFragment sym d) CodeFragments = entries d CodeFragments ++ [JStr sym]).
Proof.
  intros Hwf.
  destruct (well_formed_inv d Hwf)
    as (m & tabs & p & meta & cf & mf & -> & Ht & Hrec & Hp & Hcf & Hmf & Hmeta).
  unfold with_codeFragment, entries. cbn [get_opt]. rewrite Hp. cbn [get_opt].
  rewrite Hcf. cbn [as_list].
  destruct (existsb _ cf) eqn:E.
  - split; [done|]. split; [done|]. intros Hn. apply present_iff in E. done.
  - split; [|split].
    + split; cbn [get_opt].
      * exists tabs. rewrite lookup_insert_ne by done. split; [done|]. exact Hrec.
      * eexists _, _, mf. rewrite lookup_insert_eq. split; [done|].
        rewrite lookup_insert_eq. split; [done|]. by rewrite lookup_insert_ne.
      * exists meta. by rewrite lookup_insert_ne.
    + intros Hin. apply present_iff in Hin. congruence.
    + intros _. cbn [get_opt]. rewrite lookup_insert_eq. cbn [get_opt].
      by rewrite lookup_insert_eq.
Qed.

Lemma add_codeFragment_with sym d h :
  well_formed d -> add_codeFragment sym d h = Ok (with_codeFragment sym d) h.
Proof.
  intros Hwf.
  destruct (well_formed_inv d Hwf)
    as (m & tabs & p & meta & cf & mf & -> & Ht & Hrec & Hp & Hcf & Hmf & Hmeta).
  rewrite (add_codeFragment_eq m p cf Hp Hcf). unfold with_codeFragment.
  by rewrite Hp, Hcf.
Qed.

(** X10.  Collecting a floor symbol on the return visit.  On a well-formed
    document, with [BroadcastChannel] and the write accepted, the interaction
    with a floor symbol stores the symbol at the end of
    [player.codeFragments] unless it is there already, takes the item off the
    list of interactables, and sends BACKTRACK_TRIGGER for tab 3 exactly when
    the stored collection then holds five entries or more. *)
Theorem collect_floor_symbol (it : item) (st : L1) (h : Host) (d : json) :
  stored_doc h = Some d -> well_formed d ->
  item_type it = "floor_symbol" ->
  hasBroadcastChannel h = true ->
  doc_fits h (with_codeFragment (item_symbol it) d) ->
  exists st' h',
    return_onInteract it st h = Ok st' h' /\
    stored_doc h' = Some (with_codeFragment (item_symbol it) d) /\
    (JStr (item_symbol it) ∈ entries d CodeFragments ->
     with_codeFragment (item_symbol it) d = d) /\
    (JStr (item_symbol it) ∉ entries d CodeFragments ->
     entries (with_codeFragment (item_symbol it) d) CodeFragments
     = entries d CodeFragments ++ [JStr (item_symbol it)]) /\
    symbolInteractables st' = without_item (item_id it) (symbolInteractables st) /\
    (EvPost BusChannel ready_envelope ∈ new_events h h' <->
     5 <= length (entries (with_codeFragment (item_symbol it) d) CodeFragments)).
Proof.
  intros Hs Hwf Hty Hbc Hf.
  set (sym := item_symbol it) in *. set (d' := with_codeFragment sym d) in *.
  destruct (with_codeFragment_entries sym d Hwf) as (Hwf' & Hsame & Hnew).
  fold d' in Hwf', Hsame, Hnew.
  pose proof (setState_ok (add_codeFragment sym) (Some (JNum 1)) h d d' Hs
                (add_codeFragment_with sym d h Hwf) Hf) as Hset.
  cbn [nullish] in Hset.
  set (h1 := h_broadcast (JNum 1) d' (h_store STORAGE_KEY (JSON_stringify d') h)) in *.
  assert (stored_doc h1 = Some d') as Hs1.
  { unfold h1. rewrite stored_doc_h_broadcast. apply stored_doc_h_store. }
  assert (hasBroadcastChannel h1 = true) as Hbc1.
  { unfold h1, h_broadcast. rewrite hasBC_h_store, Hbc. cbn. by rewrite Hbc. }
  destruct (well_formed_inv d' Hwf')
    as (m & tabs & p & meta & cf & mf & Hd' & Ht & Hrec & Hp & Hcf & Hmf & Hmeta).
  assert (entries d' CodeFragments = cf) as Hent.
  { rewrite Hd'. unfold entries. cbn [get_opt]. rewrite Hp. cbn [get_opt]. by rewrite Hcf. }
  set (st' := mkL1 (entered3D st) (bonusSymbolPlaced st) (bonusSymbolCollected st)
                   (firstVisitExitInterval st) (firstVisitKeydownHandler st)
                   (firstVisitPromptOverlay st) (l1_onMove st) (l1_onInteract st)
                   (without_item (item_id it) (symbolInteractables st))
                   (returnVisibleListeners st)).
  set (h3 := h_emit (EvCall "renderer.setInteractables"
                       [JArr (map floor_interactable
                                  (without_item (item_id it) (symbolInteractables st)))])
               (h_emit (EvCall "audio.playChime" [JNum 1]) h1)).
  assert (return_onInteract it st h =
          Ok st' (if (5 <=? Z.of_nat (length cf))%Z
                  then h_emit (EvPost BusChannel ready_envelope) h3 else h3)) as Hrun.
  { unfold return_onInteract. rewrite Hty. cbn [String.eqb Ascii.eqb Bool.eqb].
    fold sym. rewrite (bind_Ok _ _ _ _ _ Hset).
    rewrite (bind_Ok _ _ _ _ _ (call_eq _ _ _)).
    fold (without_item (item_id it) (symbolInteractables st)).
    rewrite (bind_Ok _ _ _ _ _ (call_eq _ _ _)). fold h3.
    rewrite (bind_Ok _ _ _ _ _ (getState_stored h3 d' Hs1)).
    rewrite Hd'. rewrite (get_own_eq _ _ _ Hp), bind_ret_l. rewrite (get_own_eq _ _ _ Hcf), bind_ret_l.
    rewrite (bind_Ok _ _ _ _ _ (length_ge_arr cf 5 h3)).
    destruct (5 <=? Z.of_nat (length cf))%Z.
    - rewrite (bind_Ok _ _ _ _ _ (send_valid "BACKTRACK_TRIGGER" _ _ h3 valid_BACKTRACK_TRIGGER Hbc1)).
      reflexivity.
    - reflexivity. }
  eexists st', _. split; [exact Hrun|]. split.
  { destruct (5 <=? Z.of_nat (length cf))%Z; exact Hs1. }
  split; [exact Hsame|]. split; [exact Hnew|]. split; [reflexivity|].
  rewrite Hent.
  assert (exists evs, trace h3 = trace h ++ evs /\ EvPost BusChannel ready_envelope ∉ evs)
    as (evs & Htr & Hnot).
  { unfold h3, h1, h_broadcast. rewrite hasBC_h_store, Hbc.
    rewrite !trace_h_emit, trace_h_store, <- !app_assoc. eexists. split; [reflexivity|].
    rewrite !not_elem_of_app. split; [|split; [|split]].
    - case_decide; [apply not_elem_of_nil|].
      intros Hx. apply list_elem_of_singleton in Hx. discriminate.
    - intros Hx. apply list_elem_of_singleton in Hx. discriminate.
    - intros Hx. apply list_elem_of_singleton in Hx. discriminate.
    - intros Hx. apply list_elem_of_singleton in Hx. discriminate. }
  destruct (Z.leb_spec 5 (Z.of_nat (length cf))) as [Hge|Hlt].
  - erewrite new_events_app; [|rewrite trace_h_emit, Htr, <- app_assoc; reflexivity].
    split; [lia|]. intros _. apply elem_of_app. right. by left.
  - erewrite new_events_app; [|exact Htr]. split; [done|lia].
Qed.

Lemma collect_floor_symbol_witness :
  exists st' h',
    return_onInteract (mkItem "floor_symbol" "floor_diamond" "◆") first_visit default_host
      = Ok st' h' /\
    stored_doc h' = Some (with_codeFragment "◆" defaultState) /\
    entries (with_codeFragment "◆" defaultState) CodeFragments = [JStr "◆"].
Proof.
  destruct (collect_floor_symbol (mkItem "floor_symbol" "floor_diamond" "◆") first_visit
              default_host defaultState)
    as (st' & h' & Hrun & Hst & _ & Hnew & _).
  - exact stored_default_host.
  - apply well_formed_default.
  - reflexivity.
  - reflexivity.
  - unfold doc_fits. vm_compute. lia.
  - cbn [item_symbol] in *. exists st', h'. split; [exact Hrun|]. split; [exact Hst|].
    rewrite Hnew; [vm_compute; reflexivity|]. vm_compute. apply not_elem_of_nil.
Defined.


(** The host after a [setState] or [updateTabState] that stored [d]. *)
Lemma setState_written (u : json -> M json) ft h d d' :
  stored_doc h = Some d -> u d h = Ok d' h -> doc_fits h d' ->
  exists h', setState u ft h = Ok d' h' /\ written h h' d'.
Proof.
  intros Hs Hu Hf.
  pose proof (setState_ok u ft h d d' Hs Hu Hf) as Hrun.
  unfold h_broadcast, h_store, h_emit in Hrun. cbn [hasBroadcastChannel] in Hrun.
  destruct (hasBroadcastChannel h) eqn:Hbc.
  - eexists. split; [exact Hrun|]. unfold written.
    cbn [localStorage quota hasBroadcastChannel hasTHREE trace].
    repeat split; try done. rewrite <- app_assoc. by eexists.
  - eexists. split; [exact Hrun|]. unfold written.
    cbn [localStorage quota hasBroadcastChannel hasTHREE trace].
    repeat split; try done. by eexists.
Qed.


Lemma frame_written h h1 h2 d : frame h h1 -> written h1 h2 d -> written h h2 d.
Proof.
  intros (?&?&?&?&e1&He1) (?&?&?&?&e2&He2). repeat split; try congruence.
  exists (e1 ++ e2). by rewrite He2, He1, app_assoc.
Qed.

Lemma frame_fits h h' d : frame h h' -> doc_fits h' d <-> doc_fits h d.
Proof. apply frame_doc_fits. Qed.



(** X12.  The bonus symbol is collected once.  The callback does nothing
    off the tile (3,3) and nothing once the context has collected the bonus.
    On the tile, with [BroadcastChannel] and the write accepted, it stores
    [bonusSymbol: true] in the record of tab 1, sends NEW_SYMBOL_FOUND, and
    leaves the context in a state in which every later call does nothing. *)
Theorem bonus_collected_once (col row : Z) (st : L1) (h : Host) (d : json) :
  stored_doc h = Some d -> well_formed d ->
  ((col, row) <> (3, 3)%Z -> bonus_onMove col row st h = Ok st h) /\
  (bonusSymbolCollected st = true -> bonus_onMove col row st h = Ok st h) /\
  (bonusSymbolCollected st = false ->
   hasBroadcastChannel h = true ->
   doc_fits h (merge_tab d "1" bonus_collected) ->
   exists h',
     bonus_onMove 3 3 st h = Ok (bonus_taken st) h' /\
     stored_doc h' = Some (merge_tab d "1" bonus_collected) /\
     tab_field (merge_tab d "1" bonus_collected) "1" "bonusSymbol" = Some (JBool true) /\
     EvPost BusChannel found_envelope ∈ new_events h h' /\
     forall c r h2, bonus_onMove c r (bonus_taken st) h2 = Ok (bonus_taken st) h2).
Proof.
  intros Hs Hwf. split; [|split].
  - intros Hne. unfold bonus_onMove.
    destruct (Z.eqb_spec col 3) as [->|]; [|done].
    destruct (Z.eqb_spec row 3) as [->|]; [|done]. done.
  - intros Hc. unfold bonus_onMove. rewrite Hc. by rewrite andb_false_r.
  - intros Hc Hbc Hf. unfold bonus_collected, obj in *.
    set (u := list_to_map [("bonusSymbol", JBool true)] : gmap string json) in *.
    unfold bonus_onMove. rewrite Hc. cbn [Z.eqb Pos.eqb andb negb].
    rewrite (bind_Ok _ _ _ _ _ (call_eq _ _ _)).
    rewrite (bind_Ok _ _ _ _ _ (call_eq _ _ _)).
    set (ha := h_emit _ (h_emit _ h)).
    assert (frame h ha) as Hfa by (eapply frame_trans; apply frame_emit).
    destruct (updateTabState_extends tab1 u ha d (inherited_TabNum 1)) as (hb & evs & Hupd & Hwb & Htr).
    { by rewrite (frame_stored_doc _ _ Hfa). }
    { exact Hwf. }
    { by apply (frame_fits _ _ _ Hfa). }
    change (String_of tab1) with "1" in *.
    change (obj [("bonusSymbol", JBool true)]) with (JObj u).
    rewrite (bind_Ok _ _ _ _ _ Hupd).
    assert (hasBroadcastChannel hb = true) as Hbcb.
    { destruct Hwb as (_ & _ & -> & _). exact Hbc. }
    rewrite (bind_Ok _ _ _ _ _ (send_valid "NEW_SYMBOL_FOUND" _ _ hb valid_NEW_SYMBOL_FOUND Hbcb)).
    rewrite (bind_Ok _ _ _ _ _ (call_eq _ _ _)).
    eexists. split; [reflexivity|].
    assert (written h hb (merge_tab d "1" (JObj u))) as Hw
      by (eapply frame_written; [exact Hfa|exact Hwb]).
    split.
    { eapply written_stored. eapply written_frame; [exact Hw|].
      eapply frame_trans; apply frame_emit. }
    split; [by apply merge_tab_field|]. split.
    { erewrite new_events_app;
        [|rewrite !trace_h_emit, Htr; unfold ha; rewrite !trace_h_emit, <- !app_assoc;
          reflexivity].
      rewrite !elem_of_app. right. right. right. left. by left. }
    intros c r h2. unfold bonus_onMove, bonus_taken. cbn [bonusSymbolCollected negb].
    by rewrite andb_false_r.
Qed.

Lemma bonus_collected_once_witness :
  exists h',
    bonus_onMove 3 3 first_visit default_host = Ok (bonus_taken first_visit) h' /\
    stored_doc h' = Some (merge_tab defaultState "1" bonus_collected) /\
    EvPost BusChannel found_envelope ∈ new_events default_host h'.
Proof.
  destruct (bonus_collected_once 3 3 first_visit default_host defaultState)
    as (_ & _ & Htake).
  - exact stored_default_host.
  - apply well_formed_default.
  - destruct Htake as (h' & Hrun & Hst & _ & Hsent & _).
    + reflexivity.
    + reflexivity.
    + unfold doc_fits. vm_compute. lia.
    + exists h'. split; [exact Hrun|]. split; [exact Hst|exact Hsent].
Defined.

Lemma l1_onMessage_completed (m : gmap string json) p st h :
  m !! "type" = Some (JStr "TAB_COMPLETED") -> m !! "payload" = Some p ->
  is_num (get_opt (Some p) "completedTab") 3 = true ->
  l1_onMessage (JObj m) st h = tryEnter3D st h.
Proof.
  intros Hty Hp Ht. unfold l1_onMessage. rewrite (get_own_eq _ _ _ Hty), (get_own_eq _ _ _ Hp).
  rewrite !bind_ret_l. cbn [is_str String.eqb Ascii.eqb Bool.eqb andb].
  rewrite bind_ret_l. by rewrite Ht.
Qed.

Lemma l1_onMessage_TAB_COMPLETED ft st h :
  l1_onMessage (completed_envelope 3 ft) st h = tryEnter3D st h.
Proof.
  unfold completed_envelope.
  destruct (envelope_no_nonce "TAB_COMPLETED" ft (obj [("completedTab", JNum 3)]))
    as (m & -> & _ & Hty & Hp & _).
  by eapply l1_onMessage_completed.
Qed.

Lemma _enter3D_eq h :
  _enter3D h =
  if negb (hasTHREE h)
  then call "console.error" [JStr "[Level 1 3D] Three.js not loaded. Check CDN script tag."] h
  else (call "document.title" [JStr "Origin"] ;;
        updateTabState tab1 (obj [("state", JStr "3d")]) ;;
        call "audio.playLofiMusic" []) h.
Proof. unfold _enter3D. rewrite bind_Ok with (a := h) (h' := h) by reflexivity.
  by destruct (hasTHREE h). Qed.

Lemma tryEnter3D_on_completed (ft : json) (st : L1) (h : Host) (d : json) :
  stored_doc h = Some d -> well_formed d ->
  (entered3D st = true -> l1_onMessage (completed_envelope 3 ft) st h = Ok st h) /\
  (entered3D st = false ->
   is_true (get_opt (get_opt (Some d) "meta") "gameComplete") = false ->
   l1_onMessage (completed_envelope 3 ft) st h = Ok st h) /\
  (entered3D st = false ->
   is_true (get_opt (get_opt (Some d) "meta") "gameComplete") = true ->
   hasTHREE h = true ->
   doc_fits h (merge_tab d "1" in_3d) ->
   exists h',
     l1_onMessage (completed_envelope 3 ft) st h = Ok (in_3d_mode st) h' /\
     stored_doc h' = Some (merge_tab d "1" in_3d) /\
     tab_state (merge_tab d "1" in_3d) "1" = Some (JStr "3d") /\
     l1_onMessage (completed_envelope 3 ft) (in_3d_mode st) h' = Ok (in_3d_mode st) h') /\
  (entered3D st = false ->
   is_true (get_opt (get_opt (Some d) "meta") "gameComplete") = true ->
   hasTHREE h = false ->
   exists h',
     l1_onMessage (completed_envelope 3 ft) st h = Ok (in_3d_mode st) h' /\
     stored_doc h' = Some d).
Proof.
  intros Hs Hwf.
  destruct (well_formed_inv d Hwf)
    as (m & tabs & p & meta & cf & mf & Hd & Ht & Hrec & Hp & Hcf & Hmf & Hmeta).
  assert (forall st0 h0, entered3D st0 = true -> tryEnter3D st0 h0 = Ok st0 h0) as Hdone.
  { intros st0 h0 He. unfold tryEnter3D. by rewrite He. }
  assert (forall h0, stored_doc h0 = Some d -> entered3D st = false ->
            tryEnter3D st h0 =
            if is_true (meta !! "gameComplete")
            then bind _enter3D (fun _ => ret (in_3d_mode st)) h0
            else Ok st h0) as Htry.
  { intros h0 Hs0 He. unfold tryEnter3D. rewrite He.
    rewrite (bind_Ok _ _ _ _ _ (getState_stored h0 _ Hs0)). rewrite Hd.
    rewrite (get_own_eq _ _ _ Hmeta), bind_ret_l.
    rewrite (get_plain_eq _ "gameComplete" eq_refl). rewrite bind_ret_l.
    by destruct (is_true _). }
  rewrite Hd. cbn [get_opt]. rewrite Hmeta. cbn [get_opt]. rewrite <- Hd.
  rewrite !l1_onMessage_TAB_COMPLETED.
  split; [by apply Hdone|]. split; [|split].
  - intros He Hgc. by rewrite (Htry h Hs He), Hgc.
  - intros He Hgc H3 Hf. rewrite (Htry h Hs He), Hgc.
    unfold in_3d, obj in *.
    set (u := list_to_map [("state", JStr "3d")] : gmap string json) in *.
    assert (exists h', _enter3D h = Ok tt h' /\ written h h' (merge_tab d "1" (JObj u)))
      as (h' & Henter & Hw).
    { rewrite _enter3D_eq, H3. cbn [negb].
      rewrite (bind_Ok _ _ _ _ _ (call_eq _ _ _)).
      set (ha := h_emit _ h).
      destruct (updateTabState_tab1 u ha d) as (hb & Hupd & Hwb).
      { exact Hs. } { exact Hwf. } { exact Hf. }
      change (obj [("state", JStr "3d")]) with (JObj u).
      rewrite (bind_Ok _ _ _ _ _ Hupd).
      eexists. split; [apply call_eq|].
      eapply written_frame; [|apply frame_emit].
      eapply frame_written; [apply frame_emit|exact Hwb]. }
    rewrite (bind_Ok _ _ _ _ _ Henter).
    exists h'. split; [reflexivity|]. split; [by eapply written_stored|].
    split; [by apply merge_tab_field|].
    rewrite l1_onMessage_TAB_COMPLETED. by apply Hdone.
  - intros He Hgc H3. rewrite (Htry h Hs He), Hgc.
    assert (_enter3D h = Ok tt (h_emit (EvCall "console.error"
              [JStr "[Level 1 3D] Three.js not loaded. Check CDN script tag."]) h)) as Henter.
    { by rewrite _enter3D_eq, H3. }
    rewrite (bind_Ok _ _ _ _ _ Henter).
    eexists. split; [reflexivity|]. exact Hs.
Qed.

(** X13.  The 3D transition on TAB_COMPLETED from tab 3.  The listener of
    level 1 does nothing when the context has entered 3D already or the
    stored document does not record the game as complete.  When it does and
    Three.js is loaded, the write accepted, the listener stores state 3d for
    tab 1 and a second TAB_COMPLETED then changes nothing.  When Three.js is
    not loaded the context still counts as entered, and nothing is stored. *)
Theorem tab_completed_enters_3d (ft : json) (st : L1) (h : Host) (d : json) :
  stored_doc h = Some d -> well_formed d ->
  (entered3D st = true -> l1_onMessage (completed_envelope 3 ft) st h = Ok st h) /\
  (entered3D st = false ->
   is_true (get_opt (get_opt (Some d) "meta") "gameComplete") = false ->
   l1_onMessage (completed_envelope 3 ft) st h = Ok st h) /\
  (entered3D st = false ->
   is_true (get_opt (get_opt (Some d) "meta") "gameComplete") = true ->
   hasTHREE h = true ->
   doc_fits h (merge_tab d "1" in_3d) ->
   exists h',
     l1_onMessage (completed_envelope 3 ft) st h = Ok (in_3d_mode st) h' /\
     stored_doc h' = Some (merge_tab d "1" in_3d) /\
     tab_state (merge_tab d "1" in_3d) "1" = Some (JStr "3d") /\
     l1_onMessage (completed_envelope 3 ft) (in_3d_mode st) h' = Ok (in_3d_mode st) h') /\
  (entered3D st = false ->
   is_true (get_opt (get_opt (Some d) "meta") "gameComplete") = true ->
   hasTHREE h = false ->
   exists h',
     l1_onMessage (completed_envelope 3 ft) st h = Ok (in_3d_mode st) h' /\
     stored_doc h' = Some d).
Proof. apply tryEnter3D_on_completed. Qed.

Lemma stored_host_holding d bc : stored_doc (host_holding (JSON_stringify d) bc) = Some d.
Proof.
  unfold stored_doc, host_holding. cbn [localStorage].
  rewrite lookup_singleton_eq. cbn [mbind option_bind]. apply JSON_parse_stringify.
Qed.

Lemma with_meta_flag_spec flag d :
  (flag =? "__proto__")%string = false ->
  well_formed d ->
  well_formed (with_meta_flag flag d) /\
  get_opt (get_opt (Some (with_meta_flag flag d)) "meta") flag = Some (JBool true) /\
  (forall h, set_meta_flag flag d h = Ok (with_meta_flag flag d) h) /\
  (forall s, s <> "meta" -> get_opt (Some (with_meta_flag flag d)) s = get_opt (Some d) s).
Proof.
  intros Hflag Hwf.
  destruct (well_formed_inv d Hwf)
    as (m & tabs & p & meta & cf & mf & -> & Ht & Hrec & Hp & Hcf & Hmf & Hmeta).
  unfold with_meta_flag. rewrite Hmeta. split; [|split; [|split]].
  - split; cbn [get_opt].
    + exists tabs. rewrite lookup_insert_ne by done. split; [done|]. exact Hrec.
    + exists p, cf, mf. by rewrite lookup_insert_ne.
    + eexists. by rewrite lookup_insert_eq.
  - cbn [get_opt]. rewrite lookup_insert_eq. cbn [get_opt]. by rewrite lookup_insert_eq.
  - intros h. by rewrite (set_meta_flag_eq m meta Hmeta _ _ Hflag).
  - intros s Hs. cbn [get_opt]. by rewrite lookup_insert_ne.
Qed.

Lemma tab_completed_enters_3d_witness :
  exists h',
    l1_onMessage (completed_envelope 3 (JNum 3)) first_visit
                 (host_holding (JSON_stringify (with_meta_flag "gameComplete" defaultState)) true)
      = Ok (in_3d_mode first_visit) h' /\
    stored_doc h' = Some (merge_tab (with_meta_flag "gameComplete" defaultState) "1" in_3d) /\
    l1_onMessage (completed_envelope 3 (JNum 3)) (in_3d_mode first_visit) h'
      = Ok (in_3d_mode first_visit) h'.
Proof.
  destruct (tab_completed_enters_3d (JNum 3) first_visit
              (host_holding (JSON_stringify (with_meta_flag "gameComplete" defaultState)) true)
              (with_meta_flag "gameComplete" defaultState))
    as (_ & _ & Henter & _).
  - apply stored_host_holding.
  - apply with_meta_flag_spec; [reflexivity|apply well_formed_default].
  - destruct Henter as (h' & Hrun & Hst & _ & Hagain).
    + reflexivity.
    + vm_compute. reflexivity.
    + reflexivity.
    + unfold doc_fits. vm_compute. lia.
    + exists h'. split; [exact Hrun|]. split; [exact Hst|exact Hagain].
Defined.

(* ---------- levels/level3.js ---------- *)

Lemma bind_logs {A B} (c : M A) (k : A -> M B) h a h1 b :
  c h = Ok a h1 -> logs (k a) h1 b -> exists h2, bind c k h = Ok b h2 /\ frame h1 h2.
Proof.
  intros Hc (h2 & Hk & Hf). exists h2. split; [|exact Hf].
  by rewrite (bind_Ok _ _ _ _ _ Hc).
Qed.

Lemma logs_forM_ {A} (f : A -> M unit) (l : list A) h :
  (forall x h', logs (f x) h' tt) -> logs (forM_ f l) h tt.
Proof.
  intros Hf. revert h. induction l as [|x l IH]; intros h; [apply logs_ret|].
  cbn [forM_]. eapply logs_bind; [apply Hf|]. intros h' _. apply IH.
Qed.

Lemma logs_includes_arr (l : list json) sym h :
  logs (includes (Some (JArr l)) sym ;; ret tt) h tt.
Proof. exists h. split; [reflexivity|apply frame_refl]. Qed.

Lemma logs_updateFragHud h d :
  stored_doc h = Some d -> well_formed d -> logs updateFragHud h tt.
Proof.
  intros Hs Hwf.
  destruct (well_formed_inv d Hwf)
    as (m & tabs & p & meta & cf & mf & -> & Ht & Hrec & Hp & Hcf & Hmf & Hmeta).
  unfold updateFragHud.
  eapply logs_bind; [by apply logs_getState|]; intros h1 Hf1.
  rewrite (get_own_eq _ _ _ Hp).
  eapply logs_bind; [apply logs_ret|]; intros h2 Hf2.
  rewrite (get_own_eq _ _ _ Hcf).
  eapply logs_bind; [apply logs_ret|]; intros h3 Hf3.
  cbv beta iota delta [or_else truthy].
  eapply logs_bind; [apply logs_forM_; intros; apply logs_includes_arr|]; intros h4 Hf4.
  apply logs_call.
Qed.

Lemma logs_buildInteractables st h : logs (buildInteractables st) h tt.
Proof. apply logs_call. Qed.

Lemma elem_of_new_events h h1 h2 h3 e :
  (exists evs, trace h1 = trace h ++ evs) -> e ∈ new_events h1 h2 ->
  (exists evs, trace h2 = trace h1 ++ evs) ->
  (exists evs, trace h3 = trace h2 ++ evs) ->
  e ∈ new_events h h3.
Proof.
  intros (e1&He1) Hin (e2&He2) (e3&He3).
  rewrite (new_events_app h1 h2 e2 He2) in Hin.
  erewrite new_events_app; [|rewrite He3, He2, He1, <- !app_assoc; reflexivity].
  rewrite !elem_of_app. right. by left.
Qed.

Lemma frame_trace h h' : frame h h' -> exists evs, trace h' = trace h ++ evs.
Proof. by intros (_&_&_&_&H). Qed.

Lemma written_trace h h' d : written h h' d -> exists evs, trace h' = trace h ++ evs.
Proof. by intros (_&_&_&_&H). Qed.

(** X14.  Level 3 fires its backtrack trigger once.  The move callback
    does nothing once the context has triggered, and nothing off columns 12
    and 13 or beside a dissolved tile.  On those columns beside a standing
    tile of the blocked wall, with [BroadcastChannel] and the write accepted,
    it stores [backtrackedTo1: true] for tab 3, sends BACKTRACK_TRIGGER for
    tab 1, and leaves the context triggered, so that no later move fires
    again. *)
Theorem backtrack_trigger_fires_once (col row : nat) (st : L3) (h : Host) (d : json) :
  stored_doc h = Some d -> well_formed d ->
  (backtrackTriggered st = true -> l3_onMove col row st h = Ok st h) /\
  ((col < 12 \/ 13 < col)%nat -> l3_onMove col row st h = Ok st h) /\
  (forall r, wallMap st !! row = Some r -> r !! BLOCKED_WALL_COL <> Some 1%Z ->
             l3_onMove col row st h = Ok st h) /\
  (forall r,
     backtrackTriggered st = false -> (12 <= col <= 13)%nat ->
     wallMap st !! row = Some r -> r !! BLOCKED_WALL_COL = Some 1%Z ->
     hasBroadcastChannel h = true ->
     doc_fits h (merge_tab d "3" backtracked) ->
     exists h',
       l3_onMove col row st h = Ok (triggered st) h' /\
       stored_doc h' = Some (merge_tab d "3" backtracked) /\
       tab_field (merge_tab d "3" backtracked) "3" "backtrackedTo1" = Some (JBool true) /\
       EvPost BusChannel backtrack_envelope ∈ new_events h h' /\
       forall c r' h2, l3_onMove c r' (triggered st) h2 = Ok (triggered st) h2).
Proof.
  intros Hs Hwf. split; [|split; [|split]].
  - intros Hb. unfold l3_onMove. by rewrite Hb.
  - intros Hc. unfold l3_onMove.
    destruct (Nat.leb_spec 12 col); destruct (Nat.leb_spec col 13);
      rewrite ?andb_false_r; try done. lia.
  - intros r Hr Hne. unfold l3_onMove. rewrite Hr.
    rewrite bool_decide_eq_false_2 by done. by destruct (_ && _).
  - intros r Hb Hc Hr Hwall Hbc Hf. unfold backtracked, obj in *.
    set (u := list_to_map [("backtrackedTo1", JBool true)] : gmap string json) in *.
    unfold l3_onMove. rewrite Hb, Hr, bool_decide_eq_true_2 by done.
    destruct (Nat.leb_spec 12 col); [|lia]. destruct (Nat.leb_spec col 13); [|lia].
    cbn [negb andb].
    destruct (updateTabState_extends (TabNum 3) u h d (inherited_TabNum 3) Hs Hwf Hf)
      as (hb & evs & Hupd & Hwb & Htr).
    change (String_of (TabNum 3)) with "3" in *.
    change (obj [("backtrackedTo1", JBool true)]) with (JObj u).
    rewrite (bind_Ok _ _ _ _ _ Hupd).
    assert (hasBroadcastChannel hb = true) as Hbcb.
    { destruct Hwb as (_ & _ & -> & _). exact Hbc. }
    pose proof (send_valid "BACKTRACK_TRIGGER" (Some (obj [("targetTab", JNum 1)]))
                  (Some (JNum 3)) hb valid_BACKTRACK_TRIGGER Hbcb) as Hsend.
    set (hc := h_emit (EvPost BusChannel _) hb) in Hsend.
    assert (stored_doc hc = Some (merge_tab d "3" (JObj u))) as Hsc.
    { eapply written_stored. eapply written_frame; [exact Hwb|apply frame_emit]. }
    destruct (bind_logs _ (fun _ =>
                call "narrator.triggerNarrator" [JStr "tab3_block"] ;;
                call "fragHud.style.display" [JStr "block"] ;;
                updateFragHud ;;
                buildInteractables (triggered st) ;;
                ret (triggered st)) hb tt hc (triggered st) Hsend)
      as (h' & Hrun & Hfr).
    { eapply logs_bind; [apply logs_call|]; intros h1 Hf1.
      eapply logs_bind; [apply logs_call|]; intros h2 Hf2.
      eapply logs_bind.
      { eapply logs_updateFragHud; [|by apply merge_tab_well_formed].
        rewrite (frame_stored_doc hc h2); [exact Hsc|]. by eapply frame_trans. }
      intros h3 Hf3.
      eapply logs_bind; [apply logs_buildInteractables|]; intros h4 Hf4.
      apply logs_ret. }
    exists h'. split; [exact Hrun|]. split.
    { rewrite (frame_stored_doc hc h' Hfr). exact Hsc. }
    split; [by apply merge_tab_field|]. split.
    { apply (elem_of_new_events h hb hc h').
      - by eapply written_trace.
      - unfold hc. erewrite new_events_app; [|apply trace_h_emit]. by left.
      - eexists. apply trace_h_emit.
      - by apply frame_trace. }
    intros c r' h2. unfold l3_onMove, triggered. by cbn [backtrackTriggered negb andb].
Qed.

Lemma backtrack_trigger_fires_once_witness :
  exists h',
    l3_onMove 13 7 (mkL3 false false WALL_MAP3) default_host
      = Ok (triggered (mkL3 false false WALL_MAP3)) h' /\
    stored_doc h' = Some (merge_tab defaultState "3" backtracked) /\
    EvPost BusChannel backtrack_envelope ∈ new_events default_host h'.
Proof.
  destruct (backtrack_trigger_fires_once 13 7 (mkL3 false false WALL_MAP3) default_host
              defaultState) as (_ & _ & _ & Hfire).
  - exact stored_default_host.
  - apply well_formed_default.
  - destruct (Hfire [1;0;0;0;0;0;0;0;0;0;0;0;0;0;1;0;0;0;0;1]%Z)
      as (h' & Hrun & Hst & _ & Hsent & _).
    + reflexivity.
    + cbn. lia.
    + reflexivity.
    + reflexivity.
    + reflexivity.
    + unfold doc_fits. vm_compute. lia.
    + exists h'. split; [exact Hrun|]. split; [exact Hst|exact Hsent].
Defined.

(* ---------- the code panel ---------- *)

Lemma everyM_includes_arr (l : list json) (syms : list string) h :
  everyM (fun sym => includes (Some (JArr l)) sym) syms h
  = Ok (forallb (fun sym => existsb (fun y => is_str (Some y) sym) l) syms) h.
Proof.
  induction syms as [|s syms IH]; [done|].
  cbn [everyM forallb includes]. rewrite bind_ret_l.
  destruct (existsb _ l); [exact IH|done].
Qed.

Lemma has_all_iff (l : list json) (syms : list string) :
  forallb (fun sym => existsb (fun y => is_str (Some y) sym) l) syms = true
  <-> forall sym, sym ∈ syms -> JStr sym ∈ l.
Proof.
  rewrite forallb_forall. split.
  - intros H sym Hin. apply present_iff, H. by apply list_elem_of_In.
  - intros H sym Hin. apply present_iff, H. by apply list_elem_of_In.
Qed.

(** X15.  The code panel opens the wall only for all five symbols.  While
    the wall stands, an interaction with the panel reads
    [player.codeFragments]: if every required symbol is in it, the write
    accepted, the solved flag of tab 3 is stored and the dissolve starts; if
    one is missing, the error tone plays and nothing is stored.  Once the
    wall is dissolved the panel does nothing. *)
Theorem code_panel_needs_all_symbols (it : item) (st : L3x) (h : Host) (d : json) :
  stored_doc h = Some d -> well_formed d ->
  item_type it = "code_panel" ->
  (wallDissolved (l3 st) = true -> l3_onInteract it st h = Ok st h) /\
  (wallDissolved (l3 st) = false ->
   (forall sym, sym ∈ REQUIRED_SYMBOLS -> JStr sym ∈ entries d CodeFragments) ->
   doc_fits h (merge_tab d "3" puzzle_solved) ->
   exists h',
     l3_onInteract it st h = Ok (dissolving st) h' /\
     stored_doc h' = Some (merge_tab d "3" puzzle_solved) /\
     tab_field (merge_tab d "3" puzzle_solved) "3" "puzzleSolved" = Some (JBool true)) /\
  (wallDissolved (l3 st) = false ->
   forall sym, sym ∈ REQUIRED_SYMBOLS -> JStr sym ∉ entries d CodeFragments ->
   exists h',
     l3_onInteract it st h = Ok st h' /\
     stored_doc h' = Some d /\
     EvCall "audio.playErrorTone" [] ∈ new_events h h').
Proof.
  intros Hs Hwf Hty.
  destruct (well_formed_inv d Hwf)
    as (m & tabs & p & meta & cf & mf & Hd & Ht & Hrec & Hp & Hcf & Hmf & Hmeta).
  assert (entries d CodeFragments = cf) as Hent.
  { rewrite Hd. unfold entries. cbn [get_opt]. rewrite Hp. cbn [get_opt]. by rewrite Hcf. }
  rewrite Hent.
  assert (wallDissolved (l3 st) = false ->
          l3_onInteract it st h =
          if forallb (fun sym => existsb (fun y => is_str (Some y) sym) cf) REQUIRED_SYMBOLS
          then dissolveWall st h
          else (call "audio.playErrorTone" [] ;;
                forM_ (fun sym => includes (Some (JArr cf)) sym ;; ret tt) REQUIRED_SYMBOLS ;;
                ret st) h) as Hstep.
  { intros Hw. unfold l3_onInteract. rewrite Hty, Hw.
    cbn [String.eqb Ascii.eqb Bool.eqb negb andb].
    rewrite (bind_Ok _ _ _ _ _ (getState_stored h _ Hs)). rewrite Hd.
    rewrite (get_own_eq _ _ _ Hp), bind_ret_l. rewrite (get_own_eq _ _ _ Hcf), bind_ret_l.
    cbv beta iota delta [or_else truthy].
    rewrite (bind_Ok _ _ _ _ _ (everyM_includes_arr cf REQUIRED_SYMBOLS h)).
    by destruct (forallb _ _). }
  split; [|split].
  - intros Hw. unfold l3_onInteract. rewrite Hty, Hw.
    by cbn [String.eqb Ascii.eqb Bool.eqb negb andb].
  - intros Hw Hall Hf. rewrite (Hstep Hw).
    rewrite (proj2 (has_all_iff cf REQUIRED_SYMBOLS) Hall).
    unfold puzzle_solved, obj in *.
    set (u := list_to_map [("puzzleSolved", JBool true)] : gmap string json) in *.
    destruct (updateTabState_extends (TabNum 3) u h d (inherited_TabNum 3) Hs Hwf Hf)
      as (hb & evs & Hupd & Hwb & Htr).
    change (String_of (TabNum 3)) with "3" in *.
    unfold dissolveWall. change (obj [("puzzleSolved", JBool true)]) with (JObj u).
    rewrite (bind_Ok _ _ _ _ _ Hupd).
    rewrite (bind_Ok _ _ _ _ _ (call_eq _ _ _)).
    eexists. split; [reflexivity|]. split.
    { eapply written_stored. eapply written_frame; [exact Hwb|apply frame_emit]. }
    by apply merge_tab_field.
  - intros Hw sym Hin Hmiss. rewrite (Hstep Hw).
    destruct (forallb _ REQUIRED_SYMBOLS) eqn:Hall.
    { exfalso. apply Hmiss. by apply (proj1 (has_all_iff cf REQUIRED_SYMBOLS) Hall). }
    rewrite (bind_Ok _ _ _ _ _ (call_eq _ _ _)).
    set (ha := h_emit _ h).
    destruct (bind_logs (forM_ (fun sym => includes (Some (JArr cf)) sym ;; ret tt)
                               REQUIRED_SYMBOLS)
                        (fun _ => ret st) ha tt ha st) as (h' & Hrun & Hfr).
    { reflexivity. }
    { apply logs_ret. }
    exists h'. split; [exact Hrun|]. split.
    { rewrite (frame_stored_doc ha h' Hfr). exact Hs. }
    apply (elem_of_new_events h h ha h').
    + exists []. by rewrite app_nil_r.
    + unfold ha. erewrite new_events_app; [|apply trace_h_emit]. by left.
    + eexists. apply trace_h_emit.
    + by apply frame_trace.
Qed.

Lemma all_collected_well_formed d : well_formed d -> well_formed (all_collected d).
Proof.
  unfold all_collected. generalize REQUIRED_SYMBOLS. intros l. revert d.
  induction l as [|s l IH]; intros d Hwf; [done|].
  cbn [foldl]. apply IH. by apply with_codeFragment_entries.
Qed.

Lemma code_panel_needs_all_symbols_witness :
  exists h',
    l3_onInteract (mkItem "code_panel" "code_panel" EmptyString)
                  (l3_start (mkL3 true false WALL_MAP3))
                  (host_holding (JSON_stringify (all_collected defaultState)) true)
      = Ok (dissolving (l3_start (mkL3 true false WALL_MAP3))) h' /\
    stored_doc h' = Some (merge_tab (all_collected defaultState) "3" puzzle_solved).
Proof.
  destruct (code_panel_needs_all_symbols
              (mkItem "code_panel" "code_panel" EmptyString)
              (l3_start (mkL3 true false WALL_MAP3))
              (host_holding (JSON_stringify (all_collected defaultState)) true)
              (all_collected defaultState)) as (_ & Hopen & _).
  - apply stored_host_holding.
  - apply all_collected_well_formed, well_formed_default.
  - reflexivity.
  - destruct Hopen as (h' & Hrun & Hst & _).
    + reflexivity.
    + apply has_all_iff. vm_compute. reflexivity.
    + unfold doc_fits. vm_compute. lia.
    + exists h'. split; [exact Hrun|exact Hst].
Defined.

(* ---------- the dissolve ---------- *)
















(* ---------- the final exit ---------- *)

(** X17.  The final exit completes the game once, and tab 1 follows.  The
    spacebar on the exit of the dissolved wall, with [BroadcastChannel] and
    the write accepted, sends TAB_COMPLETED for tab 3, stores
    [meta.gameComplete], and a second press does nothing.  Any other key, or
    a press off the exit, does nothing.  A tab-1 context that is handed the
    envelope afterwards finds the game complete in the store and, with
    Three.js loaded and its write accepted, stores state 3d for tab 1. *)
Theorem final_exit_completes_game (key : string) (st : L3x) (h : Host) (d : json) :
  stored_doc h = Some d -> well_formed d ->
  (key <> " " \/ playerOnExit st = false \/ wallDissolved (l3 st) = false
   \/ gameCompleteLocal st = true -> l3_onExitKeydown key st h = Ok st h) /\
  (playerOnExit st = true -> wallDissolved (l3 st) = true ->
   gameCompleteLocal st = false -> hasBroadcastChannel h = true ->
   doc_fits h (with_meta_flag "gameComplete" d) ->
   exists h',
     l3_onExitKeydown " " st h = Ok (completed st) h' /\
     stored_doc h' = Some (with_meta_flag "gameComplete" d) /\
     EvPost BusChannel (completed_envelope 3 (JNum 3)) ∈ new_events h h' /\
     l3_onExitKeydown " " (completed st) h' = Ok (completed st) h' /\
     forall st1,
       entered3D st1 = false -> hasTHREE h = true ->
       doc_fits h (merge_tab (with_meta_flag "gameComplete" d) "1" in_3d) ->
       exists h2,
         l1_onMessage (completed_envelope 3 (JNum 3)) st1 h' = Ok (in_3d_mode st1) h2 /\
         tab_state (current_doc h2) "1" = Some (JStr "3d")).
Proof.
  intros Hs Hwf. split.
  - intros Hno. unfold l3_onExitKeydown.
    destruct (String.eqb_spec key " ") as [->|Hk]; [|done].
    destruct Hno as [Hno|[Hno|[Hno|Hno]]]; [done| | |]; rewrite Hno;
      cbn [String.eqb Ascii.eqb Bool.eqb negb andb]; by rewrite ?andb_false_r.
  - intros Hpoe Hwd Hgc Hbc Hf.
    destruct (with_meta_flag_spec "gameComplete" d eq_refl Hwf) as (Hwf' & Hflag & Hupd & Hsame).
    set (d' := with_meta_flag "gameComplete" d) in *.
    unfold l3_onExitKeydown. rewrite Hpoe, Hwd, Hgc.
    cbn [String.eqb Ascii.eqb Bool.eqb negb andb].
    rewrite (bind_Ok _ _ _ _ _ (call_eq _ _ _)).
    rewrite (bind_Ok _ _ _ _ _ (call_eq _ _ _)).
    set (ha := h_emit _ (h_emit _ h)).
    assert (frame h ha) as Hfa by (eapply frame_trans; apply frame_emit).
    assert (hasBroadcastChannel ha = true) as Hbca by exact Hbc.
    pose proof (send_valid "TAB_COMPLETED" (Some (obj [("completedTab", JNum 3)]))
                  (Some (JNum 3)) ha valid_TAB_COMPLETED Hbca) as Hsend.
    rewrite (bind_Ok _ _ _ _ _ Hsend).
    set (hb := h_emit (EvPost BusChannel _) ha).
    assert (frame h hb) as Hfb by (eapply frame_trans; [exact Hfa|apply frame_emit]).
    destruct (setState_written (set_meta_flag "gameComplete") (Some (JNum 3)) hb d d')
      as (hc & Hset & Hwc).
    { by rewrite (frame_stored_doc _ _ Hfb). }
    { apply Hupd. }
    { by apply (frame_fits _ _ _ Hfb). }
    rewrite (bind_Ok _ _ _ _ _ Hset).
    rewrite (bind_Ok _ _ _ _ _ (call_eq _ _ _)).
    rewrite (bind_Ok _ _ _ _ _ (call_eq _ _ _)).
    rewrite (bind_Ok _ _ _ _ _ (call_eq _ _ _)).
    set (h' := h_emit _ (h_emit _ (h_emit _ hc))).
    assert (frame hc h') as Hfc
      by (do 2 (eapply frame_trans; [|apply frame_emit]); apply frame_emit).
    assert (written h h' d') as Hw.
    { eapply written_frame; [|exact Hfc]. eapply frame_written; [exact Hfb|exact Hwc]. }
    pose proof (written_stored _ _ _ Hw) as Hs'.
    exists h'. split; [unfold completed; by rewrite Hpoe|]. split; [exact Hs'|].
    split; [|split].
    + apply (elem_of_new_events h ha hb h').
      * by apply frame_trace.
      * unfold hb. erewrite new_events_app; [|apply trace_h_emit]. by left.
      * eexists. apply trace_h_emit.
      * destruct (written_trace _ _ _ Hwc) as (e1 & He1).
        destruct (frame_trace _ _ Hfc) as (e2 & He2).
        exists (e1 ++ e2). by rewrite He2, He1, app_assoc.
    + unfold l3_onExitKeydown, completed. cbn [gameCompleteLocal negb].
      by rewrite andb_false_r.
    + intros st1 He H3 Hf1.
      destruct (tryEnter3D_on_completed (JNum 3) st1 h' d' Hs' Hwf')
        as (_ & _ & Henter & _).
      destruct Henter as (h2 & Hrun & Hst & Hstate & _).
      * exact He.
      * fold d'. by rewrite Hflag.
      * destruct Hw as (_ & _ & _ & -> & _). exact H3.
      * by apply (written_fits _ _ _ _ Hw).
      * exists h2. split; [exact Hrun|]. unfold current_doc. by rewrite Hst.
Qed.

Lemma final_exit_completes_game_witness :
  exists h' h2,
    l3_onExitKeydown " " (mkL3x (mkL3 true true (open_wall WALL_MAP3)) true false None)
                     default_host
      = Ok (completed (mkL3x (mkL3 true true (open_wall WALL_MAP3)) true false None)) h' /\
    stored_doc h' = Some (with_meta_flag "gameComplete" defaultState) /\
    l1_onMessage (completed_envelope 3 (JNum 3)) first_visit h'
      = Ok (in_3d_mode first_visit) h2 /\
    tab_state (current_doc h2) "1" = Some (JStr "3d").
Proof.
  destruct (final_exit_completes_game " "
              (mkL3x (mkL3 true true (open_wall WALL_MAP3)) true false None)
              default_host defaultState) as (_ & Hexit).
  - exact stored_default_host.
  - apply well_formed_default.
  - destruct Hexit as (h' & Hrun & Hst & _ & _ & Htab1).
    + reflexivity.
    + reflexivity.
    + reflexivity.
    + reflexivity.
    + unfold doc_fits. vm_compute. lia.
    + destruct (Htab1 first_visit) as (h2 & Hrun2 & Hstate).
      * reflexivity.
      * reflexivity.
      * unfold doc_fits. vm_compute. lia.
      * exists h', h2. split; [exact Hrun|]. split; [exact Hst|].
        split; [exact Hrun2|exact Hstate].
Defined.

